(** * apiwrappy: a shallow embedding of [apiwrappy.py]

    The program queries three location APIs (Yelp, Foursquare, Facebook) for
    the search terms of the input CSV files, flattens the JSON answers into
    rows and writes one CSV report.  Every class of the source is a module
    below; methods keep their names.

    Conventions of the embedding.
    - Text is [string]; a character stands for the Unicode code point of the
      same number, so the model covers text over code points below 256.
    - JSON and Python values are [pyval]; a Python [dict] is an association
      list in insertion order with string keys.
    - Effects (the HTTP exchange, the shared [DATA] buffer, console output)
      are threaded through a [world]; exceptions are the [Raise] result. *)

From Stdlib Require Import String Ascii List ZArith Bool Lia.
From Stdlib Require Import DecimalString DecimalPos DecimalZ.
From Equations Require Import Equations.
Import ListNotations.

Local Open Scope string_scope.
Local Open Scope Z_scope.
Local Open Scope list_scope.

Infix "+++" := String.append (right associativity, at level 60).

(** ** Python strings *)

Module Str.

Definition code (c : ascii) : N := N_of_ascii c.

(** [str.isspace] on one character (code points below 256). *)
Definition isspace (c : ascii) : bool :=
  let n := code c in
  (((9 <=? n) && (n <=? 13)) || ((28 <=? n) && (n <=? 32))
   || (n =? 133) || (n =? 160))%N.

Definition lower_char (c : ascii) : ascii :=
  let n := code c in
  if (((65 <=? n) && (n <=? 90))
      || ((192 <=? n) && (n <=? 222) && negb (n =? 215)))%N
  then ascii_of_N (n + 32) else c.

(** [s.lower()] *)
Fixpoint lower (s : string) : string :=
  match s with
  | EmptyString => EmptyString
  | String c s' => String (lower_char c) (lower s')
  end.

(** The capital of one character, as a str: the sharp s (223) becomes two
    letters; the capitals of 181 and 255 are code points above 255, outside
    the text at hand: [None]. *)
Definition upper_char (c : ascii) : option string :=
  let n := code c in
  if (((97 <=? n) && (n <=? 122))
      || ((224 <=? n) && (n <=? 254) && negb (n =? 247)))%N
  then Some (String (ascii_of_N (n - 32)) EmptyString)
  else if (n =? 223)%N then Some "SS"
  else if ((n =? 181) || (n =? 255))%N then None
  else Some (String c EmptyString).

(** [s.upper()]; [None] where the result holds a code point above 255. *)
Fixpoint upper (s : string) : option string :=
  match s with
  | EmptyString => Some EmptyString
  | String c s' =>
      match upper_char c, upper s' with
      | Some u, Some r => Some (u +++ r)
      | _, _ => None
      end
  end.

(** [s.startswith(p)] *)
Definition startswith (s p : string) : bool := String.prefix p s.

(** [sub in s] *)
Fixpoint contains (sub s : string) : bool :=
  String.prefix sub s
  || match s with
     | EmptyString => false
     | String _ s' => contains sub s'
     end.

Fixpoint has_char (c : ascii) (s : string) : bool :=
  match s with
  | EmptyString => false
  | String c' s' => Ascii.eqb c c' || has_char c s'
  end.

Fixpoint lstrip_with (f : ascii -> bool) (s : string) : string :=
  match s with
  | EmptyString => EmptyString
  | String c s' => if f c then lstrip_with f s' else s
  end.

Fixpoint rstrip_with (f : ascii -> bool) (s : string) : string :=
  match s with
  | EmptyString => EmptyString
  | String c s' =>
      match rstrip_with f s' with
      | EmptyString => if f c then EmptyString else String c EmptyString
      | r => String c r
      end
  end.

(** [s.strip()] *)
Definition strip (s : string) : string :=
  rstrip_with isspace (lstrip_with isspace s).

(** [s.strip(chars)] *)
Definition strip_chars (chars s : string) : string :=
  rstrip_with (fun c => has_char c chars)
    (lstrip_with (fun c => has_char c chars) s).

(** The scan of [s.replace(old, new)] for a non-empty [old]: [skip] counts
    the characters of a match still to be passed over. *)
Fixpoint replace_scan (old new : string) (skip : nat) (s : string) : string :=
  match s with
  | EmptyString => EmptyString
  | String c s' =>
      match skip with
      | S k => replace_scan old new k s'
      | O =>
          if String.prefix old s
          then new +++ replace_scan old new (String.length old - 1) s'
          else String c (replace_scan old new 0 s')
      end
  end.

Fixpoint interleave (new s : string) : string :=
  match s with
  | EmptyString => new
  | String c s' => new +++ String c (interleave new s')
  end.

(** [s.replace(old, new)] *)
Definition replace (old new s : string) : string :=
  match old with
  | EmptyString => interleave new s
  | _ => replace_scan old new 0 s
  end.

(** The scan of [s.split(sep)] for a non-empty [sep]; [cur] is the piece
    being collected. *)
Fixpoint split_scan (sep : string) (skip : nat) (cur s : string) : list string :=
  match s with
  | EmptyString => [cur]
  | String c s' =>
      match skip with
      | S k => split_scan sep k cur s'
      | O =>
          if String.prefix sep s
          then cur :: split_scan sep (String.length sep - 1) EmptyString s'
          else split_scan sep 0 (cur +++ String c EmptyString) s'
      end
  end.

(** [s.split(sep)], [sep] not empty *)
Definition split (sep s : string) : list string := split_scan sep 0 EmptyString s.

(** [sep.join(l)] *)
Definition join (sep : string) (l : list string) : string := String.concat sep l.

Fixpoint chars (s : string) : list string :=
  match s with
  | EmptyString => []
  | String c s' => String c EmptyString :: chars s'
  end.

(** [str(z)] for an int *)
Definition of_Z (z : Z) : string := NilZero.string_of_int (Z.to_int z).

Definition digit_of (c : ascii) : option Z :=
  let n := code c in
  if ((48 <=? n) && (n <=? 57))%N then Some (Z.of_N n - 48) else None.

(** The white space [int] passes over at the two ends of a str: the ASCII
    one, and the Unicode one above it, which below 256 is 133 and 160.  The
    separators 28 to 31, which [str.strip] takes off, are not part of it. *)
Definition int_space (c : ascii) : bool :=
  let n := code c in
  (((9 <=? n) && (n <=? 13)) || (n =? 32) || (n =? 133) || (n =? 160))%N.

(** [sys.int_info.default_max_str_digits]: [int] refuses a str with more
    digits than this. *)
Definition max_str_digits : N := 4300.

(** Digits of an int literal: single underscores are allowed between
    digits; [digits] counts the digits passed. *)
Fixpoint int_digits (acc : Z) (digits : N) (after_digit : bool) (s : string)
    : option Z :=
  match s with
  | EmptyString =>
      if after_digit && (digits <=? max_str_digits)%N then Some acc else None
  | String c s' =>
      match digit_of c with
      | Some d => int_digits (10 * acc + d) (digits + 1) true s'
      | None =>
          if Ascii.eqb c "_" && after_digit then int_digits acc digits false s'
          else None
      end
  end.

(** [int(s)] for a str; [None] is [ValueError]. *)
Definition to_Z (s : string) : option Z :=
  match rstrip_with int_space (lstrip_with int_space s) with
  | String "+" r => int_digits 0 0 false r
  | String "-" r => option_map Z.opp (int_digits 0 0 false r)
  | t => int_digits 0 0 false t
  end.

Definition dquote : ascii := ascii_of_N 34.
Definition backslash : ascii := ascii_of_N 92.

Definition hex_digit (n : N) : ascii :=
  match String.get (N.to_nat n) "0123456789abcdef" with
  | Some c => c
  | None => "0"%char
  end.

Definition repr_char (quote c : ascii) : string :=
  let n := code c in
  if Ascii.eqb c quote || Ascii.eqb c backslash
  then String backslash (String c EmptyString)
  else if (n =? 9)%N then String backslash "t"
  else if (n =? 10)%N then String backslash "n"
  else if (n =? 13)%N then String backslash "r"
  else if ((n <? 32) || (n =? 127) || ((128 <=? n) && (n <=? 160)) || (n =? 173))%N
  then String backslash
         (String "x" (String (hex_digit (n / 16)) (String (hex_digit (n mod 16)) EmptyString)))
  else String c EmptyString.

Fixpoint repr_body (quote : ascii) (s : string) : string :=
  match s with
  | EmptyString => EmptyString
  | String c s' => repr_char quote c +++ repr_body quote s'
  end.

(** [repr(s)] for a str *)
Definition repr (s : string) : string :=
  let quote :=
    if has_char "'" s && negb (has_char dquote s) then dquote else "'"%char in
  String quote (repr_body quote s +++ String quote EmptyString).

(** [s.endswith(suffix)] *)
Fixpoint endswith (s suffix : string) : bool :=
  String.eqb s suffix
  || match s with
     | EmptyString => false
     | String _ s' => endswith s' suffix
     end.

End Str.

(** ** Python values *)

(** A float is never computed with by this program: it is carried from the
    JSON answer to the report, printed, tested for zero and (by [int])
    truncated.  It is kept as those observations. *)
Record pyfloat := {
  float_repr : string;
  float_nonzero : bool;
  float_trunc : option Z
}.

#[warnings="-register-all"] Inductive pyval :=
| PNone
| PBool (b : bool)
| PInt (z : Z)
| PFloat (f : pyfloat)
| PStr (s : string)
| PList (l : list pyval)
| PDict (d : list (string * pyval)).

Inductive exn :=
| RequestEngineError (msg : string)
| KeysParserError (msg : string)
| KeyError (key : string)
| TypeError
| AttributeError
| ValueError
| StopIteration
| UnderlyingError (cls msg : string).

(** The value of an expression, or the exception it raises. *)
Inductive result (A : Type) :=
| Ok (a : A)
| Raise (e : exn).
Arguments Ok {A} a.
Arguments Raise {A} e.

(** An expression after another *)
Definition and_then {A B} (r : result A) (k : A -> result B) : result B :=
  match r with
  | Ok a => k a
  | Raise e => Raise e
  end.

Notation "'let?' x := r 'in' k" := (and_then r (fun x => k))
  (at level 10, x name, r at level 100, k at level 200).

Module Dict.

Definition t (V : Type) := list (string * V).

(** [d.get(k)] *)
Fixpoint get {V} (k : string) (d : t V) : option V :=
  match d with
  | [] => None
  | (k', v) :: d' => if String.eqb k' k then Some v else get k d'
  end.

(** [d[k] = v]: an existing key keeps its position. *)
Fixpoint set {V} (k : string) (v : V) (d : t V) : t V :=
  match d with
  | [] => [(k, v)]
  | (k', v') :: d' =>
      if String.eqb k' k then (k', v) :: d' else (k', v') :: set k v d'
  end.

(** [d.pop(k)], the mapping left behind *)
Fixpoint remove {V} (k : string) (d : t V) : t V :=
  match d with
  | [] => []
  | (k', v') :: d' =>
      if String.eqb k' k then d' else (k', v') :: remove k d'
  end.

Definition mem {V} (k : string) (d : t V) : bool :=
  match get k d with Some _ => true | None => false end.

Definition keys {V} (d : t V) : list string := map fst d.
Definition values {V} (d : t V) : list V := map snd d.

(** [{k: v for k, v in items}] *)
Definition of_items {V} (items : list (string * V)) : t V :=
  fold_left (fun d kv => set (fst kv) (snd kv) d) items [].

End Dict.

Module Py.

Definition bool_str (b : bool) : string := if b then "True" else "False".

(** [repr(v)] *)
Fixpoint repr (v : pyval) : string :=
  match v with
  | PNone => "None"
  | PBool b => bool_str b
  | PInt z => Str.of_Z z
  | PFloat f => float_repr f
  | PStr s => Str.repr s
  | PList l => "[" +++ Str.join ", " (map repr l) +++ "]"
  | PDict d =>
      "{" +++ Str.join ", "
                (map (fun kv => Str.repr (fst kv) +++ ": " +++ repr (snd kv)) d)
          +++ "}"
  end.

(** [str(v)], also what ['{}'.format(v)] prints *)
Definition str (v : pyval) : string :=
  match v with
  | PStr s => s
  | _ => repr v
  end.

(** Truth value of [v] *)
Definition truthy (v : pyval) : bool :=
  match v with
  | PNone => false
  | PBool b => b
  | PInt z => negb (z =? 0)
  | PFloat f => float_nonzero f
  | PStr s => negb (String.eqb s "")
  | PList l => match l with [] => false | _ => true end
  | PDict d => match d with [] => false | _ => true end
  end.

(** [v.get(k, default)] *)
Definition get (v : pyval) (k : string) (default : pyval) : result pyval :=
  match v with
  | PDict d =>
      Ok (match Dict.get k d with Some x => x | None => default end)
  | _ => Raise AttributeError
  end.

(** [v[k]] for a str key *)
Definition getitem (v : pyval) (k : string) : result pyval :=
  match v with
  | PDict d =>
      match Dict.get k d with Some x => Ok x | None => Raise (KeyError k) end
  | _ => Raise TypeError
  end.

(** The elements [for x in v] visits *)
Definition iter (v : pyval) : result (list pyval) :=
  match v with
  | PList l => Ok l
  | PStr s => Ok (map PStr (Str.chars s))
  | PDict d => Ok (map PStr (Dict.keys d))
  | _ => Raise TypeError
  end.

(** [needle in v] for a str needle *)
Definition contains (needle : string) (v : pyval) : result bool :=
  match v with
  | PStr s => Ok (Str.contains needle s)
  | PList l =>
      Ok (existsb (fun x => match x with
                            | PStr s => String.eqb s needle
                            | _ => false
                            end) l)
  | PDict d => Ok (Dict.mem needle d)
  | _ => Raise TypeError
  end.

(** [len(v)] *)
Definition len (v : pyval) : result Z :=
  match v with
  | PStr s => Ok (Z.of_nat (String.length s))
  | PList l => Ok (Z.of_nat (List.length l))
  | PDict d => Ok (Z.of_nat (List.length d))
  | _ => Raise TypeError
  end.

Fixpoint all_str (l : list pyval) : option (list string) :=
  match l with
  | [] => Some []
  | PStr s :: l' => option_map (cons s) (all_str l')
  | _ :: _ => None
  end.

(** [sep.join(v)] *)
Definition join (sep : string) (v : pyval) : result string :=
  let? l := iter v in
  match all_str l with
  | Some ss => Ok (Str.join sep ss)
  | None => Raise TypeError
  end.

(** [v.replace(old, new)] *)
Definition replace (old new : string) (v : pyval) : result pyval :=
  match v with
  | PStr s => Ok (PStr (Str.replace old new s))
  | _ => Raise AttributeError
  end.

(** [int(v)] *)
Definition int (v : pyval) : result Z :=
  match v with
  | PStr s => match Str.to_Z s with Some z => Ok z | None => Raise ValueError end
  | PInt z => Ok z
  | PBool b => Ok (if b then 1 else 0)
  | PFloat f => match float_trunc f with Some z => Ok z | None => Raise ValueError end
  | _ => Raise TypeError
  end.

(** [isinstance(v, int)]: [bool] is a subclass of [int]. *)
Definition is_int (v : pyval) : bool :=
  match v with
  | PInt _ | PBool _ => true
  | _ => false
  end.

(** Whether ['{:>5}'.format(v)] is defined: [None], lists and dicts reject
    a format specification with [TypeError]. *)
Definition aligns (v : pyval) : bool :=
  match v with
  | PNone | PList _ | PDict _ => false
  | _ => true
  end.

End Py.

(** ** The world: the HTTP exchange, the console and the shared buffer *)

Inductive endpoint :=
| BUSINESS_SEARCH
| VENUE_SEARCH
| VENUE_DETAILS
| PLACES_SEARCH
| PLACE_INFORMATION.

(** The arguments of one [requests.get(url, **kwargs)]; [via] is the entry of
    [ENDPOINTS] the url was built from. *)
Record request := {
  via : endpoint;
  url : string;
  params : Dict.t pyval;
  req_headers : option (Dict.t string);
  timeout : option Z
}.

(** What the program reads of a [requests.Response]. *)
Record response := {
  status_code : Z;
  headers : list (string * string);
  text : string;
  json : pyval
}.

(** One attempt of [requests.get] followed by [response.json()]: it raises
    an exception of class [cls] printing as [msg], or yields a response. *)
Inductive attempt :=
| Fails (cls msg : string)
| Answers (r : response).

(** The [print] statements, by what they show. *)
Inductive line :=
| ErrorLine (error_msg : string)
| TermLine (search_term_str : string)
| OffsetLine (offset : Z)
| ExtractedLine (amount : Z) (total : option pyval)
| QueuedLine
| RunningLine (wrapper : string)
| StatsHeading
| StatsLine (stats : list (string * string))
| ResponseLine (wrapper : string) (body : string)
| KeysErrorLine (e : exn)
| FailedLine (wrapper : string) (e : exn).

Inductive event :=
| Sleep
| Request (r : request)
| Print (l : line)
| WriteCsv (filename : string) (written : list (list pyval)).

Definition row := Dict.t pyval.

(** The clock and calendar of the machine.  [utc_stamp n] and [utc_name n]
    are the n-th reading of [datetime.utcnow()] printed with
    ['%d.%m.%Y/%H:%M:%S'] and ['%d%m%Y_%H%M%S']; [today] is
    [date.today()] printed with ['%Y%m%d']; [local_date t] is
    [datetime.fromtimestamp(t)] printed with ['%d-%m-%Y'], which raises
    outside the platform's range. *)
Record clock := {
  utc_stamp : nat -> string;
  utc_name : nat -> string;
  today : string;
  local_date : Z -> result string
}.

(** [script] is what the network will do, attempt by attempt; [trace] what
    the program did so far; [rows] is [DATA['rows']], the one list shared by
    all wrappers; [_response] is the attribute of that name of the wrapper
    at work; [readings] counts the readings of the clock. *)
Record world := {
  script : list attempt;
  trace : list event;
  rows : list row;
  _response : option response;
  readings : nat;
  time : clock
}.

Definition log (e : event) (w : world) : world :=
  {| script := script w; trace := trace w ++ [e]; rows := rows w;
     _response := _response w; readings := readings w; time := time w |}.

Definition answered (rest : list attempt) (w : world) : world :=
  {| script := rest; trace := trace w; rows := rows w;
     _response := _response w; readings := readings w; time := time w |}.

Definition append_row (r : row) (w : world) : world :=
  {| script := script w; trace := trace w; rows := rows w ++ [r];
     _response := _response w; readings := readings w; time := time w |}.

Definition assign_response (r : option response) (w : world) : world :=
  {| script := script w; trace := trace w; rows := rows w;
     _response := r; readings := readings w; time := time w |}.

(** The world after the events [es] *)
Definition logs (es : list event) (w : world) : world :=
  fold_left (fun w e => log e w) es w.

Definition tick (w : world) : world :=
  {| script := script w; trace := trace w; rows := rows w;
     _response := _response w; readings := S (readings w); time := time w |}.

(** The requests of a trace, in the order they were sent. *)
Fixpoint sent (t : list event) : list request :=
  match t with
  | [] => []
  | Request r :: t' => r :: sent t'
  | _ :: t' => sent t'
  end.

(** ** Statements: state and exceptions *)

(** How a statement ends: it returns, it raises, or it is [Stuck] waiting
    for an answer the script of the network does not hold. *)
Inductive outcome (A : Type) :=
| Returns (a : A)
| Raises (e : exn)
| Stuck.
Arguments Returns {A} a.
Arguments Raises {A} e.
Arguments Stuck {A}.

Definition M (A : Type) := world -> outcome A * world.

Definition ret {A} (a : A) : M A := fun w => (Returns a, w).

Definition raise {A} (e : exn) : M A := fun w => (Raises e, w).

Definition bind {A B} (m : M A) (k : A -> M B) : M B :=
  fun w =>
    match m w with
    | (Returns a, w') => k a w'
    | (Raises e, w') => (Raises e, w')
    | (Stuck, w') => (Stuck, w')
    end.

(** An expression as a statement *)
Definition eval {A} (r : result A) : M A :=
  fun w =>
    match r with
    | Ok a => (Returns a, w)
    | Raise e => (Raises e, w)
    end.

Definition emit (e : event) : M unit := fun w => (Returns tt, log e w).

(** [datetime.utcnow().strftime(...)] *)
Definition utcnow (format : clock -> nat -> string) : M string :=
  fun w => (Returns (format (time w) (readings w)), tick w).

(** [DATA['rows'].append(ROW)] *)
Definition append (ROW : row) : M unit := fun w => (Returns tt, append_row ROW w).

(** [DATA['rows']] *)
Definition DATA_rows : M (list row) := fun w => (Returns (rows w), w).

(** The clock and calendar in use *)
Definition the_clock : M clock := fun w => (Returns (time w), w).

Declare Scope stmt_scope.
Delimit Scope stmt_scope with stmt.
Notation "x <- m ;; k" := (bind m (fun x => k))
  (at level 61, m at next level, right associativity) : stmt_scope.
Notation "m ;; k" := (bind m (fun _ => k))
  (at level 61, right associativity) : stmt_scope.
Local Open Scope stmt_scope.

(** [for x in l: body(x)] *)
Fixpoint for_each {A} (l : list A) (body : A -> M unit) : M unit :=
  match l with
  | [] => ret tt
  | x :: l' => body x ;; for_each l' body
  end.

(** [for x in l: acc = body(x, acc)], for a loop that updates a local
    variable *)
Fixpoint for_fold {A S} (l : list A) (body : A -> S -> M S) (acc : S) : M S :=
  match l with
  | [] => ret acc
  | x :: l' => acc' <- body x acc ;; for_fold l' body acc'
  end.

(** ** class RequestEngine *)

Module RequestEngine.

(** The attributes of [self] that [GET] reads. *)
Record self := {
  class_name : string;
  _errors_limit : Z
}.

Definition error_msg (s : self) (cls msg : string) : string :=
  "Error(" +++ cls +++ "). " +++ class_name s +++ ": " +++ msg.

(** The [while True] loop of [GET]; each turn takes the next attempt of the
    script. *)
Fixpoint attempts (s : self) (req : request) (errors : Z)
    (todo : list attempt) (w : world) : outcome response * world :=
  match todo with
  | [] => (Stuck, w)
  | a :: rest =>
      let w1 := answered rest (log (Request req) (log Sleep w)) in
      match a with
      | Answers r => (Returns r, w1)
      | Fails cls msg =>
          let errors := errors + 1 in
          if errors =? _errors_limit s
          then (Raises (RequestEngineError (error_msg s cls msg)), w1)
          else attempts s req errors rest
                 (log (Print (ErrorLine (error_msg s cls msg))) w1)
      end
  end.

Definition GET (s : self) (req : request) : M response :=
  fun w => attempts s req 0 (script w) w.

End RequestEngine.

(** ** class KeysParser *)

Module KeysParser.

Definition KEY_PLACEHOLDER : string := "set_key_here".

Definition newline : string := String (ascii_of_N 10) EmptyString.

(** [IN_TXT.readlines()] of a text file opened with universal newlines:
    every line keeps its end, written as one line feed. *)
Fixpoint readlines_scan (cur s : string) : list string :=
  match s with
  | EmptyString => match cur with EmptyString => [] | _ => [cur] end
  | String c s' =>
      if (Str.code c =? 10)%N then (cur +++ newline) :: readlines_scan EmptyString s'
      else if (Str.code c =? 13)%N then
        match s' with
        | String c' s'' =>
            if (Str.code c' =? 10)%N
            then (cur +++ newline) :: readlines_scan EmptyString s''
            else (cur +++ newline) :: readlines_scan EmptyString s'
        | EmptyString => [cur +++ newline]
        end
      else readlines_scan (cur +++ String c EmptyString) s'
  end.

Definition readlines (content : string) : list string :=
  readlines_scan EmptyString content.

(** The class attribute [KEYS_LINES], from the content of [PARSE_FROM]. *)
Definition KEYS_LINES (content : string) : list string :=
  map (fun l => Str.strip (Str.replace "#" "" l))
    (filter (fun l => Str.startswith l "#" && Str.contains " = " (Str.strip l))
       (readlines content)).

(** The loop of [parse_keys] over the lines still to read. *)
Fixpoint parse_lines (wrapper_alias : string) (keys_lines : list string)
    (keys : Dict.t string) : result (Dict.t string) :=
  match keys_lines with
  | [] => Ok keys
  | keys_line :: rest =>
      match Str.split " = " keys_line with
      | [header; key] =>
          let header := Str.lower header in
          if Str.contains wrapper_alias header
             && negb (String.eqb key KEY_PLACEHOLDER)
             && negb (String.eqb key "")
          then parse_lines wrapper_alias rest
                 (Dict.set (Str.strip_chars "_" (Str.replace wrapper_alias "" header))
                    key keys)
          else parse_lines wrapper_alias rest keys
      | _ => Raise ValueError
      end
  end.

Definition parse_keys (content wrapper_alias : string) : result (Dict.t string) :=
  parse_lines wrapper_alias (KEYS_LINES content) [].

(** The class attribute [PARSE_FROM]; [dev_exists] is
    [os.path.exists('requirements_dev.txt')]. *)
Definition PARSE_FROM (dev_exists : bool) : string :=
  if negb dev_exists then "requirements.txt" else "requirements_dev.txt".

End KeysParser.

(** ** class InputTermsParser *)

Module InputTermsParser.

(** A term as read from an input file. *)
Definition term := Dict.t string.

(** One input file, as the rows [csv.reader] yields for it. *)
Definition csv_file := list (list string).

Definition filter_empty_values (dict_to_filter : term) : term :=
  filter (fun kv => negb (String.eqb (Str.strip (snd kv)) "")) dict_to_filter.

(** [zip(terms_headers, row)] is [combine]. *)
Definition parse_row (terms_headers : list string) (row : list string) : term :=
  filter_empty_values
    (Dict.of_items
       (filter (fun kv => negb (Str.startswith (fst kv) "drop_"))
          (combine terms_headers row))).

Definition parse_file (terms_headers : list string) (csv_data : csv_file)
    : result (list term) :=
  match csv_data with
  | [] => Raise StopIteration
  | _ :: data =>
      Ok (map (parse_row terms_headers)
            (filter (fun row => match row with [] => false | _ => true end) data))
  end.

(** [INPUT_FILES] is given by the content of its files, in its order. *)
Fixpoint parse_terms (INPUT_FILES : list csv_file) (terms_headers : list string)
    : result (list term) :=
  match INPUT_FILES with
  | [] => Ok []
  | csv_data :: files =>
      let? terms := parse_file terms_headers csv_data in
      let? more := parse_terms files terms_headers in
      Ok (terms ++ more)
  end.

(** The class attribute [INPUT_FILES], from the names [os.listdir()]
    gives. *)
Definition INPUT_FILES (listdir : list string) : list string :=
  filter (fun f => Str.endswith f "_input.csv") listdir.

End InputTermsParser.

(** ** class FileTools *)

Module FileTools.

Definition CSV_HEADERS : list string :=
  [ "QUERY"; "TOTAL_API"; "TOTAL_EXTRACTED"; "SOURCE_LINK"; "API_SOURCE"; "ID";
    "NAME"; "IS_CLOSED"; "CATEGORY_1"; "CATEGORY_2"; "CATEGORY_3"; "RATING";
    "REVIEWS_AMOUNT"; "LIKES_AMOUNT"; "CHECKINS"; "PRICE"; "LATITUDE";
    "LONGITUDE"; "ADDRESS"; "PHONE"; "WEBSITE"; "CREATED_AT_DATE";
    "RUN_TIMESTAMP" ].

Definition input_headers : list string :=
  [ "term"; "location"; "latitude"; "longitude"; "radius"; "limit";
    "foursquare_id"; "facebook_id" ].

(** [create_default_input(filename)] *)
Definition create_default_input (filename : string) : M unit :=
  emit (WriteCsv filename [map PStr input_headers]).

(** [row.get(h, default)] *)
Definition get_or (ROW : row) (h : string) (default : pyval) : pyval :=
  match Dict.get h ROW with Some v => v | None => default end.

(** [row.get(h) if row.get(h, '') and str(row.get(h, '')).strip() else '-'] *)
Definition cell (ROW : row) (h : string) : pyval :=
  if Py.truthy (get_or ROW h (PStr ""))
     && Py.truthy (PStr (Str.strip (Py.str (get_or ROW h (PStr "")))))
  then get_or ROW h PNone
  else PStr "-".

(** The arguments of the successive [OUT.writerow] calls. *)
Definition written_rows (DATA_rows : list row) : list (list pyval) :=
  map PStr CSV_HEADERS
  :: map (fun ROW => map (cell ROW) CSV_HEADERS) DATA_rows.

Definition csv_out : M unit :=
  stamp <- utcnow utc_name ;;
  DATA_rows <- DATA_rows ;;
  emit (WriteCsv ("output_" +++ stamp +++ ".csv") (written_rows DATA_rows)).

End FileTools.

(** ** What the three wrappers share *)

(** A term read from the input, as the mapping a wrapper works on. *)
Definition as_params (t : InputTermsParser.term) : Dict.t pyval :=
  map (fun kv => (fst kv, PStr (snd kv))) t.

(** [term.get(i)] taken as a condition *)
Definition present (term : Dict.t pyval) (i : string) : bool :=
  match Dict.get i term with
  | Some v => Py.truthy v
  | None => false
  end.

(** [any(True for i in fields if term.get(i))] *)
Definition any_present (fields : list string) (term : Dict.t pyval) : bool :=
  existsb (present term) fields.

(** [self._response, self._response_json = self.GET(...)] *)
Definition receive (r : response) : M unit :=
  fun w => (Returns tt, assign_response (Some r) w).

(** A new object has no attribute [_response]. *)
Definition unset_response : M unit :=
  fun w => (Returns tt, assign_response None w).

(** [self._response] and [self._response_json]: reading an attribute never
    assigned raises [AttributeError]. *)
Definition self_response : M response :=
  fun w =>
    match _response w with
    | Some r => (Returns r, w)
    | None => (Raises AttributeError, w)
    end.

Definition self_response_json : M pyval :=
  r <- self_response ;; ret (json r).

(** The loop [for category in categories] that fills [CATEGORY_1],
    [CATEGORY_2], ... from the entry [field] of each category. *)
Fixpoint number_categories (field : string) (categories : list pyval)
    (category_num : Z) (ROW : row) : result row :=
  match categories with
  | [] => Ok ROW
  | category :: rest =>
      let category_num := category_num + 1 in
      let category_header := "CATEGORY_" +++ Str.of_Z category_num in
      let? v := Py.get category field (PStr "-") in
      number_categories field rest category_num (Dict.set category_header v ROW)
  end.

(** [if categories: category_num = 0; for category in categories: ...] *)
Definition expand_categories (field : string) (categories : pyval) (ROW : row)
    : result row :=
  if Py.truthy categories then
    let? l := Py.iter categories in
    number_categories field l 0 ROW
  else Ok ROW.

(** [len(v.get(k)) if '$' in v.get(k, '-') else '-'] *)
Definition dollars (v : pyval) (k : string) : result pyval :=
  let? p := Py.get v k (PStr "-") in
  let? has := Py.contains "$" p in
  if has then
    let? p' := Py.get v k PNone in
    let? n := Py.len p' in
    Ok (PInt n)
  else Ok (PStr "-").

(** [v.get(k1, {}).get(k2, default)] *)
Definition get2 (v : pyval) (k1 k2 : string) (default : pyval) : result pyval :=
  let? inner := Py.get v k1 (PDict []) in
  Py.get inner k2 default.

(** The queue of detail terms, a [collections.defaultdict(list)] keyed by
    search string. *)
Definition queue := Dict.t (list (Dict.t pyval)).

(** [queue[k].append(t)] and [queue[k].extend(ts)]: a key not yet there
    enters with the empty list. *)
Definition enqueue (k : string) (ts : list (Dict.t pyval)) (q : queue) : queue :=
  Dict.set k (match Dict.get k q with Some l => l | None => [] end ++ ts) q.

(** [if term.get('latitude') and term.get('longitude'):
       term[key] = '{},{}'.format(term.pop('latitude'), term.pop('longitude'))] *)
Definition merge_coordinates (key : string) (term : Dict.t pyval) : Dict.t pyval :=
  if present term "latitude" && present term "longitude" then
    let latitude := FileTools.get_or term "latitude" PNone in
    let term := Dict.remove "latitude" term in
    let longitude := FileTools.get_or term "longitude" PNone in
    let term := Dict.remove "longitude" term in
    Dict.set key (PStr (Py.str latitude +++ "," +++ Py.str longitude)) term
  else term.

(** ['|'.join([v for k, v in term.items() if k not in hidden])] *)
Definition shown_term (hidden : list string) (term : Dict.t pyval) : result string :=
  match Py.all_str
          (Dict.values
             (filter (fun kv => negb (existsb (String.eqb (fst kv)) hidden)) term))
  with
  | Some ss => Ok (Str.join "|" ss)
  | None => Raise TypeError
  end.

(** [[{key: x['id']} for x in found if x.get('id')]] *)
Fixpoint detail_terms (key : string) (found : list pyval) : result (list (Dict.t pyval)) :=
  match found with
  | [] => Ok []
  | x :: rest =>
      let? id := Py.get x "id" PNone in
      if Py.truthy id then
        let? id := Py.getitem x "id" in
        let? more := detail_terms key rest in
        Ok ([(key, id)] :: more)
      else detail_terms key rest
  end.

(** [term.pop(key)], with the mapping left behind *)
Definition pop (key : string) (term : Dict.t pyval) : result (pyval * Dict.t pyval) :=
  match Dict.get key term with
  | Some v => Ok (v, Dict.remove key term)
  | None => Raise (KeyError key)
  end.

(** ** class Yelp__ApiWrapper *)

Module Yelp.

Definition API_ALIAS : string := "yelp".
Definition class_name : string := "Yelp__ApiWrapper".
Definition TERMS_HEADERS : list string :=
  ["term"; "location"; "latitude"; "longitude"; "radius"; "limit"].
Definition BUSINESS_SEARCH_url : string :=
  "https://api.yelp.com/v3/businesses/search".
Definition STATS_HEADERS : list string :=
  ["RateLimit-DailyLimit"; "RateLimit-Remaining"; "RateLimit-ResetTime"].

Definition yelp_api_results_max_limit : Z := 1000.
Definition limit_max_per_offset : Z := 50.

Record self := {
  _errors_limit : Z;
  _timeout : Z;
  keys : Dict.t string;
  _terms : list InputTermsParser.term;
  _headers : Dict.t string
}.

Definition engine (s : self) : RequestEngine.self :=
  {| RequestEngine.class_name := class_name;
     RequestEngine._errors_limit := _errors_limit s |}.

Definition __init__ (keys_file : string) (INPUT_FILES : list InputTermsParser.csv_file)
    (timeout errors_limit : Z) : result self :=
  let? keys := KeysParser.parse_keys keys_file API_ALIAS in
  let? terms := InputTermsParser.parse_terms INPUT_FILES TERMS_HEADERS in
  Ok {| _errors_limit := errors_limit;
        _timeout := timeout;
        keys := keys;
        _terms := terms;
        _headers :=
          [("Authorization",
            "Bearer " +++ match Dict.get "apikey" keys with
                          | Some k => k
                          | None => ""
                          end)] |}.

Definition business_search_endpoint (s : self) (query : Dict.t pyval) : M unit :=
  r <- RequestEngine.GET (engine s)
         {| via := BUSINESS_SEARCH;
            url := BUSINESS_SEARCH_url;
            params := query;
            req_headers := Some (_headers s);
            timeout := Some (_timeout s) |} ;;
  receive r.

(** The body of [for business in businesses], up to the time stamp. *)
Definition flatten (business : pyval) (total : pyval) (extracted : Z)
    (search_term_str : string) : result row :=
  let ROW := [] in
  let ROW := Dict.set "API_SOURCE" (PStr API_ALIAS) ROW in
  let? v := Py.get business "url" (PStr "-") in
  let ROW := Dict.set "SOURCE_LINK" v ROW in
  let ROW := Dict.set "QUERY" (PStr search_term_str) ROW in
  let ROW := Dict.set "TOTAL_API" total ROW in
  let ROW := Dict.set "TOTAL_EXTRACTED" (PInt extracted) ROW in
  let? v := Py.get business "id" (PStr "-") in
  let ROW := Dict.set "ID" v ROW in
  let? v := Py.get business "name" (PStr "-") in
  let ROW := Dict.set "NAME" v ROW in
  let? v := Py.get business "is_closed" (PStr "-") in
  let ROW := Dict.set "IS_CLOSED" (PStr (Py.str v)) ROW in
  let? categories := Py.get business "categories" PNone in
  let? ROW := expand_categories "alias" categories ROW in
  let? v := Py.get business "review_count" (PStr "-") in
  let ROW := Dict.set "REVIEWS_AMOUNT" v ROW in
  let? v := Py.get business "rating" (PStr "-") in
  let ROW := Dict.set "RATING" v ROW in
  let? v := dollars business "price" in
  let ROW := Dict.set "PRICE" v ROW in
  let? v := get2 business "coordinates" "latitude" (PStr "-") in
  let ROW := Dict.set "LATITUDE" v ROW in
  let? v := get2 business "coordinates" "longitude" (PStr "-") in
  let ROW := Dict.set "LONGITUDE" v ROW in
  let? v := get2 business "location" "display_address" (PStr "-") in
  let? v := Py.join ", " v in
  let ROW := Dict.set "ADDRESS" (PStr v) ROW in
  let? v := Py.get business "phone" (PStr "-") in
  let? v := Py.replace "+" "" v in
  let ROW := Dict.set "PHONE" v ROW in
  Ok ROW.

Definition parse_business_search_json_response (businesses : list pyval)
    (search_term_str : string) : M unit :=
  let extracted := Z.of_nat (List.length businesses) in
  response_json <- self_response_json ;;
  total <- eval (Py.get response_json "total" (PStr "-")) ;;
  (if Py.aligns total then emit (Print (ExtractedLine extracted (Some total)))
   else raise TypeError) ;;
  for_each businesses (fun business =>
    response_json <- self_response_json ;;
    total <- eval (Py.get response_json "total" (PStr "-")) ;;
    ROW <- eval (flatten business total extracted search_term_str) ;;
    stamp <- utcnow utc_stamp ;;
    append (Dict.set "RUN_TIMESTAMP" (PStr stamp) ROW)).

(** [str(v) for v in term.values() if str(v).strip()], joined with a bar *)
Definition search_term_str (term : Dict.t pyval) : string :=
  Str.join "|"
    (filter (fun s => Py.truthy (PStr (Str.strip s)))
       (map Py.str (Dict.values term))).

(** [int(term.get('limit')) if term.get('limit') else None] *)
Definition term_limit_user (term : Dict.t pyval) : result (option Z) :=
  if present term "limit" then
    let? z := Py.int (FileTools.get_or term "limit" PNone) in Ok (Some z)
  else Ok None.

(** What is left of the offsets the API serves; the [while] loop of [run]
    stops at the latest when nothing is. *)
Definition headroom (offset : Z) : nat :=
  Z.to_nat (yelp_api_results_max_limit - offset).
Arguments headroom : simpl never.

(** The [while] loop of [run]; it yields the list [businesses]. *)
Equations? paginate (s : self) (limit : Z) (term : Dict.t pyval) (offset : Z)
    (businesses : list pyval) (w : world) : outcome (list pyval) * world
    by wf (headroom offset) lt :=
  paginate s limit term offset businesses w
    with Z_lt_dec offset limit, Z_lt_dec offset yelp_api_results_max_limit => {
    | left _, left _ =>
        (let term := Dict.set "offset" (PInt offset) term in
         business_search_endpoint s term ;;
         emit Sleep ;;
         response_json <- self_response_json ;;
         page <- eval (Py.get response_json "businesses" (PList [])) ;;
         (if offset mod 100 =? 0 then emit (Print (OffsetLine offset)) else ret tt) ;;
         if Py.truthy page then
           more <- eval (Py.iter page) ;;
           (fun w' => paginate s limit term (offset + 50) (businesses ++ more) w')
         else ret businesses) w
    | _, _ => (Returns businesses, w) }.
Proof. unfold headroom, yelp_api_results_max_limit in *. lia. Qed.

(** The body of [for term in self._terms] *)
Definition run_term (s : self) (term : Dict.t pyval) : M unit :=
  if negb (any_present ["location"; "latitude"; "longitude"] term) then ret tt
  else
    let search_term_str := search_term_str term in
    emit (Print (TermLine search_term_str)) ;;
    limit <- eval (term_limit_user term) ;;
    let single :=
      business_search_endpoint s term ;;
      response_json <- self_response_json ;;
      found <- eval (Py.getitem response_json "businesses") ;;
      eval (Py.iter found) in
    businesses <-
      (match limit with
       | Some l =>
           if negb (l =? 0) && (l >? limit_max_per_offset)
           then paginate s l (Dict.set "limit" (PInt limit_max_per_offset) term) 0 []
           else single
       | None => single
       end) ;;
    parse_business_search_json_response businesses search_term_str.

Definition run (s : self) : M unit :=
  for_each (map as_params (_terms s)) (run_term s).

End Yelp.

(** ** class Foursquare__ApiWrapper *)

Module Foursquare.

Definition API_ALIAS : string := "foursquare".
Definition class_name : string := "Foursquare__ApiWrapper".
Definition TERMS_HEADERS : list string :=
  ["query"; "near"; "latitude"; "longitude"; "radius"; "limit"; "foursquare_id"].
Definition VENUE_SEARCH_url : string :=
  "https://api.foursquare.com/v2/venues/search".
Definition VENUE_DETAILS_url (id : string) : string :=
  "https://api.foursquare.com/v2/venues/" +++ id.
Definition STATS_HEADERS : list string :=
  ["X-RateLimit-Limit"; "X-RateLimit-Remaining"; "Date"].

Record self := {
  _errors_limit : Z;
  keys : Dict.t string;
  _client_id : string;
  _client_secret : string;
  _terms : list InputTermsParser.term;
  _term_current_date : string
}.

Definition engine (s : self) : RequestEngine.self :=
  {| RequestEngine.class_name := class_name;
     RequestEngine._errors_limit := _errors_limit s |}.

Definition __init__ (keys_file : string) (INPUT_FILES : list InputTermsParser.csv_file)
    (errors_limit : Z) (c : clock) : result self :=
  let? keys := KeysParser.parse_keys keys_file API_ALIAS in
  let? terms := InputTermsParser.parse_terms INPUT_FILES TERMS_HEADERS in
  Ok {| _errors_limit := errors_limit;
        keys := keys;
        _client_id := match Dict.get "client_id" keys with Some k => k | None => "" end;
        _client_secret :=
          match Dict.get "client_secret" keys with Some k => k | None => "" end;
        _terms := terms;
        _term_current_date := today c |}.

Definition _update_term_credentials (s : self) (term : Dict.t pyval) : Dict.t pyval :=
  let term := Dict.set "client_id" (PStr (_client_id s)) term in
  let term := Dict.set "client_secret" (PStr (_client_secret s)) term in
  Dict.set "v" (PStr (_term_current_date s)) term.

Definition venue_details_endpoint (s : self) (term : Dict.t pyval) : M unit :=
  popped <- eval (pop "foursquare_id" term) ;;
  r <- RequestEngine.GET (engine s)
         {| via := VENUE_DETAILS;
            url := VENUE_DETAILS_url (Py.str (fst popped));
            params := snd popped;
            req_headers := None;
            timeout := None |} ;;
  receive r.

Definition venue_search_endpoint (s : self) (term : Dict.t pyval) : M unit :=
  r <- RequestEngine.GET (engine s)
         {| via := VENUE_SEARCH;
            url := VENUE_SEARCH_url;
            params := term;
            req_headers := None;
            timeout := None |} ;;
  receive r.

Definition parse_venues_search_json_response : M (list (Dict.t pyval)) :=
  response_json <- self_response_json ;;
  venues <- eval (get2 response_json "response" "venues" (PDict [])) ;;
  venues <- eval (Py.iter venues) ;;
  eval (detail_terms "foursquare_id" venues).

(** [datetime.fromtimestamp(t).strftime('%d-%m-%Y') if isinstance(t, int)
    else '-'] *)
Definition converted_epoch (c : clock) (created_at : pyval) : result pyval :=
  if Py.is_int created_at then
    let? t := Py.int created_at in
    let? date := local_date c t in
    Ok (PStr date)
  else Ok (PStr "-").

(** The row of [parse_venue_details_json_response], up to the time
    stamp. *)
Definition flatten (c : clock) (response_json : pyval) (search_term_str : string)
    : result row :=
  let? response := Py.getitem response_json "response" in
  let? venue := Py.getitem response "venue" in
  let ROW := [] in
  let ROW := Dict.set "QUERY" (PStr search_term_str) ROW in
  let? v := Py.get venue "canonicalUrl" (PStr "-") in
  let ROW := Dict.set "SOURCE_LINK" v ROW in
  let ROW := Dict.set "API_SOURCE" (PStr API_ALIAS) ROW in
  let? v := Py.get venue "id" (PStr "-") in
  let ROW := Dict.set "ID" v ROW in
  let? v := Py.get venue "name" (PStr "-") in
  let ROW := Dict.set "NAME" v ROW in
  let? v := get2 venue "contact" "phone" (PStr "-") in
  let ROW := Dict.set "PHONE" v ROW in
  let? v := get2 venue "location" "formattedAddress" (PStr "-") in
  let? v := Py.join ", " v in
  let ROW := Dict.set "ADDRESS" (PStr v) ROW in
  let? v := get2 venue "location" "lat" (PStr "-") in
  let ROW := Dict.set "LATITUDE" v ROW in
  let? v := get2 venue "location" "lng" (PStr "-") in
  let ROW := Dict.set "LONGITUDE" v ROW in
  let? categories := Py.get venue "categories" PNone in
  let? ROW := expand_categories "name" categories ROW in
  let? v := get2 venue "stats" "checkinsCount" (PStr "-") in
  let ROW := Dict.set "CHECKINS" v ROW in
  let? v := Py.get venue "url" (PStr "-") in
  let ROW := Dict.set "WEBSITE" v ROW in
  let? v := get2 venue "price" "tier" (PDict []) in
  let ROW := Dict.set "PRICE" v ROW in
  let? v := Py.get venue "rating" (PStr "-") in
  let ROW := Dict.set "RATING" v ROW in
  let? v := Py.get venue "ratingSignals" (PStr "-") in
  let ROW := Dict.set "REVIEWS_AMOUNT" v ROW in
  let? created_at := Py.get venue "createdAt" (PStr "-") in
  let ROW := Dict.set "CREATED_AT" created_at ROW in
  let? v := get2 venue "likes" "count" (PStr "-") in
  let ROW := Dict.set "LIKES_AMOUNT" v ROW in
  let? v := converted_epoch c created_at in
  let ROW := Dict.set "CREATED_AT_DATE" v ROW in
  Ok ROW.

Definition parse_venue_details_json_response (search_term_str : string) : M unit :=
  response_json <- self_response_json ;;
  c <- the_clock ;;
  ROW <- eval (flatten c response_json search_term_str) ;;
  stamp <- utcnow utc_stamp ;;
  append (Dict.set "RUN_TIMESTAMP" (PStr stamp) ROW).

(** The body of the first loop of [run]: one term of the input, and the
    queue of detail terms as a local variable. *)
Definition search_term (s : self) (term : Dict.t pyval) (venues_details_terms : queue)
    : M queue :=
  if negb (any_present ["q"; "near"; "latitude"; "longitude"; "foursquare_id"] term)
  then ret venues_details_terms
  else
    emit Sleep ;;
    search_term_str <- eval (shown_term ["client_id"; "client_secret"] term) ;;
    emit (Print (TermLine search_term_str)) ;;
    let term := _update_term_credentials s term in
    let term := merge_coordinates "ll" term in
    if present term "foursquare_id" then
      let id := FileTools.get_or term "foursquare_id" PNone in
      emit (Print QueuedLine) ;;
      ret (enqueue search_term_str [[("foursquare_id", id)]] venues_details_terms)
    else
      venue_search_endpoint s term ;;
      ids <- parse_venues_search_json_response ;;
      emit (Print (ExtractedLine (Z.of_nat (List.length ids)) None)) ;;
      ret (enqueue search_term_str ids venues_details_terms).

(** The body of the second loop of [run]: one detail term. *)
Definition detail_term (s : self) (search_term_str : string) (term : Dict.t pyval)
    : M unit :=
  let term := _update_term_credentials s term in
  venue_details_endpoint s term ;;
  parse_venue_details_json_response search_term_str.

Definition details (s : self) (venues_details_terms : queue) : M unit :=
  for_each venues_details_terms (fun entry =>
    for_each (snd entry) (detail_term s (fst entry))).

Definition searches (s : self) : M queue :=
  for_fold (map as_params (_terms s)) (search_term s) [].

Definition run (s : self) : M unit :=
  venues_details_terms <- searches s ;;
  details s venues_details_terms.

End Foursquare.

(** ** class Facebook__ApiWrapper *)

Module Facebook.

Definition API_ALIAS : string := "facebook".
Definition class_name : string := "Facebook__ApiWrapper".
Definition TERMS_HEADERS : list string :=
  ["q"; "drop_1"; "latitude"; "longitude"; "radius"; "limit"; "drop_3"; "facebook_id"].
Definition PLACES_SEARCH_url : string := "https://graph.facebook.com/v3.2/search".
Definition PLACE_INFORMATION_url (id : string) : string :=
  "https://graph.facebook.com/v3.3/" +++ id.
Definition ID_FIELDS : list string :=
  [ "about"; "website"; "category_list"; "checkins"; "cover"; "engagement";
    "hours"; "id"; "is_always_open"; "app_links"; "is_permanently_closed";
    "is_verified"; "description"; "link"; "location"; "name";
    "overall_star_rating"; "parking"; "payment_options"; "phone"; "price_range";
    "rating_count"; "restaurant_services"; "restaurant_specialties";
    "single_line_address" ].
Definition STATS_HEADERS : list string := ["x-app-usage"].

Record self := {
  _errors_limit : Z;
  keys : Dict.t string;
  _access_token : string;
  _terms : list InputTermsParser.term
}.

Definition engine (s : self) : RequestEngine.self :=
  {| RequestEngine.class_name := class_name;
     RequestEngine._errors_limit := _errors_limit s |}.

Definition __init__ (keys_file : string) (INPUT_FILES : list InputTermsParser.csv_file)
    (errors_limit : Z) : result self :=
  let? keys := KeysParser.parse_keys keys_file API_ALIAS in
  let? terms := InputTermsParser.parse_terms INPUT_FILES TERMS_HEADERS in
  Ok {| _errors_limit := errors_limit;
        keys := keys;
        _access_token :=
          match Dict.get "access_token" keys with Some k => k | None => "" end;
        _terms := terms |}.

Definition _update_term_credentials (s : self) (term : Dict.t pyval) : Dict.t pyval :=
  Dict.set "access_token" (PStr (_access_token s)) term.

Definition places_search_endpoint (s : self) (term : Dict.t pyval) : M unit :=
  r <- RequestEngine.GET (engine s)
         {| via := PLACES_SEARCH;
            url := PLACES_SEARCH_url;
            params := term;
            req_headers := None;
            timeout := None |} ;;
  receive r.

Definition places_info_endpoint (s : self) (term : Dict.t pyval) : M unit :=
  popped <- eval (pop "facebook_id" term) ;;
  r <- RequestEngine.GET (engine s)
         {| via := PLACE_INFORMATION;
            url := PLACE_INFORMATION_url (Py.str (fst popped));
            params := snd popped;
            req_headers := None;
            timeout := None |} ;;
  receive r.

Definition parse_places_details_json_response : M (list (Dict.t pyval)) :=
  response_json <- self_response_json ;;
  places <- eval (Py.get response_json "data" (PList [])) ;;
  places <- eval (Py.iter places) ;;
  eval (detail_terms "facebook_id" places).

(** The row of [parse_places_info_json_response], up to the time stamp. *)
Definition flatten (place : pyval) (search_term_str : string) : result row :=
  let ROW := [] in
  let ROW := Dict.set "QUERY" (PStr search_term_str) ROW in
  let ROW := Dict.set "API_SOURCE" (PStr API_ALIAS) ROW in
  let? v := Py.get place "link" (PStr "-") in
  let ROW := Dict.set "SOURCE_LINK" v ROW in
  let? v := Py.get place "id" (PStr "-") in
  let ROW := Dict.set "ID" (PStr ("'" +++ Py.str v)) ROW in
  let? v := Py.get place "name" (PStr "-") in
  let ROW := Dict.set "NAME" v ROW in
  let? v := Py.get place "phone" (PStr "-") in
  let ROW := Dict.set "PHONE" v ROW in
  let? v := Py.get place "single_line_address" (PStr "-") in
  let ROW := Dict.set "ADDRESS" v ROW in
  let? v := get2 place "location" "latitude" (PStr "-") in
  let ROW := Dict.set "LATITUDE" v ROW in
  let? v := get2 place "location" "longitude" (PStr "-") in
  let ROW := Dict.set "LONGITUDE" v ROW in
  let? categories := Py.get place "category_list" PNone in
  let? ROW := expand_categories "name" categories ROW in
  let? v := Py.get place "website" (PStr "-") in
  let ROW := Dict.set "WEBSITE" v ROW in
  let? v := dollars place "price_range" in
  let ROW := Dict.set "PRICE" v ROW in
  let? v := Py.get place "rating_count" (PStr "-") in
  let ROW := Dict.set "REVIEWS_AMOUNT" (PStr (Str.replace "." "," (Py.str v))) ROW in
  let? v := Py.get place "overall_star_rating" (PStr "-") in
  let ROW := Dict.set "RATING" v ROW in
  let? v := Py.get place "is_permanently_closed" (PStr "-") in
  let ROW := Dict.set "IS_CLOSED" (PStr (Py.str v)) ROW in
  let? v := get2 place "engagement" "count" (PStr "-") in
  let ROW := Dict.set "LIKES_AMOUNT" v ROW in
  let? v := Py.get place "checkins" (PStr "-") in
  let ROW := Dict.set "CHECKINS" v ROW in
  Ok ROW.

Definition parse_places_info_json_response (search_term_str : string) : M unit :=
  place <- self_response_json ;;
  ROW <- eval (flatten place search_term_str) ;;
  stamp <- utcnow utc_stamp ;;
  append (Dict.set "RUN_TIMESTAMP" (PStr stamp) ROW).

(** The body of the first loop of [run]. *)
Definition search_term (s : self) (term : Dict.t pyval) (places_details_terms : queue)
    : M queue :=
  if negb (any_present ["q"; "latitude"; "longitude"; "facebook_id"] term)
  then ret places_details_terms
  else
    emit Sleep ;;
    search_term_str <- eval (shown_term ["access_token"] term) ;;
    emit (Print (TermLine search_term_str)) ;;
    let term := _update_term_credentials s term in
    let term := Dict.set "type" (PStr "place") term in
    if present term "facebook_id" then
      let id := FileTools.get_or term "facebook_id" PNone in
      emit (Print QueuedLine) ;;
      ret (enqueue search_term_str [[("facebook_id", id)]] places_details_terms)
    else
      let term :=
        if negb (present term "limit") then Dict.set "limit" (PInt 100) term
        else term in
      let term := merge_coordinates "center" term in
      places_search_endpoint s term ;;
      ids <- parse_places_details_json_response ;;
      emit (Print (ExtractedLine (Z.of_nat (List.length ids)) None)) ;;
      ret (enqueue search_term_str ids places_details_terms).

(** The body of the second loop of [run]. *)
Definition detail_term (s : self) (search_term_str : string) (term : Dict.t pyval)
    : M unit :=
  let term := Dict.set "fields" (PStr (Str.join "," ID_FIELDS)) term in
  let term := _update_term_credentials s term in
  places_info_endpoint s term ;;
  parse_places_info_json_response search_term_str.

Definition details (s : self) (places_details_terms : queue) : M unit :=
  for_each places_details_terms (fun entry =>
    for_each (snd entry) (detail_term s (fst entry))).

Definition searches (s : self) : M queue :=
  for_fold (map as_params (_terms s)) (search_term s) [].

Definition run (s : self) : M unit :=
  places_details_terms <- searches s ;;
  details s places_details_terms.

End Facebook.

(** ** class ApiStats and [main] *)

(** The files the classes read when the module is loaded: the content of
    [KeysParser.PARSE_FROM] and of the files of
    [InputTermsParser.INPUT_FILES]. *)
Record files := {
  keys_file : string;
  INPUT_FILES : list InputTermsParser.csv_file
}.

Inductive wrapper_class :=
| Yelp__ApiWrapper
| Foursquare__ApiWrapper
| Facebook__ApiWrapper.

(** An instance of one of the three classes. *)
Inductive wrapper :=
| Yelp_object (s : Yelp.self)
| Foursquare_object (s : Foursquare.self)
| Facebook_object (s : Facebook.self).

Module Runner.

Definition __name__ (wrapper_class : wrapper_class) : string :=
  match wrapper_class with
  | Yelp__ApiWrapper => Yelp.class_name
  | Foursquare__ApiWrapper => Foursquare.class_name
  | Facebook__ApiWrapper => Facebook.class_name
  end.

Definition class_of (wrapper : wrapper) : wrapper_class :=
  match wrapper with
  | Yelp_object _ => Yelp__ApiWrapper
  | Foursquare_object _ => Foursquare__ApiWrapper
  | Facebook_object _ => Facebook__ApiWrapper
  end.

(** [wrapper_class()], with the defaults of each [__init__] *)
Definition construct (f : files) (c : clock) (wrapper_class : wrapper_class)
    : result wrapper :=
  match wrapper_class with
  | Yelp__ApiWrapper =>
      let? s := Yelp.__init__ (keys_file f) (INPUT_FILES f) 3 3 in
      Ok (Yelp_object s)
  | Foursquare__ApiWrapper =>
      let? s := Foursquare.__init__ (keys_file f) (INPUT_FILES f) 3 c in
      Ok (Foursquare_object s)
  | Facebook__ApiWrapper =>
      let? s := Facebook.__init__ (keys_file f) (INPUT_FILES f) 3 in
      Ok (Facebook_object s)
  end.

(** The new object has no [_response] attribute yet. *)
Definition instantiate (f : files) (wrapper_class : wrapper_class) : M wrapper :=
  c <- the_clock ;;
  wrapper <- eval (construct f c wrapper_class) ;;
  unset_response ;;
  ret wrapper.

Definition keys (wrapper : wrapper) : Dict.t string :=
  match wrapper with
  | Yelp_object s => Yelp.keys s
  | Foursquare_object s => Foursquare.keys s
  | Facebook_object s => Facebook.keys s
  end.

Definition STATS_HEADERS (wrapper : wrapper) : list string :=
  match wrapper with
  | Yelp_object _ => Yelp.STATS_HEADERS
  | Foursquare_object _ => Foursquare.STATS_HEADERS
  | Facebook_object _ => Facebook.STATS_HEADERS
  end.

Definition run (wrapper : wrapper) : M unit :=
  match wrapper with
  | Yelp_object s => Yelp.run s
  | Foursquare_object s => Foursquare.run s
  | Facebook_object s => Facebook.run s
  end.

(** [wrapper.__class__.__name__.upper()]: the names of the classes are
    plain letters and underscores, all of which have their capital. *)
Definition __NAME__ (wrapper_class : wrapper_class) : string :=
  match Str.upper (__name__ wrapper_class) with
  | Some name => name
  | None => __name__ wrapper_class
  end.

(** [ApiStats.print_api_stats_from_headers] *)
Definition print_api_stats_from_headers (wrapper : wrapper) : M unit :=
  emit (Print StatsHeading) ;;
  r <- self_response ;;
  emit (Print (StatsLine
                 (filter (fun kv => existsb (String.eqb (fst kv)) (STATS_HEADERS wrapper))
                    (headers r)))).

(** The suite of the [try] statement of [main] *)
Definition suite (wrapper : wrapper) : M unit :=
  (match keys wrapper with
   | [] => raise (KeysParserError "Keys not set")
   | _ => ret tt
   end) ;;
  run wrapper ;;
  print_api_stats_from_headers wrapper ;;
  r <- self_response ;;
  if negb (status_code r =? 200)
  then emit (Print (ResponseLine (__NAME__ (class_of wrapper)) (text r)))
  else ret tt.

(** The [try] statement with its two handlers *)
Definition guarded (wrapper : wrapper) : M unit :=
  fun w =>
    match suite wrapper w with
    | (Raises (KeysParserError msg), w') =>
        emit (Print (KeysErrorLine (KeysParserError msg))) w'
    | (Raises e, w') =>
        emit (Print (FailedLine (__name__ (class_of wrapper)) e)) w'
    | done => done
    end.

(** The body of [for wrapper_class in wrapper_classes] *)
Definition run_class (f : files) (wrapper_class : wrapper_class) : M unit :=
  wrapper <- instantiate f wrapper_class ;;
  emit (Print (RunningLine (__name__ wrapper_class))) ;;
  guarded wrapper.

Definition default_input_filename : string := "_input.csv".

(** [exists_] is [os.path.exists(default_input_filename)]. *)
Definition main (f : files) (exists_ : bool) (wrapper_classes : list wrapper_class)
    : M unit :=
  (if negb exists_ then FileTools.create_default_input default_input_filename
   else ret tt) ;;
  for_each wrapper_classes (run_class f) ;;
  FileTools.csv_out.

(** The call under [if __name__ == '__main__'] *)
Definition __main__ (f : files) (exists_ : bool) : M unit :=
  main f exists_ [Yelp__ApiWrapper; Foursquare__ApiWrapper; Facebook__ApiWrapper].

End Runner.

(** * Properties *)

(** ** Notions used by the statements *)

(** What a statement may do to the world: the requests it sends satisfy [P]
    and each takes one attempt of the script, the rows it appends satisfy
    [Q], the rows and the trace only grow, the clock is left alone, and it
    is stuck only with the script used up. *)
Definition effects (P : request -> Prop) (Q : row -> Prop) {A} (m : M A) : Prop :=
  forall w,
    (exists es, trace (snd (m w)) = trace w ++ es
                /\ Forall P (sent es)
                /\ script (snd (m w)) = skipn (List.length (sent es)) (script w))
    /\ (exists rs, rows (snd (m w)) = rows w ++ rs /\ Forall Q rs)
    /\ (fst (m w) = Stuck -> script (snd (m w)) = [])
    /\ time (snd (m w)) = time w.

Definition any_request (r : request) : Prop := True.
Definition no_request (r : request) : Prop := False.
Definition any_row (r : row) : Prop := True.
Definition no_row (r : row) : Prop := False.

(** The request of the Yelp search page at [offset], for the term [term]
    with its limit capped. *)
Definition page_request (s : Yelp.self) (term : Dict.t pyval) (offset : Z) : request :=
  {| via := BUSINESS_SEARCH;
     url := Yelp.BUSINESS_SEARCH_url;
     params := Dict.set "offset" (PInt offset)
                 (Dict.set "limit" (PInt Yelp.limit_max_per_offset) term);
     req_headers := Some (Yelp._headers s);
     timeout := Some (Yelp._timeout s) |}.

(** The request of a Yelp search that is not paginated. *)
Definition single_request (s : Yelp.self) (term : Dict.t pyval) : request :=
  {| via := BUSINESS_SEARCH;
     url := Yelp.BUSINESS_SEARCH_url;
     params := term;
     req_headers := Some (Yelp._headers s);
     timeout := Some (Yelp._timeout s) |}.

(** The answer [r] is a JSON object whose entry [businesses] is the list
    [businesses]. *)
Definition serves (r : response) (businesses : list pyval) : Prop :=
  exists d, json r = PDict d /\ Dict.get "businesses" d = Some (PList businesses).

(** An attempt that raises an exception of class [fst f] printing as
    [snd f]. *)
Definition failed (f : string * string) : attempt := Fails (fst f) (snd f).

(** The attempts one call of [GET] takes when the failures [fs] come before
    the answer [r]. *)
Definition eventually (fs : list (string * string)) (r : response) : list attempt :=
  map failed fs ++ [Answers r].

(** [GET] tries again after each of the failures [fs]: its counter does not
    reach the limit, which is above their number, or is not positive and
    then is never reached. *)
Definition tolerated (errors_limit : Z) (fs : list (string * string)) : Prop :=
  errors_limit <= 0 \/ Z.of_nat (List.length fs) < errors_limit.

(** What the attempts that failed leave in the trace. *)
Definition retries (s : RequestEngine.self) (req : request)
    (fs : list (string * string)) : list event :=
  flat_map (fun f => [Sleep; Request req;
                      Print (ErrorLine (RequestEngine.error_msg s (fst f) (snd f)))])
    fs.

(** The requests of one call of [GET] whose answer comes after the failures
    [fs]: the same request, once more for each failure. *)
Definition resent (req : request) (fs : list (string * string)) : list request :=
  repeat req (S (List.length fs)).

(** A string that strips to nothing *)
Definition blank (s : string) : bool := String.eqb (Str.strip s) "".

(** The values the report shows as they are: those that count as true and
    do not print as a blank string. *)
Definition kept (v : pyval) : bool :=
  match v with
  | PNone => false
  | PBool b => b
  | PInt z => negb (z =? 0)
  | PFloat f => float_nonzero f && negb (blank (float_repr f))
  | PStr s => negb (blank s)
  | PList l => match l with [] => false | _ => true end
  | PDict d => match d with [] => false | _ => true end
  end.

(** The cell the report shows for the column [h] of [ROW]. *)
Definition shown (ROW : row) (h : string) : pyval :=
  match Dict.get h ROW with
  | Some v => if kept v then v else PStr "-"
  | None => PStr "-"
  end.

(** The credential [k = v] of the alias, as the line [line] of the file
    gives it. *)
Definition credential_of (wrapper_alias line k v : string) : Prop :=
  Str.startswith line "#" = true
  /\ Str.contains " = " line = true
  /\ exists header,
       Str.split " = " (Str.strip (Str.replace "#" "" line)) = [header; v]
       /\ Str.contains wrapper_alias (Str.lower header) = true
       /\ k = Str.strip_chars "_" (Str.replace wrapper_alias "" (Str.lower header)).

(** The request goes to the endpoint [e]. *)
Definition to_search (e : endpoint) (r : request) : Prop := via r = e.

Definition to_yelp : request -> Prop := to_search BUSINESS_SEARCH.

(** The row names [k] as its search. *)
Definition carries (k : string) (ROW : row) : Prop :=
  Dict.get "QUERY" ROW = Some (PStr k).

(** The search string [k] is the one of an input term that is not skipped. *)
Definition search_string_of (terms : list InputTermsParser.term)
    (locators hidden : list string) (k : string) : Prop :=
  exists t, In t terms
            /\ any_present locators (as_params t) = true
            /\ shown_term hidden (as_params t) = Ok k.

(** What a run in two phases leaves behind: the requests [searches] of the
    first phase, then the requests [details] of the second, and the rows
    [new_rows]; a request or a row of the second phase exists only once the
    first phase has returned. *)
Definition in_two_phases {S} (search : M S) (first second : endpoint)
    (good : row -> Prop) (w after : world) : Prop :=
  exists searches details new_rows,
    sent (trace after) = sent (trace w) ++ searches ++ details
    /\ Forall (to_search first) searches
    /\ Forall (to_search second) details
    /\ rows after = rows w ++ new_rows
    /\ Forall good new_rows
    /\ (details <> [] \/ new_rows <> [] ->
        exists q w1, search w = (Returns q, w1)
                     /\ sent (trace w1) = sent (trace w) ++ searches
                     /\ rows w1 = rows w).

(** The line [main] prints for the exception [e] of a wrapper. *)
Definition handled (wrapper_class : wrapper_class) (e : exn) : line :=
  match e with
  | KeysParserError _ => KeysErrorLine e
  | _ => FailedLine (Runner.__name__ wrapper_class) e
  end.

(** A statement that ends well: it returns, or the script of the network
    ran out; the trace and the rows only grew, by [es] and [rs]. *)
Definition ends_well (out : outcome unit * world) (w : world)
    (es : list event) (rs : list row) : Prop :=
  (fst out = Returns tt \/ (fst out = Stuck /\ script (snd out) = []))
  /\ trace (snd out) = trace w ++ es
  /\ rows (snd out) = rows w ++ rs
  /\ time (snd out) = time w.

(** *** Rows *)

(** [d.get(k, '-')] *)
Definition field (d : Dict.t pyval) (k : string) : pyval :=
  FileTools.get_or d k (PStr "-").

(** [d.get(k1, {}).get(k2, '-')] for an entry [k1] that is an object *)
Definition field2 (d : Dict.t pyval) (k1 k2 : string) : pyval :=
  match Dict.get k1 d with
  | Some (PDict inner) => field inner k2
  | _ => PStr "-"
  end.

(** The date of an integer [createdAt]; the dash otherwise *)
Definition created_at_date (c : clock) (d : Dict.t pyval) : pyval :=
  match Dict.get "createdAt" d with
  | Some (PInt t) =>
      match local_date c t with
      | Ok date => PStr date
      | Raise _ => PStr "-"
      end
  | _ => PStr "-"
  end.

(** The list under [k], empty when there is none *)
Definition listed (d : Dict.t pyval) (k : string) : list pyval :=
  match Dict.get k d with
  | Some (PList l) => l
  | _ => []
  end.

Definition string_of (v : pyval) : string :=
  match v with PStr s => s | _ => "" end.

Definition strings (l : list pyval) : list string := map string_of l.

(** An address list joined with commas; the dash when there is none *)
Definition joined (v : pyval) : string :=
  match v with
  | PList l => Str.join ", " (strings l)
  | _ => "-"
  end.

(** The number of characters of a price written in dollar signs *)
Definition dollar_count (v : pyval) : pyval :=
  match v with
  | PStr p => if Str.contains "$" p then PInt (Z.of_nat (String.length p)) else PStr "-"
  | _ => PStr "-"
  end.

(** The column of the category number [i], counted from 0 *)
Definition category_column (i : nat) : string :=
  "CATEGORY_" +++ Str.of_Z (Z.of_nat i + 1).

(** The categories of [d], listed under [k], fill the numbered columns of
    [ROW] in their order with their entry [name]; without categories no
    such column is in [ROW]. *)
Definition categories_in (d : Dict.t pyval) (k name : string) (ROW : row) : Prop :=
  (forall i c, nth_error (listed d k) i = Some (PDict c) ->
      Dict.get (category_column i) ROW = Some (field c name))
  /\ (listed d k = [] ->
      forall col, String.prefix "CATEGORY_" col = true -> Dict.get col ROW = None).

(** The columns [cols] of [ROW] hold the entries of [d] they are paired
    with, or the dash. *)
Definition passed (d : Dict.t pyval) (ROW : row) (cols : list (string * string)) : Prop :=
  Forall (fun cs => Dict.get (fst cs) ROW = Some (field d (snd cs))) cols.

Definition optional (d : Dict.t pyval) (k : string) (ok : pyval -> bool) : bool :=
  match Dict.get k d with Some v => ok v | None => true end.

Definition is_str (v : pyval) : bool :=
  match v with PStr _ => true | _ => false end.

Definition is_object (v : pyval) : bool :=
  match v with PDict _ => true | _ => false end.

Definition is_list_of (ok : pyval -> bool) (v : pyval) : bool :=
  match v with PList l => forallb ok l | _ => false end.

Definition is_object_with (ok : Dict.t pyval -> bool) (v : pyval) : bool :=
  match v with PDict d => ok d | _ => false end.

(** A Yelp business as the API documents it, for the entries the wrapper
    takes apart. *)
Definition yelp_business (b : Dict.t pyval) : bool :=
  optional b "categories" (is_list_of is_object)
  && optional b "price" is_str
  && optional b "coordinates" is_object
  && optional b "location"
       (is_object_with (fun l => optional l "display_address" (is_list_of is_str)))
  && optional b "phone" is_str.

(** A Foursquare venue as the API documents it, for the entries the wrapper
    takes apart; a [createdAt] that is an integer is one the calendar can
    print. *)
Definition foursquare_venue (c : clock) (v : Dict.t pyval) : bool :=
  optional v "contact" is_object
  && optional v "location"
       (is_object_with (fun l => optional l "formattedAddress" (is_list_of is_str)))
  && optional v "categories" (is_list_of is_object)
  && optional v "stats" is_object
  && optional v "price" is_object
  && optional v "likes" is_object
  && optional v "createdAt"
       (fun t =>
          match t with
          | PInt z => match local_date c z with Ok _ => true | Raise _ => false end
          | PBool _ => false
          | _ => true
          end).

(** The row of a Foursquare venue; nothing is said of [PRICE] when the
    venue has no price tier. *)
Definition foursquare_record (c : clock) (v : Dict.t pyval)
    (search_term_str : string) (ROW : row) : Prop :=
  Dict.get "QUERY" ROW = Some (PStr search_term_str)
  /\ Dict.get "API_SOURCE" ROW = Some (PStr "foursquare")
  /\ passed v ROW
       [ ("SOURCE_LINK", "canonicalUrl"); ("ID", "id"); ("NAME", "name");
         ("WEBSITE", "url"); ("RATING", "rating");
         ("REVIEWS_AMOUNT", "ratingSignals"); ("CREATED_AT", "createdAt") ]
  /\ Dict.get "PHONE" ROW = Some (field2 v "contact" "phone")
  /\ Dict.get "ADDRESS" ROW
     = Some (PStr (joined (field2 v "location" "formattedAddress")))
  /\ Dict.get "LATITUDE" ROW = Some (field2 v "location" "lat")
  /\ Dict.get "LONGITUDE" ROW = Some (field2 v "location" "lng")
  /\ categories_in v "categories" "name" ROW
  /\ Dict.get "CHECKINS" ROW = Some (field2 v "stats" "checkinsCount")
  /\ Dict.get "LIKES_AMOUNT" ROW = Some (field2 v "likes" "count")
  /\ (forall p tier,
        Dict.get "price" v = Some (PDict p) -> Dict.get "tier" p = Some tier ->
        Dict.get "PRICE" ROW = Some tier)
  /\ Dict.get "CREATED_AT_DATE" ROW = Some (created_at_date c v).

(** A Facebook place as the API documents it, for the entries the wrapper
    takes apart. *)
Definition facebook_place (p : Dict.t pyval) : bool :=
  optional p "location" is_object
  && optional p "category_list" (is_list_of is_object)
  && optional p "price_range" is_str
  && optional p "engagement" is_object.

(** The row of a Facebook place *)
Definition facebook_record (p : Dict.t pyval) (search_term_str : string)
    (ROW : row) : Prop :=
  Dict.get "QUERY" ROW = Some (PStr search_term_str)
  /\ Dict.get "API_SOURCE" ROW = Some (PStr "facebook")
  /\ passed p ROW
       [ ("SOURCE_LINK", "link"); ("NAME", "name"); ("PHONE", "phone");
         ("ADDRESS", "single_line_address"); ("WEBSITE", "website");
         ("RATING", "overall_star_rating"); ("CHECKINS", "checkins") ]
  /\ Dict.get "ID" ROW = Some (PStr ("'" +++ Py.str (field p "id")))
  /\ Dict.get "LATITUDE" ROW = Some (field2 p "location" "latitude")
  /\ Dict.get "LONGITUDE" ROW = Some (field2 p "location" "longitude")
  /\ categories_in p "category_list" "name" ROW
  /\ Dict.get "PRICE" ROW = Some (dollar_count (field p "price_range"))
  /\ Dict.get "REVIEWS_AMOUNT" ROW
     = Some (PStr (Str.replace "." "," (Py.str (field p "rating_count"))))
  /\ Dict.get "IS_CLOSED" ROW
     = Some (PStr (Py.str (field p "is_permanently_closed")))
  /\ Dict.get "LIKES_AMOUNT" ROW = Some (field2 p "engagement" "count").

(** The row of a Yelp business *)
Definition yelp_record (b : Dict.t pyval) (total : pyval) (extracted : Z)
    (search_term_str : string) (ROW : row) : Prop :=
  Dict.get "API_SOURCE" ROW = Some (PStr "yelp")
  /\ Dict.get "QUERY" ROW = Some (PStr search_term_str)
  /\ Dict.get "TOTAL_API" ROW = Some total
  /\ Dict.get "TOTAL_EXTRACTED" ROW = Some (PInt extracted)
  /\ passed b ROW
       [ ("SOURCE_LINK", "url"); ("ID", "id"); ("NAME", "name");
         ("REVIEWS_AMOUNT", "review_count"); ("RATING", "rating") ]
  /\ Dict.get "IS_CLOSED" ROW = Some (PStr (Py.str (field b "is_closed")))
  /\ categories_in b "categories" "alias" ROW
  /\ Dict.get "PRICE" ROW = Some (dollar_count (field b "price"))
  /\ Dict.get "LATITUDE" ROW = Some (field2 b "coordinates" "latitude")
  /\ Dict.get "LONGITUDE" ROW = Some (field2 b "coordinates" "longitude")
  /\ Dict.get "ADDRESS" ROW
     = Some (PStr (joined (field2 b "location" "display_address")))
  /\ Dict.get "PHONE" ROW = Some (PStr (Str.replace "+" "" (string_of (field b "phone")))).

(** *** Sample inputs of the examples *)

Definition sample_clock : clock :=
  {| utc_stamp := fun _ => "01.03.2019/12:00:00";
     utc_name := fun _ => "01032019_120000";
     today := "20190301";
     local_date := fun _ => Ok "01-03-2019" |}.

Definition sample_world (todo : list attempt) : world :=
  {| script := todo; trace := []; rows := []; _response := None;
     readings := 0; time := sample_clock |}.

Definition sample_answer (body : pyval) : response :=
  {| status_code := 200; headers := []; text := ""; json := body |}.

Definition sample_yelp : Yelp.self :=
  {| Yelp._errors_limit := 3; Yelp._timeout := 3;
     Yelp.keys := [("apikey", "k")];
     Yelp._terms := [[("location", "Berlin")]];
     Yelp._headers := [("Authorization", "Bearer k")] |}.

Definition sample_page (ids : list string) : response :=
  sample_answer
    (PDict [("businesses", PList (map (fun id => PDict [("id", PStr id)]) ids));
            ("total", PInt 3)]).

Definition sample_files : files :=
  {| keys_file := "# yelp_apikey = k";
     INPUT_FILES := [[["term"; "location"]; ["pizza"; "Berlin"]]] |}.

Definition sample_outage : list attempt :=
  [Fails "ConnectionError" "down"; Fails "ConnectionError" "down";
   Fails "Timeout" "late"].

Definition sample_business : Dict.t pyval :=
  [ ("id", PStr "cafe-1"); ("name", PStr "Cafe"); ("price", PStr "$$");
    ("categories", PList [PDict [("alias", PStr "coffee")]; PDict [("alias", PStr "tea")]]);
    ("location", PDict [("display_address", PList [PStr "Main St 1"; PStr "Berlin"])]);
    ("phone", PStr "+4930123") ].

Definition sample_venue : Dict.t pyval :=
  [ ("id", PStr "v1"); ("name", PStr "Bar"); ("createdAt", PInt 1551398400);
    ("price", PDict [("tier", PInt 2)]) ].

(** *** Attempts *)

(** Every request among the events [es] comes right after a sleep. *)
Fixpoint paced (es : list event) : bool :=
  match es with
  | [] => true
  | Sleep :: Request _ :: es' => paced es'
  | Request _ :: _ => false
  | _ :: es' => paced es'
  end.

Definition is_failure (a : attempt) : bool :=
  match a with Fails _ _ => true | Answers _ => false end.

Definition sample_engine (errors_limit : Z) : RequestEngine.self :=
  {| RequestEngine.class_name := "Yelp__ApiWrapper";
     RequestEngine._errors_limit := errors_limit |}.

Definition sample_request : request :=
  {| via := BUSINESS_SEARCH; url := Yelp.BUSINESS_SEARCH_url;
     params := [("location", PStr "Berlin")];
     req_headers := None; timeout := None |}.

(** *** Credential lines *)

(** The line splits at [" = "] into a header and a key, as the assignment
    [header, key = keys_line.split(' = ')] needs. *)
Definition two_pieces (keys_line : string) : bool :=
  (List.length (Str.split " = " keys_line) =? 2)%nat.

(** The name under which [parse_keys] stores the key of a header. *)
Definition key_name (wrapper_alias header : string) : string :=
  Str.strip_chars "_" (Str.replace wrapper_alias "" (Str.lower header)).

(** *** Input files *)

(** The rows of a file that become terms: those after the first that are
    not empty. *)
Definition data_rows (csv_data : InputTermsParser.csv_file) : list (list string) :=
  filter (fun row => match row with [] => false | _ => true end) (tl csv_data).

(** The file has no row at all, not even the one [next(csv_data)] skips. *)
Definition no_rows (csv_data : InputTermsParser.csv_file) : bool :=
  match csv_data with [] => true | _ => false end.

(** *** Requests of the wrappers *)

(** The request is one the Yelp wrapper [s] sends for the term [term]: the
    search for the term as it is, or, when the term asks for [limit]
    results, more than a page holds, the page at an offset [o] that is a
    multiple of 50 below [limit] and below the ceiling of the API. *)
Definition yelp_request_for (s : Yelp.self) (term : Dict.t pyval) (r : request) : Prop :=
  r = single_request s term
  \/ exists limit o,
       Yelp.term_limit_user term = Ok (Some limit)
       /\ Yelp.limit_max_per_offset < limit
       /\ r = page_request s term o
       /\ 0 <= o < limit
       /\ o < Yelp.yelp_api_results_max_limit
       /\ o mod 50 = 0.

(** The events [es] hold only requests that satisfy [P]. *)
Definition requests_all (P : request -> Prop) (es : list event) : Prop :=
  Forall P (sent es).

(** The parameters hold the credentials of the Foursquare wrapper [s]. *)
Definition foursquare_credentials (s : Foursquare.self) (p : Dict.t pyval) : Prop :=
  Dict.get "client_id" p = Some (PStr (Foursquare._client_id s))
  /\ Dict.get "client_secret" p = Some (PStr (Foursquare._client_secret s))
  /\ Dict.get "v" p = Some (PStr (Foursquare._term_current_date s)).

(** A request of the Foursquare wrapper [s]: a search, or the details of
    the venue [id] named in the address, with the credentials among the
    parameters, and neither headers nor a time limit. *)
Definition foursquare_request (s : Foursquare.self) (r : request) : Prop :=
  foursquare_credentials s (params r)
  /\ req_headers r = None /\ timeout r = None
  /\ match via r with
     | VENUE_SEARCH => url r = Foursquare.VENUE_SEARCH_url
     | VENUE_DETAILS => exists id, url r = Foursquare.VENUE_DETAILS_url id
     | _ => False
     end.

(** A request of the Facebook wrapper [s]: a search for places with a
    limit, or the information on the place [id] named in the address with
    the list of fields asked for; the access token is among the
    parameters, and there are neither headers nor a time limit. *)
Definition facebook_request (s : Facebook.self) (r : request) : Prop :=
  Dict.get "access_token" (params r) = Some (PStr (Facebook._access_token s))
  /\ req_headers r = None /\ timeout r = None
  /\ match via r with
     | PLACES_SEARCH =>
         url r = Facebook.PLACES_SEARCH_url
         /\ Dict.get "type" (params r) = Some (PStr "place")
         /\ present (params r) "limit" = true
     | PLACE_INFORMATION =>
         (exists id, url r = Facebook.PLACE_INFORMATION_url id)
         /\ Dict.get "fields" (params r)
            = Some (PStr (Str.join "," Facebook.ID_FIELDS))
     | _ => False
     end.

(** *** Rows of a whole answer *)

(** The rows [ROWS] are those of the businesses [bs], one each and in their
    order; each is stamped with its own reading of the clock, the readings
    starting at the [n]-th. *)
Fixpoint yelp_rows (c : clock) (n : nat) (total : pyval) (extracted : Z)
    (search_term_str : string) (bs : list (Dict.t pyval)) (ROWS : list row) : Prop :=
  match bs, ROWS with
  | [], [] => True
  | b :: bs', ROW :: ROWS' =>
      yelp_record b total extracted search_term_str ROW
      /\ Dict.get "RUN_TIMESTAMP" ROW = Some (PStr (utc_stamp c n))
      /\ yelp_rows c (S n) total extracted search_term_str bs' ROWS'
  | _, _ => False
  end.

(** *** Searches and details *)

(** The detail terms made from the entities [found]: one for each entity
    whose [id] counts as true, in their order. *)
Definition queued (key : string) (found : list (Dict.t pyval)) : list (Dict.t pyval) :=
  map (fun x => [(key, FileTools.get_or x "id" PNone)])
    (filter (fun x => present x "id") found).

(** The venues a Foursquare search answer lists: the objects [vs] under
    [response.venues]; none when the answer has no [response], or no
    [venues] in it. *)
Definition lists_venues (d : Dict.t pyval) (vs : list (Dict.t pyval)) : Prop :=
  match Dict.get "response" d with
  | None => vs = []
  | Some (PDict inner) =>
      match Dict.get "venues" inner with
      | None => vs = []
      | Some (PList l) => l = map PDict vs
      | Some _ => False
      end
  | Some _ => False
  end.

(** The places a Facebook search answer lists: the objects [ps] under
    [data]; none when the answer has no [data]. *)
Definition lists_places (d : Dict.t pyval) (ps : list (Dict.t pyval)) : Prop :=
  match Dict.get "data" d with
  | None => ps = []
  | Some (PList l) => l = map PDict ps
  | Some _ => False
  end.

(** The search request of the Foursquare wrapper for the term [term]. *)
Definition foursquare_search_request (s : Foursquare.self) (term : Dict.t pyval)
    : request :=
  {| via := VENUE_SEARCH;
     url := Foursquare.VENUE_SEARCH_url;
     params := merge_coordinates "ll" (Foursquare._update_term_credentials s term);
     req_headers := None;
     timeout := None |}.

(** The search request of the Facebook wrapper for the term [term]. *)
Definition facebook_search_request (s : Facebook.self) (term : Dict.t pyval)
    : request :=
  let term := Dict.set "type" (PStr "place")
                (Facebook._update_term_credentials s term) in
  let term := if negb (present term "limit")
              then Dict.set "limit" (PInt 100) term else term in
  {| via := PLACES_SEARCH;
     url := Facebook.PLACES_SEARCH_url;
     params := merge_coordinates "center" term;
     req_headers := None;
     timeout := None |}.

(** The request for the details of the venue [id]. *)
Definition foursquare_details_request (s : Foursquare.self) (id : pyval) : request :=
  {| via := VENUE_DETAILS;
     url := Foursquare.VENUE_DETAILS_url (Py.str id);
     params := [ ("client_id", PStr (Foursquare._client_id s));
                 ("client_secret", PStr (Foursquare._client_secret s));
                 ("v", PStr (Foursquare._term_current_date s)) ];
     req_headers := None;
     timeout := None |}.

(** The request for the information on the place [id]. *)
Definition facebook_information_request (s : Facebook.self) (id : pyval) : request :=
  {| via := PLACE_INFORMATION;
     url := Facebook.PLACE_INFORMATION_url (Py.str id);
     params := [ ("fields", PStr (Str.join "," Facebook.ID_FIELDS));
                 ("access_token", PStr (Facebook._access_token s)) ];
     req_headers := None;
     timeout := None |}.

Definition sample_foursquare : Foursquare.self :=
  {| Foursquare._errors_limit := 3;
     Foursquare.keys := [("client_id", "i"); ("client_secret", "x")];
     Foursquare._client_id := "i";
     Foursquare._client_secret := "x";
     Foursquare._terms := [[("near", "Berlin")]];
     Foursquare._term_current_date := "20190301" |}.

Definition sample_facebook : Facebook.self :=
  {| Facebook._errors_limit := 3;
     Facebook.keys := [("access_token", "t")];
     Facebook._access_token := "t";
     Facebook._terms := [[("q", "cafe")]] |}.

(** *** The queue between the two loops *)

(** What the first loop does with a term: it passes it over; or the term
    names an id, which goes to the queue without a call; or it searches, and
    the search is answered, after the failures, by an answer that lists the
    entities [found].  The string is the search string of the term. *)
Inductive turn :=
| Skipped
| Named (search_term_str : string) (id : pyval)
| Searched (search_term_str : string) (failures : list (string * string))
    (answer : response) (found : list (Dict.t pyval)).

(** The attempts of the network a turn uses up. *)
Definition turn_attempts (t : turn) : list attempt :=
  match t with
  | Searched _ fs r _ => eventually fs r
  | _ => []
  end.

(** The requests of a turn that searches with the request [req]. *)
Definition turn_requests (req : request) (t : turn) : list request :=
  match t with
  | Searched _ fs _ _ => resent req fs
  | _ => []
  end.

(** What a turn hands to the second loop: under its search string, the id
    it names, or the ids of the entities found that count as true. *)
Definition turn_ids (t : turn) : list (string * list pyval) :=
  match t with
  | Skipped => []
  | Named k id => [(k, [id])]
  | Searched k _ _ found =>
      [(k, map (fun x => FileTools.get_or x "id" PNone)
             (filter (fun x => present x "id") found))]
  end.

(** The first loop as a list: each term with its turn. *)
Definition plan := list (Dict.t pyval * turn).

Definition plan_attempts (p : plan) : list attempt :=
  flat_map (fun v => turn_attempts (snd v)) p.

Definition plan_requests (request_of : Dict.t pyval -> request) (p : plan)
    : list request :=
  flat_map (fun v => turn_requests (request_of (fst v)) (snd v)) p.

Definition handed (p : plan) : list (string * list pyval) :=
  flat_map (fun v => turn_ids (snd v)) p.

(** The ids handed over under the search string [k], in the order of the
    turns. *)
Definition under (k : string) (h : list (string * list pyval)) : list pyval :=
  flat_map snd (filter (fun c => String.eqb (fst c) k) h).

(** The strings of [l], each once, where it stands first. *)
Fixpoint distinct (l : list string) : list string :=
  match l with
  | [] => []
  | k :: l' => k :: filter (fun k' => negb (String.eqb k' k)) (distinct l')
  end.

(** What was handed over, gathered by search string: the strings in the
    order in which they come up first, each with all the ids handed over
    under it. *)
Definition gathered (h : list (string * list pyval)) : list (string * list pyval) :=
  map (fun k => (k, under k h)) (distinct (map fst h)).

(** The same as a queue of detail terms, which hold their id under
    [key]. *)
Definition as_queue (key : string) (g : list (string * list pyval)) : queue :=
  map (fun e => (fst e, map (fun id => [(key, id)]) (snd e))) g.

(** The jobs of the second loop: the ids gathered, each with the search
    string it stands under, in the order of the queue. *)
Definition jobs (h : list (string * list pyval)) : list (string * pyval) :=
  flat_map (fun e => map (pair (fst e)) (snd e)) (gathered h).

(** The exchange for one job: the failures before the answer, the answer,
    and the entity it describes. *)
Record detail := {
  detail_failures : list (string * string);
  detail_answer : response;
  detail_entity : Dict.t pyval
}.

Definition detail_attempts (details : list detail) : list attempt :=
  flat_map (fun d => eventually (detail_failures d) (detail_answer d)) details.

(** The requests of the second loop: for each job the request for its id,
    sent again after each failure. *)
Fixpoint detail_requests (request_of : pyval -> request)
    (js : list (string * pyval)) (details : list detail) : list request :=
  match js, details with
  | j :: js', d :: details' =>
      resent (request_of (snd j)) (detail_failures d)
      ++ detail_requests request_of js' details'
  | _, _ => []
  end.

(** The rows of the second loop: one for each job, in their order, which
    describes the entity of the answer and carries the search string of the
    job; each is stamped with its own reading of the clock, the readings
    starting at the [n]-th. *)
Fixpoint detail_rows (record : Dict.t pyval -> string -> row -> Prop)
    (c : clock) (n : nat) (js : list (string * pyval)) (details : list detail)
    (ROWS : list row) : Prop :=
  match js, details, ROWS with
  | [], [], [] => True
  | j :: js', d :: details', ROW :: ROWS' =>
      record (detail_entity d) (fst j) ROW
      /\ Dict.get "RUN_TIMESTAMP" ROW = Some (PStr (utc_stamp c n))
      /\ detail_rows record c (S n) js' details' ROWS'
  | _, _, _ => False
  end.

(** The turn [t] is the one the first loop of the Foursquare wrapper takes
    with [term]. *)
Definition foursquare_turn (s : Foursquare.self) (term : Dict.t pyval) (t : turn)
    : Prop :=
  let locators := ["q"; "near"; "latitude"; "longitude"; "foursquare_id"] in
  let hidden := ["client_id"; "client_secret"] in
  match t with
  | Skipped => any_present locators term = false
  | Named k id =>
      any_present locators term = true
      /\ shown_term hidden term = Ok k
      /\ Dict.get "foursquare_id" term = Some id
      /\ Py.truthy id = true
  | Searched k fs r found =>
      any_present locators term = true
      /\ shown_term hidden term = Ok k
      /\ present term "foursquare_id" = false
      /\ tolerated (Foursquare._errors_limit s) fs
      /\ exists d, json r = PDict d /\ lists_venues d found
  end.

(** The turn [t] is the one the first loop of the Facebook wrapper takes
    with [term]. *)
Definition facebook_turn (s : Facebook.self) (term : Dict.t pyval) (t : turn)
    : Prop :=
  let locators := ["q"; "latitude"; "longitude"; "facebook_id"] in
  let hidden := ["access_token"] in
  match t with
  | Skipped => any_present locators term = false
  | Named k id =>
      any_present locators term = true
      /\ shown_term hidden term = Ok k
      /\ Dict.get "facebook_id" term = Some id
      /\ Py.truthy id = true
  | Searched k fs r found =>
      any_present locators term = true
      /\ shown_term hidden term = Ok k
      /\ present term "facebook_id" = false
      /\ tolerated (Facebook._errors_limit s) fs
      /\ exists d, json r = PDict d /\ lists_places d found
  end.

(** The answer of the exchange holds, under [response.venue], the entity,
    a well-formed venue; the failures before it are tolerated. *)
Definition foursquare_detail (s : Foursquare.self) (c : clock) (d : detail) : Prop :=
  tolerated (Foursquare._errors_limit s) (detail_failures d)
  /\ exists top inner,
       json (detail_answer d) = PDict top
       /\ Dict.get "response" top = Some (PDict inner)
       /\ Dict.get "venue" inner = Some (PDict (detail_entity d))
       /\ foursquare_venue c (detail_entity d) = true.

(** The answer of the exchange is the entity, a well-formed place; the
    failures before it are tolerated. *)
Definition facebook_detail (s : Facebook.self) (d : detail) : Prop :=
  tolerated (Facebook._errors_limit s) (detail_failures d)
  /\ json (detail_answer d) = PDict (detail_entity d)
  /\ facebook_place (detail_entity d) = true.

(** A run in two loops over a network that answers: the first loop returns
    the queue in which what the turns handed over is gathered by search
    string, having sent only the requests [searched] and written no row;
    the run then returns, having sent after them the requests of the jobs of
    that queue and written their rows, and leaves [rest] of the script. *)
Definition two_loops (search : M queue) (key : string)
    (request_of : pyval -> request)
    (record : Dict.t pyval -> string -> row -> Prop)
    (h : list (string * list pyval)) (searched : list request)
    (details : list detail) (rest : list attempt)
    (w : world) (out : outcome unit * world) : Prop :=
  (exists w1,
      search w = (Returns (as_queue key (gathered h)), w1)
      /\ sent (trace w1) = sent (trace w) ++ searched
      /\ rows w1 = rows w)
  /\ fst out = Returns tt
  /\ sent (trace (snd out))
     = sent (trace w) ++ searched ++ detail_requests request_of (jobs h) details
  /\ script (snd out) = rest
  /\ exists ROWS,
       rows (snd out) = rows w ++ ROWS
       /\ detail_rows record (time w) (readings w) (jobs h) details ROWS.

(** *** Limits that are no numbers *)


(** A string of decimal digits. *)
Fixpoint digits_only (s : string) : bool :=
  match s with
  | EmptyString => true
  | String c s' =>
      ((48 <=? Str.code c) && (Str.code c <=? 57))%N && digits_only s'
  end.

(** The digit 9, [n] times. *)
Fixpoint nines (n : nat) : string :=
  match n with
  | O => EmptyString
  | S n' => String "9" (nines n')
  end.

(** *** The batch *)

(** The files can be read: every credential line splits in two, and every
    input file has a first row. *)
Definition readable (f : files) : bool :=
  forallb two_pieces (KeysParser.KEYS_LINES (keys_file f))
  && negb (existsb no_rows (INPUT_FILES f)).

(** The fields one of which a term needs for its wrapper not to skip it, as
    each [run] lists them. *)
Definition locators (wrapper_class : wrapper_class) : list string :=
  match wrapper_class with
  | Yelp__ApiWrapper => ["location"; "latitude"; "longitude"]
  | Foursquare__ApiWrapper => ["q"; "near"; "latitude"; "longitude"; "foursquare_id"]
  | Facebook__ApiWrapper => ["q"; "latitude"; "longitude"; "facebook_id"]
  end.

(** The attribute [_terms] of a wrapper. *)
Definition terms_of (wrapper : wrapper) : list InputTermsParser.term :=
  match wrapper with
  | Yelp_object s => Yelp._terms s
  | Foursquare_object s => Foursquare._terms s
  | Facebook_object s => Facebook._terms s
  end.

(** The world after the default input file is made, when it was missing. *)
Definition with_default_input (exists_ : bool) (w : world) : world :=
  if exists_ then w
  else log (WriteCsv Runner.default_input_filename
              [map PStr FileTools.input_headers]) w.

(** *** Pages *)

(** One page of a Yelp search as the network gives it: the failures before
    the answer, the answer, its JSON object and the businesses it lists. *)
Record page := {
  page_failures : list (string * string);
  page_answer : response;
  page_body : Dict.t pyval;
  page_listed : list (Dict.t pyval)
}.

(** The page lists businesses, all of them well formed, and its failures
    are tolerated. *)
Definition full_page (s : Yelp.self) (p : page) : Prop :=
  tolerated (Yelp._errors_limit s) (page_failures p)
  /\ json (page_answer p) = PDict (page_body p)
  /\ Dict.get "businesses" (page_body p) = Some (PList (map PDict (page_listed p)))
  /\ page_listed p <> []
  /\ forallb yelp_business (page_listed p) = true.

(** The attempts of the calls for [pages], one call after the other. *)
Definition page_attempts (pages : list page) : list attempt :=
  flat_map (fun p => eventually (page_failures p) (page_answer p)) pages.

(** The businesses of [pages], in the order of the pages. *)
Definition page_businesses (pages : list page) : list (Dict.t pyval) :=
  flat_map page_listed pages.

(** The requests of the calls for [pages], the first of them at
    [offset]. *)
Fixpoint page_requests (s : Yelp.self) (term : Dict.t pyval) (offset : Z)
    (pages : list page) : list request :=
  match pages with
  | [] => []
  | p :: pages' =>
      resent (page_request s term offset) (page_failures p)
      ++ page_requests s term (offset + 50) pages'
  end.

(** The object of the last of [pages]. *)
Definition last_body (pages : list page) : Dict.t pyval :=
  match rev pages with
  | p :: _ => page_body p
  | [] => []
  end.

Definition sample_full_page (failures : list (string * string)) (ids : list string)
    : page :=
  {| page_failures := failures;
     page_answer := sample_page ids;
     page_body :=
       [("businesses", PList (map (fun id => PDict [("id", PStr id)]) ids));
        ("total", PInt 3)];
     page_listed := map (fun id => [("id", PStr id)]) ids |}.

(** The name of a class in capitals, as the line with the body of a
    response shows it. *)
Definition in_capitals (wrapper_class : wrapper_class) : string :=
  match wrapper_class with
  | Yelp__ApiWrapper => "YELP__APIWRAPPER"
  | Foursquare__ApiWrapper => "FOURSQUARE__APIWRAPPER"
  | Facebook__ApiWrapper => "FACEBOOK__APIWRAPPER"
  end.

(** What [main] prints after a run that returned, from the last response
    [r]: the statistics among its headers, and its body when the status is
    not 200. *)
Definition after_run (wrapper : wrapper) (r : response) : list event :=
  [ Print StatsHeading;
    Print (StatsLine
             (filter (fun kv => existsb (String.eqb (fst kv))
                                  (Runner.STATS_HEADERS wrapper))
                (headers r))) ]
  ++ (if status_code r =? 200 then []
      else [Print (ResponseLine (in_capitals (Runner.class_of wrapper)) (text r))]).

(** ** The world and its events *)

Lemma sent_app t1 t2 : sent (t1 ++ t2) = sent t1 ++ sent t2.
Proof.
  induction t1 as [|e t1 IH]; [reflexivity|].
  destruct e; simpl; rewrite IH; reflexivity.
Qed.

(** ** The effects of statements *)

Section Effects.
Context {P : request -> Prop} {Q : row -> Prop}.

Local Ltac still :=
  intros w; simpl; repeat split; try discriminate;
  exists []; rewrite app_nil_r; repeat split; constructor.

Local Ltac noted e :=
  intros w; simpl; repeat split; try discriminate;
  [ exists [e]; repeat split; constructor
  | exists []; rewrite app_nil_r; repeat split; constructor ].

Lemma effects_ret {A} (a : A) : effects P Q (ret a).
Proof. still. Qed.

Lemma effects_raise {A} e : effects P Q (@raise A e).
Proof. still. Qed.

Lemma effects_eval {A} (r : result A) : effects P Q (eval r).
Proof. destruct r; still. Qed.

Lemma effects_the_clock : effects P Q the_clock.
Proof. still. Qed.

Lemma effects_DATA_rows : effects P Q DATA_rows.
Proof. still. Qed.

Lemma effects_self_response : effects P Q self_response.
Proof. intros w. unfold self_response. destruct (_response w); revert w; still. Qed.

Lemma effects_receive r : effects P Q (receive r).
Proof. still. Qed.

Lemma effects_unset_response : effects P Q unset_response.
Proof. still. Qed.

Lemma effects_utcnow f : effects P Q (utcnow f).
Proof. still. Qed.

Lemma effects_sleep : effects P Q (emit Sleep).
Proof. noted Sleep. Qed.

Lemma effects_print l : effects P Q (emit (Print l)).
Proof. noted (Print l). Qed.

Lemma effects_write name written : effects P Q (emit (WriteCsv name written)).
Proof. noted (WriteCsv name written). Qed.

Lemma effects_append ROW : Q ROW -> effects P Q (append ROW).
Proof.
  intros HQ w; simpl. repeat split; try discriminate.
  - exists []. rewrite app_nil_r. repeat split; constructor.
  - exists [ROW]. split; [reflexivity | now constructor].
Qed.

Lemma effects_bind {A B} (m : M A) (k : A -> M B) :
  effects P Q m -> (forall a, effects P Q (k a)) -> effects P Q (bind m k).
Proof.
  intros Hm Hk w. unfold bind.
  destruct (Hm w) as ((es & Ht & Hs & Hc) & (rs & Hr & Hq) & Hstuck & Htime).
  destruct (m w) as [[a|e|] w1]; simpl in *.
  - destruct (Hk a w1)
      as ((es' & Ht' & Hs' & Hc') & (rs' & Hr' & Hq') & Hstuck' & Htime').
    repeat split.
    + exists (es ++ es'). rewrite Ht', Ht, app_assoc, sent_app.
      repeat split; [now apply Forall_app|].
      rewrite Hc', Hc, skipn_skipn, length_app. f_equal. lia.
    + exists (rs ++ rs'). rewrite Hr', Hr, app_assoc.
      split; [reflexivity | now apply Forall_app].
    + assumption.
    + congruence.
  - repeat split; eauto. discriminate.
  - repeat split; eauto.
Qed.

Lemma effects_for_each {A} (l : list A) (body : A -> M unit) :
  (forall x, In x l -> effects P Q (body x)) -> effects P Q (for_each l body).
Proof.
  induction l as [|x l IH]; intros H; simpl.
  - apply effects_ret.
  - apply effects_bind; [apply H; now left | intros _].
    apply IH. intros y Hy. apply H. now right.
Qed.

Lemma effects_for_fold {A S} (l : list A) (body : A -> S -> M S) (acc : S) :
  (forall x acc, effects P Q (body x acc)) -> effects P Q (for_fold l body acc).
Proof.
  intros H. revert acc. induction l as [|x l IH]; intros acc; simpl.
  - apply effects_ret.
  - apply effects_bind; [apply H | intros acc']. apply IH.
Qed.

Lemma effects_attempts s req errors todo w :
  P req -> script w = todo ->
  let out := RequestEngine.attempts s req errors todo w in
  (exists es, trace (snd out) = trace w ++ es
              /\ Forall P (sent es)
              /\ script (snd out) = skipn (List.length (sent es)) todo)
  /\ rows (snd out) = rows w
  /\ (fst out = Stuck -> script (snd out) = [])
  /\ time (snd out) = time w.
Proof.
  intros HP. revert errors w.
  induction todo as [|a rest IH]; intros errors w Hw; simpl.
  - repeat split; try tauto. exists []. rewrite app_nil_r.
    repeat split; [constructor | assumption].
  - destruct a as [cls msg | r]; simpl.
    + destruct (errors + 1 =? RequestEngine._errors_limit s); simpl.
      * repeat split; try discriminate.
        exists [Sleep; Request req]. rewrite <- app_assoc.
        repeat split. simpl; now constructor.
      * match goal with
        | |- context [RequestEngine.attempts s req ?e rest ?w1] =>
            destruct (IH e w1 eq_refl) as ((es & Ht & Hs & Hc) & Hr & Hstuck & Htime)
        end.
        simpl in *. repeat split; try assumption.
        exists ([Sleep; Request req;
                 Print (ErrorLine (RequestEngine.error_msg s cls msg))] ++ es).
        rewrite Ht. rewrite <- !app_assoc. split; [reflexivity|].
        rewrite sent_app. split.
        -- apply Forall_app. split; [simpl; now constructor | assumption].
        -- rewrite Hc, length_app. reflexivity.
    + repeat split; try discriminate.
      exists [Sleep; Request req]. rewrite <- app_assoc.
      repeat split. simpl; now constructor.
Qed.

Lemma effects_GET s req : P req -> effects P Q (RequestEngine.GET s req).
Proof.
  intros HP w. unfold RequestEngine.GET.
  destruct (effects_attempts s req 0 (script w) w HP eq_refl)
    as (Ht & Hr & Hstuck & Htime).
  repeat split; try assumption.
  exists []. rewrite app_nil_r. split; [assumption | constructor].
Qed.

Lemma effects_self_response_json : effects P Q self_response_json.
Proof.
  apply effects_bind; [apply effects_self_response | intros r; apply effects_ret].
Qed.

End Effects.

Lemma effects_weaken {A} (P P' : request -> Prop) (Q Q' : row -> Prop) (m : M A) :
  (forall r, P r -> P' r) -> (forall r, Q r -> Q' r) ->
  effects P Q m -> effects P' Q' m.
Proof.
  intros HP HQ Hm w.
  destruct (Hm w) as ((es & Ht & Hs & Hc) & (rs & Hr & Hq) & Hstuck & Htime).
  repeat split; try assumption.
  - exists es. repeat split; try assumption.
    eapply Forall_impl; [apply HP | assumption].
  - exists rs. split; [assumption|]. eapply Forall_impl; [apply HQ | assumption].
Qed.

(** One step through a statement built from the primitives. *)
Ltac effects_step :=
  first
    [ apply effects_ret
    | apply effects_raise
    | apply effects_eval
    | apply effects_the_clock
    | apply effects_DATA_rows
    | apply effects_self_response_json
    | apply effects_self_response
    | apply effects_receive
    | apply effects_unset_response
    | apply effects_utcnow
    | apply effects_sleep
    | apply effects_print
    | apply effects_write
    | apply effects_bind; [| intros ?]
    | match goal with
      | |- effects _ _ (if ?b then _ else _) => destruct b
      | |- effects _ _ (match ?x with _ => _ end) => destruct x
      end ].

Ltac effects_steps := repeat effects_step.

(** ** The effects of the Yelp wrapper *)

Lemma effects_business_search_endpoint Q s query :
  effects to_yelp Q (Yelp.business_search_endpoint s query).
Proof.
  unfold Yelp.business_search_endpoint. effects_steps.
  apply effects_GET. reflexivity.
Qed.

Lemma effects_parse_business_search_json_response P businesses search_term_str :
  effects P any_row
    (Yelp.parse_business_search_json_response businesses search_term_str).
Proof.
  unfold Yelp.parse_business_search_json_response. effects_steps.
  apply effects_for_each. intros business _. effects_steps.
  apply effects_append. exact I.
Qed.

Lemma paginate_step s limit term offset businesses w :
  offset < limit -> offset < Yelp.yelp_api_results_max_limit ->
  Yelp.paginate s limit term offset businesses w =
    (let term := Dict.set "offset" (PInt offset) term in
     Yelp.business_search_endpoint s term ;;
     emit Sleep ;;
     response_json <- self_response_json ;;
     page <- eval (Py.get response_json "businesses" (PList [])) ;;
     (if offset mod 100 =? 0 then emit (Print (OffsetLine offset)) else ret tt) ;;
     if Py.truthy page then
       more <- eval (Py.iter page) ;;
       Yelp.paginate s limit term (offset + 50) (businesses ++ more)
     else ret businesses) w.
Proof.
  intros Hl Hm. rewrite Yelp.paginate_equation_1. unfold Yelp.paginate_unfold_clause_1.
  destruct (Z_lt_dec offset limit); [|lia].
  unfold Yelp.paginate_unfold_clause_1_clause_1.
  destruct (Z_lt_dec offset Yelp.yelp_api_results_max_limit); [|lia].
  reflexivity.
Qed.

Lemma paginate_stop s limit term offset businesses w :
  ~ (offset < limit /\ offset < Yelp.yelp_api_results_max_limit) ->
  Yelp.paginate s limit term offset businesses w = (Returns businesses, w).
Proof.
  intros H. rewrite Yelp.paginate_equation_1. unfold Yelp.paginate_unfold_clause_1.
  destruct (Z_lt_dec offset limit);
    unfold Yelp.paginate_unfold_clause_1_clause_1;
    destruct (Z_lt_dec offset Yelp.yelp_api_results_max_limit);
    try reflexivity.
  lia.
Qed.

Lemma effects_paginate Q s limit term offset businesses :
  effects to_yelp Q (Yelp.paginate s limit term offset businesses).
Proof.
  remember (Yelp.headroom offset) as n eqn:Hn.
  revert term offset businesses Hn.
  induction n as [n IH] using lt_wf_ind. intros term offset businesses Hn w.
  destruct (Z_lt_dec offset limit) as [Hl|Hl];
    [destruct (Z_lt_dec offset Yelp.yelp_api_results_max_limit) as [Hm|Hm]|].
  - rewrite paginate_step by assumption. revert w.
    change (effects to_yelp Q
      (Yelp.business_search_endpoint s (Dict.set "offset" (PInt offset) term) ;;
       emit Sleep ;;
       response_json <- self_response_json ;;
       page <- eval (Py.get response_json "businesses" (PList [])) ;;
       (if offset mod 100 =? 0 then emit (Print (OffsetLine offset)) else ret tt) ;;
       if Py.truthy page then
         more <- eval (Py.iter page) ;;
         Yelp.paginate s limit (Dict.set "offset" (PInt offset) term) (offset + 50)
           (businesses ++ more)
       else ret businesses)).
    apply effects_bind; [apply effects_business_search_endpoint | intros _].
    effects_steps.
    eapply (IH (Yelp.headroom (offset + 50))); [|reflexivity].
    subst n. unfold Yelp.headroom, Yelp.yelp_api_results_max_limit in *. lia.
  - rewrite paginate_stop by lia. revert w. apply effects_ret.
  - rewrite paginate_stop by lia. revert w. apply effects_ret.
Qed.

Lemma effects_yelp_run_term s term :
  effects to_yelp any_row (Yelp.run_term s term).
Proof.
  unfold Yelp.run_term.
  destruct (negb (any_present ["location"; "latitude"; "longitude"] term));
    [apply effects_ret|].
  cbv zeta.
  apply effects_bind; [apply effects_print | intros _].
  apply effects_bind; [apply effects_eval | intros limit].
  apply effects_bind;
    [| intros businesses; apply effects_parse_business_search_json_response].
  assert (Hsingle : effects to_yelp any_row
            (Yelp.business_search_endpoint s term ;;
             response_json <- self_response_json ;;
             found <- eval (Py.getitem response_json "businesses") ;;
             eval (Py.iter found))).
  { apply effects_bind; [apply effects_business_search_endpoint | intros _].
    effects_steps. }
  destruct limit as [l|]; [|exact Hsingle].
  destruct (negb (l =? 0) && (l >? Yelp.limit_max_per_offset));
    [apply effects_paginate | exact Hsingle].
Qed.

Lemma effects_yelp_run s : effects to_yelp any_row (Yelp.run s).
Proof.
  unfold Yelp.run. apply effects_for_each. intros term _.
  apply effects_yelp_run_term.
Qed.

Lemma silent {A} Q (m : M A) w :
  effects no_request Q m ->
  sent (trace (snd (m w))) = sent (trace w) /\ script (snd (m w)) = script w.
Proof.
  intros H. destruct (H w) as ((es & Ht & Hs & Hc) & _).
  assert (sent es = []) as E.
  { destruct (sent es) as [|r l]; [reflexivity|]. inversion Hs as [|? ? []]. }
  rewrite Ht, sent_app, E, app_nil_r. rewrite Hc, E. split; reflexivity.
Qed.

Lemma rowless {A} P (m : M A) w :
  effects P no_row m -> rows (snd (m w)) = rows w.
Proof.
  intros H. destruct (H w) as (_ & (rs & Hr & Hq) & _).
  destruct rs as [|r rs]; [now rewrite app_nil_r in Hr | inversion Hq as [|? ? []]].
Qed.

(** ** Mappings *)

Module DictFacts.

Lemma get_set {V} k k' (v : V) d :
  Dict.get k (Dict.set k' v d) = if String.eqb k' k then Some v else Dict.get k d.
Proof.
  induction d as [|[k0 v0] d IH]; simpl.
  - reflexivity.
  - destruct (String.eqb k0 k') eqn:E0; simpl.
    + apply String.eqb_eq in E0. subst k0. destruct (String.eqb k' k); reflexivity.
    + rewrite IH. destruct (String.eqb k0 k) eqn:E1; [|reflexivity].
      apply String.eqb_eq in E1. subst k0.
      rewrite String.eqb_sym in E0. rewrite E0. reflexivity.
Qed.

Lemma set_set {V} k (v v' : V) d : Dict.set k v (Dict.set k v' d) = Dict.set k v d.
Proof.
  induction d as [|[k0 v0] d IH]; simpl.
  - rewrite String.eqb_refl. reflexivity.
  - destruct (String.eqb k0 k) eqn:E; simpl; rewrite E; [reflexivity|].
    now rewrite IH.
Qed.

Lemma keys_set {V} k (v : V) d k' :
  In k' (Dict.keys (Dict.set k v d)) -> k' = k \/ In k' (Dict.keys d).
Proof.
  induction d as [|[k0 v0] d IH]; simpl.
  - intros [<- | []]. now left.
  - destruct (String.eqb k0 k) eqn:E; simpl.
    + tauto.
    + intros [<- | H]; [right; now left|]. destruct (IH H); tauto.
Qed.

Lemma get_in {V} k (v : V) d : Dict.get k d = Some v -> In (k, v) d.
Proof.
  induction d as [|[k0 v0] d IH]; simpl; [discriminate|].
  destruct (String.eqb k0 k) eqn:E.
  - apply String.eqb_eq in E. intros [= <-]. subst. now left.
  - intros H. right. now apply IH.
Qed.

End DictFacts.

(** ** Calls answered after failed attempts *)

Lemma answered_logs rest x es w :
  answered rest (logs es (answered x w)) = answered rest (logs es w).
Proof.
  revert w. induction es as [|e es IH]; intros w; [reflexivity|].
  cbn [logs fold_left].
  change (log e (answered x w)) with (answered x (log e w)). apply IH.
Qed.

Lemma trace_logs es w : trace (logs es w) = trace w ++ es.
Proof.
  revert w. induction es as [|e es IH]; intros w.
  - cbn. now rewrite app_nil_r.
  - cbn [logs fold_left]. fold (logs es (log e w)). rewrite IH. cbn [trace log].
    now rewrite <- app_assoc.
Qed.

Lemma kept_by_logs es w :
  script (logs es w) = script w /\ rows (logs es w) = rows w
  /\ _response (logs es w) = _response w /\ time (logs es w) = time w
  /\ readings (logs es w) = readings w.
Proof.
  revert w. induction es as [|e es IH]; intros w.
  - repeat split.
  - cbn [logs fold_left]. fold (logs es (log e w)).
    destruct (IH (log e w)) as (-> & -> & -> & -> & ->). repeat split.
Qed.

Lemma sent_retries s req fs :
  sent (retries s req fs ++ [Sleep; Request req]) = resent req fs.
Proof.
  unfold resent. induction fs as [|f fs IH]; [reflexivity|].
  cbn [retries flat_map app sent List.length repeat] in *.
  fold (retries s req fs). now rewrite IH.
Qed.

(** Failures the limit tolerates are retried until the answer comes. *)
Lemma attempts_after_failures s req fs r rest errors w :
  RequestEngine._errors_limit s <= errors
  \/ errors + Z.of_nat (List.length fs) < RequestEngine._errors_limit s ->
  RequestEngine.attempts s req errors (eventually fs r ++ rest) w
  = (Returns r, answered rest (logs (retries s req fs ++ [Sleep; Request req]) w)).
Proof.
  unfold eventually. rewrite <- app_assoc. cbn [app].
  revert errors w. induction fs as [|[cls msg] fs IH]; intros errors w H.
  - reflexivity.
  - cbn [map app failed fst snd RequestEngine.attempts List.length] in *.
    destruct (errors + 1 =? RequestEngine._errors_limit s) eqn:E.
    + apply Z.eqb_eq in E. lia.
    + rewrite IH by lia. f_equal.
      change (log ?e (answered ?x ?w0)) with (answered x (log e w0)).
      rewrite answered_logs. reflexivity.
Qed.

Lemma GET_after_failures s req fs r rest w :
  tolerated (RequestEngine._errors_limit s) fs ->
  script w = eventually fs r ++ rest ->
  RequestEngine.GET s req w
  = (Returns r, answered rest (logs (retries s req fs ++ [Sleep; Request req]) w)).
Proof.
  intros H Hw. unfold RequestEngine.GET. rewrite Hw.
  apply attempts_after_failures. unfold tolerated in H. lia.
Qed.

Lemma business_search_endpoint_answered s query fs r rest w :
  tolerated (Yelp._errors_limit s) fs ->
  script w = eventually fs r ++ rest ->
  exists w1,
    Yelp.business_search_endpoint s query w = (Returns tt, w1)
    /\ sent (trace w1)
       = sent (trace w)
         ++ resent {| via := BUSINESS_SEARCH; url := Yelp.BUSINESS_SEARCH_url;
                      params := query;
                      req_headers := Some (Yelp._headers s);
                      timeout := Some (Yelp._timeout s) |} fs
    /\ script w1 = rest /\ rows w1 = rows w /\ _response w1 = Some r
    /\ time w1 = time w /\ readings w1 = readings w.
Proof.
  intros H Hw. unfold Yelp.business_search_endpoint, bind.
  rewrite (GET_after_failures (Yelp.engine s) _ fs r rest w H Hw).
  cbn [receive]. eexists. split; [reflexivity|].
  cbn [trace script rows _response time readings assign_response answered].
  rewrite trace_logs, sent_app, sent_retries.
  destruct (kept_by_logs (retries (Yelp.engine s)
              {| via := BUSINESS_SEARCH; url := Yelp.BUSINESS_SEARCH_url;
                 params := query; req_headers := Some (Yelp._headers s);
                 timeout := Some (Yelp._timeout s) |} fs
              ++ [Sleep; Request {| via := BUSINESS_SEARCH; url := Yelp.BUSINESS_SEARCH_url;
                 params := query; req_headers := Some (Yelp._headers s);
                 timeout := Some (Yelp._timeout s) |}]) w) as (_ & -> & _ & -> & ->).
  repeat split.
Qed.

(** ** Yelp: the pages of a search *)

(** One turn of the [while] loop whose request is answered, after the
    failures [fs]. *)
Lemma paginate_page s limit term offset businesses w fs r l rest :
  offset < limit -> offset < Yelp.yelp_api_results_max_limit ->
  tolerated (Yelp._errors_limit s) fs ->
  script w = eventually fs r ++ rest -> serves r l ->
  exists w1,
    sent (trace w1)
    = sent (trace w)
      ++ resent {| via := BUSINESS_SEARCH; url := Yelp.BUSINESS_SEARCH_url;
                   params := Dict.set "offset" (PInt offset) term;
                   req_headers := Some (Yelp._headers s);
                   timeout := Some (Yelp._timeout s) |} fs
    /\ script w1 = rest /\ rows w1 = rows w /\ _response w1 = Some r
    /\ time w1 = time w /\ readings w1 = readings w
    /\ Yelp.paginate s limit term offset businesses w
       = match l with
         | [] => (Returns businesses, w1)
         | _ => Yelp.paginate s limit (Dict.set "offset" (PInt offset) term)
                  (offset + 50) (businesses ++ l) w1
         end.
Proof.
  intros Hl Hm Hf Hw (d & J & B).
  rewrite paginate_step by assumption. cbv zeta.
  destruct (business_search_endpoint_answered s
              (Dict.set "offset" (PInt offset) term) fs r rest w Hf Hw)
    as (w1 & E & T & C & R & P & K & N).
  unfold bind at 1. rewrite E.
  unfold bind, emit, self_response_json, bind, self_response.
  cbn [_response log]. rewrite P. cbn [ret]. rewrite J. cbn [eval Py.get]. rewrite B.
  destruct (offset mod 100 =? 0); cbn [emit ret];
    (eexists; repeat apply conj; [| | | | | |
       destruct l; cbn [Py.truthy Py.iter eval ret]; reflexivity ]);
    cbn [trace script rows _response time readings log];
    rewrite ?sent_app; cbn [sent]; rewrite ?app_nil_r; assumption.
Qed.

Lemma run_term_paginated s term limit w :
  any_present ["location"; "latitude"; "longitude"] term = true ->
  Yelp.term_limit_user term = Ok (Some limit) ->
  Yelp.limit_max_per_offset < limit ->
  Yelp.run_term s term w =
    (businesses <-
       Yelp.paginate s limit (Dict.set "limit" (PInt Yelp.limit_max_per_offset) term) 0 [] ;;
     Yelp.parse_business_search_json_response businesses (Yelp.search_term_str term))
      (log (Print (TermLine (Yelp.search_term_str term))) w).
Proof.
  intros Hloc Hlim Hbig. unfold Yelp.run_term. rewrite Hloc. cbn [negb]. cbv zeta.
  unfold bind at 1. cbn [emit]. unfold bind at 1. rewrite Hlim. cbn [eval].
  replace (negb (limit =? 0) && (limit >? Yelp.limit_max_per_offset)) with true.
  - reflexivity.
  - symmetry. apply andb_true_iff. unfold Yelp.limit_max_per_offset in *. split.
    + apply negb_true_iff, Z.eqb_neq. lia.
    + apply Z.gtb_lt. lia.
Qed.

Lemma after_parse businesses str w :
  let w' := snd (Yelp.parse_business_search_json_response businesses str w) in
  sent (trace w') = sent (trace w) /\ script w' = script w.
Proof.
  apply (silent any_row). apply effects_parse_business_search_json_response.
Qed.

Ltac parsed :=
  match goal with
  | |- context [Yelp.parse_business_search_json_response ?b ?q ?x] =>
      destruct (after_parse b q x) as [-> ->]
  end.

(** C2. A Yelp term that asks for 120 results: while the pages hold
    entities, the run calls for the three pages of offsets 0, 50 and 100,
    each with the limit capped at 50, and for no fourth; a page without
    entities is the last one called for, and what follows it in the script
    is left unread.  A call whose attempts fail below the limit of errors
    sends its request again, once per failure, and nothing else. *)
Theorem C2_yelp_pagination_limit_120 :
  forall (s : Yelp.self) (term : Dict.t pyval) (w : world)
         (f0 f1 f2 : list (string * string))
         (r0 r1 r2 : response) (l0 l1 l2 : list pyval) (rest : list attempt),
    any_present ["location"; "latitude"; "longitude"] term = true ->
    Yelp.term_limit_user term = Ok (Some 120) ->
    serves r0 l0 -> serves r1 l1 -> serves r2 l2 ->
    tolerated (Yelp._errors_limit s) f0 ->
    tolerated (Yelp._errors_limit s) f1 ->
    tolerated (Yelp._errors_limit s) f2 ->
    script w = eventually f0 r0 ++ eventually f1 r1 ++ eventually f2 r2 ++ rest ->
    let after := snd (Yelp.run_term s term w) in
    let page := page_request s term in
    (l0 <> [] -> l1 <> [] ->
       sent (trace after)
       = sent (trace w)
         ++ resent (page 0) f0 ++ resent (page 50) f1 ++ resent (page 100) f2
       /\ script after = rest)
    /\ (l0 <> [] -> l1 = [] ->
          sent (trace after)
          = sent (trace w) ++ resent (page 0) f0 ++ resent (page 50) f1
          /\ script after = eventually f2 r2 ++ rest)
    /\ (l0 = [] ->
          sent (trace after) = sent (trace w) ++ resent (page 0) f0
          /\ script after = eventually f1 r1 ++ eventually f2 r2 ++ rest).
Proof.
  intros s term w f0 f1 f2 r0 r1 r2 l0 l1 l2 rest Hloc Hlim S0 S1 S2 F0 F1 F2 Hw
    after page.
  subst after.
  rewrite (run_term_paginated s term 120) by (assumption || reflexivity).
  unfold bind.
  set (w0 := log (Print (TermLine (Yelp.search_term_str term))) w).
  set (t0 := Dict.set "limit" (PInt Yelp.limit_max_per_offset) term).
  destruct (paginate_page s 120 t0 0 [] w0 f0 r0 l0 _ eq_refl eq_refl F0 Hw S0)
    as (w1 & T1 & C1 & _ & _ & _ & _ & E1).
  rewrite E1. clear E1.
  assert (Hp : forall o,
             page o = {| via := BUSINESS_SEARCH; url := Yelp.BUSINESS_SEARCH_url;
                         params := Dict.set "offset" (PInt o) t0;
                         req_headers := Some (Yelp._headers s);
                         timeout := Some (Yelp._timeout s) |}) by reflexivity.
  assert (T0 : sent (trace w0) = sent (trace w)).
  { unfold w0. cbn. rewrite sent_app. cbn. now rewrite app_nil_r. }
  rewrite T0, <- Hp in T1.
  repeat apply conj.
  - intros N0 N1. destruct l0 as [|b0 l0]; [congruence|].
    destruct (paginate_page s 120 (Dict.set "offset" (PInt 0) t0) (0 + 50)
                ([] ++ b0 :: l0) w1 f1 r1 l1 _ eq_refl eq_refl F1 C1 S1)
      as (w2 & T2 & C2 & _ & _ & _ & _ & E2).
    rewrite E2. clear E2. destruct l1 as [|b1 l1]; [congruence|].
    rewrite DictFacts.set_set in *.
    destruct (paginate_page s 120 (Dict.set "offset" (PInt (0 + 50)) t0) (0 + 50 + 50)
                (([] ++ b0 :: l0) ++ b1 :: l1) w2 f2 r2 l2 _ eq_refl eq_refl F2 C2 S2)
      as (w3 & T3 & C3 & _ & _ & _ & _ & E3).
    rewrite E3. clear E3. rewrite DictFacts.set_set in *.
    rewrite <- Hp in T2, T3. rewrite T1 in T2. rewrite T2 in T3.
    destruct l2 as [|b2 l2]; [| rewrite paginate_stop by (cbn; lia)];
      cbn [snd]; parsed; rewrite T3, C3, <- !app_assoc; split; reflexivity.
  - intros N0 ->. destruct l0 as [|b0 l0]; [congruence|].
    destruct (paginate_page s 120 (Dict.set "offset" (PInt 0) t0) (0 + 50)
                ([] ++ b0 :: l0) w1 f1 r1 [] _ eq_refl eq_refl F1 C1 S1)
      as (w2 & T2 & C2 & _ & _ & _ & _ & E2).
    rewrite E2. clear E2. rewrite DictFacts.set_set in *.
    rewrite <- Hp in T2. rewrite T1 in T2. cbn [snd]. parsed.
    rewrite T2, C2, <- !app_assoc; split; reflexivity.
  - intros ->. cbn [snd]. parsed. rewrite T1, C1; split; reflexivity.
Qed.

(** ** Yelp: an answer without [businesses] *)

Lemma paginate_page_missing s limit term offset businesses w fs r d rest :
  offset < limit -> offset < Yelp.yelp_api_results_max_limit ->
  tolerated (Yelp._errors_limit s) fs ->
  script w = eventually fs r ++ rest ->
  json r = PDict d -> Dict.get "businesses" d = None ->
  exists w1,
    sent (trace w1)
    = sent (trace w)
      ++ resent {| via := BUSINESS_SEARCH; url := Yelp.BUSINESS_SEARCH_url;
                   params := Dict.set "offset" (PInt offset) term;
                   req_headers := Some (Yelp._headers s);
                   timeout := Some (Yelp._timeout s) |} fs
    /\ script w1 = rest /\ rows w1 = rows w /\ _response w1 = Some r
    /\ time w1 = time w /\ readings w1 = readings w
    /\ Yelp.paginate s limit term offset businesses w = (Returns businesses, w1).
Proof.
  intros Hl Hm Hf Hw J B.
  rewrite paginate_step by assumption. cbv zeta.
  destruct (business_search_endpoint_answered s
              (Dict.set "offset" (PInt offset) term) fs r rest w Hf Hw)
    as (w1 & E & T & C & R & P & K & N).
  unfold bind at 1. rewrite E.
  unfold bind, emit, self_response_json, bind, self_response.
  cbn [_response log]. rewrite P. cbn [ret]. rewrite J. cbn [eval Py.get]. rewrite B.
  destruct (offset mod 100 =? 0); cbn [emit ret Py.truthy];
    (eexists; repeat apply conj; [| | | | | | reflexivity ]);
    cbn [trace script rows _response time readings log];
    rewrite ?sent_app; cbn [sent]; rewrite ?app_nil_r; assumption.
Qed.

Lemma for_each_raises {A} (x : A) l body w :
  (forall e, fst (body x w) = Raises e ->
   for_each (x :: l) body w = (Raises e, snd (body x w))).
Proof.
  intros e H. simpl. unfold bind. destruct (body x w) as [o w']. simpl in *.
  subst o. reflexivity.
Qed.

Lemma C2_yelp_pagination_limit_120_witness :
  let term := [("location", PStr "Berlin"); ("limit", PStr "120")] in
  let page := page_request sample_yelp term in
  let run todo := snd (Yelp.run_term sample_yelp term (sample_world todo)) in
  let a := Answers (sample_page ["a"]) in
  let b := Answers (sample_page ["b"]) in
  let c := Answers (sample_page ["c"]) in
  let d := Answers (sample_page ["d"]) in
  let none := Answers (sample_page []) in
  let down := Fails "ConnectionError" "unreachable" in
  (sent (trace (run [a; b; c; d])) = [page 0; page 50; page 100]
   /\ script (run [a; b; c; d]) = [d])
  /\ (sent (trace (run [a; none; c; d])) = [page 0; page 50]
      /\ script (run [a; none; c; d]) = [c; d])
  /\ (sent (trace (run [none; b; c; d])) = [page 0]
      /\ script (run [none; b; c; d]) = [b; c; d])
  /\ (sent (trace (run [a; down; down; b; c; d]))
      = [page 0; page 50; page 50; page 50; page 100]
      /\ script (run [a; down; down; b; c; d]) = [d]).
Proof.
  intros term page run a b c d none down.
  assert (S : forall ids,
             serves (sample_page ids) (map (fun id => PDict [("id", PStr id)]) ids)).
  { intros ids. eexists. split; reflexivity. }
  assert (F : forall fs, (List.length fs < 3)%nat -> tolerated 3 fs).
  { intros fs H. right. lia. }
  repeat apply conj.
  - refine (proj1 (proj1 (C2_yelp_pagination_limit_120 sample_yelp term
                            (sample_world [a; b; c; d]) [] [] [] _ _ _ _ _ _ [d]
                            eq_refl eq_refl (S ["a"]) (S ["b"]) (S ["c"])
                            (F [] _) (F [] _) (F [] _) eq_refl)
                     _ _)); cbn; (lia || discriminate).
  - refine (proj2 (proj1 (C2_yelp_pagination_limit_120 sample_yelp term
                            (sample_world [a; b; c; d]) [] [] [] _ _ _ _ _ _ [d]
                            eq_refl eq_refl (S ["a"]) (S ["b"]) (S ["c"])
                            (F [] _) (F [] _) (F [] _) eq_refl)
                     _ _)); cbn; (lia || discriminate).
  - refine (proj1 (proj1 (proj2 (C2_yelp_pagination_limit_120 sample_yelp term
                                   (sample_world [a; none; c; d]) [] [] []
                                   _ _ _ _ _ _ [d]
                                   eq_refl eq_refl (S ["a"]) (S []) (S ["c"])
                                   (F [] _) (F [] _) (F [] _) eq_refl))
                     _ eq_refl)); cbn; (lia || discriminate).
  - refine (proj2 (proj1 (proj2 (C2_yelp_pagination_limit_120 sample_yelp term
                                   (sample_world [a; none; c; d]) [] [] []
                                   _ _ _ _ _ _ [d]
                                   eq_refl eq_refl (S ["a"]) (S []) (S ["c"])
                                   (F [] _) (F [] _) (F [] _) eq_refl))
                     _ eq_refl)); cbn; (lia || discriminate).
  - refine (proj1 (proj2 (proj2 (C2_yelp_pagination_limit_120 sample_yelp term
                                   (sample_world [none; b; c; d]) [] [] []
                                   _ _ _ _ _ _ [d]
                                   eq_refl eq_refl (S []) (S ["b"]) (S ["c"])
                                   (F [] _) (F [] _) (F [] _) eq_refl))
                     eq_refl)); cbn; lia.
  - refine (proj2 (proj2 (proj2 (C2_yelp_pagination_limit_120 sample_yelp term
                                   (sample_world [none; b; c; d]) [] [] []
                                   _ _ _ _ _ _ [d]
                                   eq_refl eq_refl (S []) (S ["b"]) (S ["c"])
                                   (F [] _) (F [] _) (F [] _) eq_refl))
                     eq_refl)); cbn; lia.
  - refine (proj1 (proj1 (C2_yelp_pagination_limit_120 sample_yelp term
                            (sample_world [a; down; down; b; c; d])
                            [] [("ConnectionError", "unreachable");
                                ("ConnectionError", "unreachable")] []
                            _ _ _ _ _ _ [d]
                            eq_refl eq_refl (S ["a"]) (S ["b"]) (S ["c"])
                            (F _ _) (F _ _) (F _ _) eq_refl)
                     _ _)); cbn; (lia || discriminate).
  - refine (proj2 (proj1 (C2_yelp_pagination_limit_120 sample_yelp term
                            (sample_world [a; down; down; b; c; d])
                            [] [("ConnectionError", "unreachable");
                                ("ConnectionError", "unreachable")] []
                            _ _ _ _ _ _ [d]
                            eq_refl eq_refl (S ["a"]) (S ["b"]) (S ["c"])
                            (F _ _) (F _ _) (F _ _) eq_refl)
                     _ _)); cbn; (lia || discriminate).
Defined.

(** ** The retry loop *)

(** C1. With [_errors_limit] 3, two failed attempts followed by an answer
    make [GET] return that answer after three requests; three failed
    attempts make it raise [RequestEngineError] with a message made of the
    class and text of the third failure, after three requests and without
    reading the script any further. *)
Theorem C1_GET_retry_limit_3 :
  forall (name : string) (req : request) (c1 m1 c2 m2 c3 m3 : string)
         (r : response) (rest : list attempt) (w : world),
    let s := {| RequestEngine.class_name := name; RequestEngine._errors_limit := 3 |} in
    let retried :=
      [ Sleep; Request req; Print (ErrorLine (RequestEngine.error_msg s c1 m1));
        Sleep; Request req; Print (ErrorLine (RequestEngine.error_msg s c2 m2));
        Sleep; Request req ] in
    RequestEngine.GET s req
      (answered (Fails c1 m1 :: Fails c2 m2 :: Answers r :: rest) w)
    = (Returns r, answered rest (logs retried w))
    /\ RequestEngine.GET s req
         (answered (Fails c1 m1 :: Fails c2 m2 :: Fails c3 m3 :: rest) w)
       = (Raises (RequestEngineError
                    ("Error(" +++ c3 +++ "). " +++ name +++ ": " +++ m3)),
          answered rest (logs retried w)).
Proof.
  intros. split; reflexivity.
Qed.

(** ** Terms without a locator *)

(** C3 (the code departs from it). The input row that holds only a text
    query gives the Foursquare term [{'query': 'pizza'}]; [run] looks for
    the text query under ['q'], finds no locator and skips the term: no
    request, no row.  The Facebook wrapper, whose column is named ['q'],
    sends the search of the same row. *)
Theorem C3_foursquare_text_query_term_is_skipped :
  forall (errors_limit : Z) (keys : Dict.t string) (id secret date token : string)
         (w : world),
    InputTermsParser.parse_row Foursquare.TERMS_HEADERS
      ["pizza"; ""; ""; ""; ""; ""; ""] = [("query", "pizza")]
    /\ Foursquare.run
         {| Foursquare._errors_limit := errors_limit;
            Foursquare.keys := keys;
            Foursquare._client_id := id;
            Foursquare._client_secret := secret;
            Foursquare._terms := [[("query", "pizza")]];
            Foursquare._term_current_date := date |} w
       = (Returns tt, w)
    /\ InputTermsParser.parse_row Facebook.TERMS_HEADERS
         ["pizza"; ""; ""; ""; ""; ""; ""; ""] = [("q", "pizza")]
    /\ sent (trace (snd (Facebook.run
                           {| Facebook._errors_limit := errors_limit;
                              Facebook.keys := keys;
                              Facebook._access_token := token;
                              Facebook._terms := [[("q", "pizza")]] |}
                           (sample_world [Answers (sample_answer (PDict []))]))))
       = [ {| via := PLACES_SEARCH;
              url := Facebook.PLACES_SEARCH_url;
              params := [("q", PStr "pizza"); ("access_token", PStr token);
                         ("type", PStr "place"); ("limit", PInt 100)];
              req_headers := None;
              timeout := None |} ].
Proof.
  intros. repeat apply conj; reflexivity.
Qed.

(** ** Credentials *)

Module StrFacts.

Lemma prefix_nil s : String.prefix "" s = true.
Proof. destruct s; reflexivity. Qed.

Lemma prefix_rstrip f sub s :
  String.prefix sub (Str.rstrip_with f s) = true -> String.prefix sub s = true.
Proof.
  revert sub. induction s as [|c s IH]; intros sub; simpl; [trivial|].
  destruct sub as [|c' sub]; [reflexivity|].
  destruct (Str.rstrip_with f s) as [|c0 r] eqn:E.
  - destruct (f c); simpl; [discriminate|].
    destruct (Ascii.ascii_dec c' c); [|discriminate].
    destruct sub; [intros _; apply prefix_nil | discriminate].
  - simpl. destruct (Ascii.ascii_dec c' c); [|discriminate]. apply IH.
Qed.

Lemma contains_rstrip f sub s :
  Str.contains sub (Str.rstrip_with f s) = true -> Str.contains sub s = true.
Proof.
  induction s as [|c s IH].
  - trivial.
  - intros H. cbn [Str.contains]. apply orb_true_iff.
    cbn [Str.rstrip_with] in H.
    destruct (Str.rstrip_with f s) as [|c0 r] eqn:E.
    + destruct (f c).
      * left. destruct sub; [reflexivity | discriminate].
      * cbn [Str.contains] in H. apply orb_true_iff in H. destruct H as [H|H].
        -- left. destruct sub as [|c' sub]; [reflexivity|].
           simpl in *. destruct (Ascii.ascii_dec c' c); [|discriminate].
           destruct sub; [apply prefix_nil | discriminate].
        -- right. apply IH. exact H.
    + cbn [Str.contains] in H. apply orb_true_iff in H. destruct H as [H|H].
      * left. destruct sub as [|c' sub]; [reflexivity|].
        simpl in *. destruct (Ascii.ascii_dec c' c); [|discriminate].
        apply (prefix_rstrip f). rewrite E. exact H.
      * right. apply IH. exact H.
Qed.

Lemma contains_lstrip f sub s :
  Str.contains sub (Str.lstrip_with f s) = true -> Str.contains sub s = true.
Proof.
  induction s as [|c s IH]; [trivial|].
  cbn [Str.lstrip_with]. destruct (f c); [|trivial].
  intros H. cbn [Str.contains]. apply orb_true_iff. right. now apply IH.
Qed.

Lemma contains_strip sub s :
  Str.contains sub (Str.strip s) = true -> Str.contains sub s = true.
Proof.
  unfold Str.strip. intros H.
  eapply contains_lstrip, contains_rstrip, H.
Qed.

End StrFacts.

Lemma parse_lines_entries content alias keys_lines keys0 keys :
  KeysParser.parse_lines alias keys_lines keys0 = Ok keys ->
  (forall l, In l keys_lines ->
     exists line, In line (KeysParser.readlines content)
                  /\ Str.startswith line "#" = true
                  /\ Str.contains " = " line = true
                  /\ l = Str.strip (Str.replace "#" "" line)) ->
  (forall k v, Dict.get k keys0 = Some v ->
     (exists line, In line (KeysParser.readlines content)
                   /\ credential_of alias line k v)
     /\ v <> KeysParser.KEY_PLACEHOLDER /\ v <> "") ->
  forall k v, Dict.get k keys = Some v ->
     (exists line, In line (KeysParser.readlines content)
                   /\ credential_of alias line k v)
     /\ v <> KeysParser.KEY_PLACEHOLDER /\ v <> "".
Proof.
  revert keys0. induction keys_lines as [|l rest IH]; intros keys0 Hp Hl H0; simpl in Hp.
  - injection Hp as <-. exact H0.
  - destruct (Str.split " = " l) as [|header [|key [|x xs]]] eqn:Es; try discriminate.
    destruct (Str.contains alias (Str.lower header)
              && negb (String.eqb key KeysParser.KEY_PLACEHOLDER)
              && negb (String.eqb key "")) eqn:Ec.
    + apply (IH _ Hp); [intros; apply Hl; now right|].
      intros k v. rewrite DictFacts.get_set.
      destruct (String.eqb _ k) eqn:Ek; [|apply H0].
      intros [= <-]. apply String.eqb_eq in Ek.
      apply andb_true_iff in Ec. destruct Ec as [Ec Ee].
      apply andb_true_iff in Ec. destruct Ec as [Ea Ep].
      apply negb_true_iff, String.eqb_neq in Ep, Ee.
      destruct (Hl l (or_introl eq_refl)) as (line & Hin & Hs & Hc & ->).
      split; [|split; assumption].
      exists line. split; [assumption|]. repeat split; try assumption.
      exists header. repeat split; [assumption | assumption | now symmetry].
    + apply (IH _ Hp); [intros; apply Hl; now right | exact H0].
Qed.

(** C7. Every entry [k = v] of the mapping [parse_keys] returns comes from a
    line of the file that starts with a hash sign and contains [" = "]: the
    line without hash signs, stripped, splits at [" = "] into a header and
    [v]; the lowercased header contains the alias, and [k] is that header
    with the alias taken out and the underscores at both ends stripped.  No
    [v] is the placeholder or empty. *)
Theorem C7_parse_keys_entries :
  forall (content wrapper_alias : string) (keys : Dict.t string),
    KeysParser.parse_keys content wrapper_alias = Ok keys ->
    forall k v, Dict.get k keys = Some v ->
      (exists line, In line (KeysParser.readlines content)
                    /\ credential_of wrapper_alias line k v)
      /\ v <> KeysParser.KEY_PLACEHOLDER
      /\ v <> "".
Proof.
  intros content alias keys Hp. unfold KeysParser.parse_keys in Hp.
  apply (parse_lines_entries content alias _ _ _ Hp).
  - intros l Hl. unfold KeysParser.KEYS_LINES in Hl.
    apply in_map_iff in Hl. destruct Hl as (line & <- & Hin).
    apply filter_In in Hin. destruct Hin as [Hin Hf].
    apply andb_true_iff in Hf. destruct Hf as [Hs Hc].
    exists line. repeat split; try assumption.
    now apply StrFacts.contains_strip.
  - intros k v H. discriminate.
Qed.

Lemma C7_parse_keys_entries_witness :
  (exists line,
      In line (KeysParser.readlines "# YELP_apikey = abc")
      /\ credential_of "yelp" line "apikey" "abc")
  /\ "abc" <> KeysParser.KEY_PLACEHOLDER
  /\ "abc" <> "".
Proof.
  exact (C7_parse_keys_entries "# YELP_apikey = abc" "yelp" [("apikey", "abc")]
           eq_refl "apikey" "abc" eq_refl).
Defined.

(** ** Terms *)

Module TermFacts.

Lemma in_set {V} (k k' : string) (v v' : V) d :
  In (k', v') (Dict.set k v d) -> (k', v') = (k, v) \/ In (k', v') d.
Proof.
  induction d as [|[k0 v0] d IH]; simpl.
  - intros [H | []]. left. now symmetry.
  - destruct (String.eqb k0 k) eqn:E; simpl.
    + apply String.eqb_eq in E. subst k0. intros [H | H]; [left; now symmetry | tauto].
    + intros [H | H]; [tauto|]. destruct (IH H); tauto.
Qed.

Lemma in_fold_set {V} (items d : Dict.t V) kv :
  In kv (fold_left (fun d kv => Dict.set (fst kv) (snd kv) d) items d) ->
  In kv items \/ In kv d.
Proof.
  revert d. induction items as [|[k v] items IH]; intros d; simpl; [tauto|].
  intros H. destruct (IH _ H) as [H1 | H1]; [tauto|].
  destruct kv as [k' v']. destruct (in_set _ _ _ _ _ H1) as [-> | H2]; tauto.
Qed.

Lemma set_fresh {V} k (v : V) d :
  ~ In k (Dict.keys d) -> Dict.set k v d = d ++ [(k, v)].
Proof.
  induction d as [|[k0 v0] d IH]; simpl; [reflexivity|].
  intros H. destruct (String.eqb k0 k) eqn:E.
  - apply String.eqb_eq in E. tauto.
  - rewrite IH; [reflexivity | tauto].
Qed.

Lemma fold_set_distinct {V} (items d : Dict.t V) :
  NoDup (Dict.keys (d ++ items)) ->
  fold_left (fun d kv => Dict.set (fst kv) (snd kv) d) items d = d ++ items.
Proof.
  revert d. induction items as [|[k v] items IH]; intros d H; simpl.
  - now rewrite app_nil_r.
  - rewrite set_fresh.
    + rewrite IH; rewrite <- app_assoc; [reflexivity | exact H].
    + unfold Dict.keys in *. rewrite map_app in H. simpl in H.
      apply NoDup_remove_2 in H. intros Hin. apply H. apply in_or_app. now left.
Qed.

Lemma keys_combine {V} (l : list string) (r : list V) :
  NoDup l -> NoDup (Dict.keys (combine l r)).
Proof.
  intros H. revert r. induction H as [|k l Hk Hl IH]; intros r; simpl; [constructor|].
  destruct r as [|v r]; simpl; constructor; [|apply IH].
  intros Hin. apply Hk. unfold Dict.keys in Hin. apply in_map_iff in Hin.
  destruct Hin as ([k' v'] & <- & Hin). apply in_combine_l in Hin. exact Hin.
Qed.

Lemma keys_filter {V} (p : string * V -> bool) d :
  NoDup (Dict.keys d) -> NoDup (Dict.keys (filter p d)).
Proof.
  induction d as [|[k v] d IH]; simpl; [trivial|].
  intros H. inversion H as [|? ? Hk Hd]; subst.
  destruct (p (k, v)); simpl; [constructor|]; [|now apply IH | now apply IH].
  intros Hin. apply Hk. unfold Dict.keys in *. apply in_map_iff in Hin.
  destruct Hin as (kv & E & Hin). apply filter_In in Hin.
  apply in_map_iff. exists kv. tauto.
Qed.

Lemma get_distinct {V} k (v : V) d :
  NoDup (Dict.keys d) -> In (k, v) d -> Dict.get k d = Some v.
Proof.
  induction d as [|[k0 v0] d IH]; simpl; [tauto|].
  intros H. inversion H as [|? ? Hk Hd]; subst.
  intros [[= -> ->] | Hin].
  - now rewrite String.eqb_refl.
  - destruct (String.eqb k0 k) eqn:E; [|now apply IH].
    apply String.eqb_eq in E. subst k0. exfalso. apply Hk.
    unfold Dict.keys. apply in_map_iff. now exists (k, v).
Qed.

Lemma get_none {V} k (d : Dict.t V) :
  (forall v, ~ In (k, v) d) -> Dict.get k d = None.
Proof.
  intros H. destruct (Dict.get k d) as [v|] eqn:E; [|reflexivity].
  apply DictFacts.get_in in E. now apply H in E.
Qed.

End TermFacts.

Lemma parse_terms_rows files terms_headers terms term :
  InputTermsParser.parse_terms files terms_headers = Ok terms ->
  In term terms ->
  exists row, term = InputTermsParser.parse_row terms_headers row.
Proof.
  revert terms. induction files as [|file files IH]; intros terms; simpl.
  - intros [= <-] [].
  - unfold InputTermsParser.parse_file. destruct file as [|header data]; [discriminate|].
    cbn [and_then].
    destruct (InputTermsParser.parse_terms files terms_headers) as [more|e];
      [|discriminate].
    cbn [and_then]. intros [= <-] Hin. apply in_app_or in Hin.
    destruct Hin as [Hin | Hin]; [|now apply (IH more)].
    apply in_map_iff in Hin. destruct Hin as (row & <- & _). now exists row.
Qed.

(** C8. The term made from an input row and a list of expected column
    names has no key that starts with [drop_] and no blank value; each of
    its fields is a column of the row; and when the column names are
    distinct, a column that is not dropped is in the term exactly when its
    value is not blank, with that value. *)
Theorem C8_parse_row_drops_and_blanks :
  forall (terms_headers row : list string),
    let term := InputTermsParser.parse_row terms_headers row in
    (forall k, Str.startswith k "drop_" = true -> Dict.get k term = None)
    /\ (forall k v, In (k, v) term ->
          blank v = false
          /\ Str.startswith k "drop_" = false
          /\ In (k, v) (combine terms_headers row))
    /\ (NoDup terms_headers ->
        forall k v, In (k, v) (combine terms_headers row) ->
          Str.startswith k "drop_" = false ->
          Dict.get k term = if blank v then None else Some v).
Proof.
  intros headers row term.
  assert (H2 : forall k v, In (k, v) term ->
          blank v = false /\ Str.startswith k "drop_" = false
          /\ In (k, v) (combine headers row)).
  { intros k v Hin. unfold term, InputTermsParser.parse_row,
      InputTermsParser.filter_empty_values in Hin.
    apply filter_In in Hin. destruct Hin as [Hin Hb]. simpl in Hb.
    unfold Dict.of_items in Hin. apply TermFacts.in_fold_set in Hin.
    destruct Hin as [Hin | []]. apply filter_In in Hin. destruct Hin as [Hin Hd].
    simpl in Hd. unfold blank. 
    repeat split; [now apply negb_true_iff | now apply negb_true_iff | assumption]. }
  repeat apply conj.
  - intros k Hd. apply TermFacts.get_none. intros v Hin.
    destruct (H2 k v Hin) as (_ & Hn & _). congruence.
  - exact H2.
  - intros Hnd k v Hin Hd.
    assert (Hk : NoDup (Dict.keys
               (filter (fun kv => negb (Str.startswith (fst kv) "drop_"))
                  (combine headers row)))).
    { apply TermFacts.keys_filter, TermFacts.keys_combine, Hnd. }
    unfold term, InputTermsParser.parse_row, Dict.of_items.
    rewrite TermFacts.fold_set_distinct by exact Hk. simpl app.
    unfold InputTermsParser.filter_empty_values.
    destruct (blank v) eqn:Eb.
    + apply TermFacts.get_none. intros v' Hin'.
      apply filter_In in Hin'. destruct Hin' as [Hin' Hb']. simpl in Hb'.
      assert (Dict.get k (filter (fun kv => negb (Str.startswith (fst kv) "drop_"))
                            (combine headers row)) = Some v') as E1
          by (now apply TermFacts.get_distinct).
      assert (Dict.get k (filter (fun kv => negb (Str.startswith (fst kv) "drop_"))
                            (combine headers row)) = Some v) as E2.
      { apply TermFacts.get_distinct; [exact Hk|]. apply filter_In. simpl.
        now rewrite Hd. }
      rewrite E1 in E2. injection E2 as ->. unfold blank in Eb. now rewrite Eb in Hb'.
    + apply TermFacts.get_distinct.
      * now apply TermFacts.keys_filter.
      * apply filter_In. simpl. unfold blank in Eb. rewrite Eb. split; [|reflexivity].
        apply filter_In. simpl. now rewrite Hd.
Qed.

Lemma C8_parse_row_drops_and_blanks_witness :
  let term :=
    InputTermsParser.parse_row Facebook.TERMS_HEADERS
      ["cafe"; "x"; " "; "13.4"; ""; "10"; "y"; ""] in
  Dict.get "drop_1" term = None
  /\ blank "cafe" = false
  /\ Dict.get "latitude" term = None
  /\ Dict.get "longitude" term = Some "13.4".
Proof.
  intros term.
  destruct (C8_parse_row_drops_and_blanks Facebook.TERMS_HEADERS
              ["cafe"; "x"; " "; "13.4"; ""; "10"; "y"; ""]) as (H1 & H2 & H3).
  assert (Hnd : NoDup Facebook.TERMS_HEADERS).
  { unfold Facebook.TERMS_HEADERS.
    repeat (constructor; [simpl; intuition discriminate|]). constructor. }
  repeat apply conj.
  - exact (H1 "drop_1" eq_refl).
  - refine (proj1 (H2 "q" "cafe" _)). simpl. tauto.
  - refine (H3 Hnd "latitude" " " _ eq_refl). simpl. tauto.
  - refine (H3 Hnd "longitude" "13.4" _ eq_refl). simpl. tauto.
Defined.

(** ** The report *)

Lemma head_not_blank c s : Str.isspace c = false -> blank (String c s) = false.
Proof.
  intros H. unfold blank, Str.strip. cbn [Str.lstrip_with]. rewrite H.
  cbn [Str.rstrip_with]. rewrite H.
  destruct (Str.rstrip_with Str.isspace s); reflexivity.
Qed.

Lemma uint_head d :
  d <> Decimal.Nil ->
  exists c s, NilEmpty.string_of_uint d = String c s /\ Str.isspace c = false.
Proof.
  destruct d; intros H; try congruence; simpl; eexists; eexists; split; reflexivity.
Qed.

Lemma of_Z_not_blank z : blank (Str.of_Z z) = false.
Proof.
  unfold Str.of_Z. destruct z as [|p|p]; simpl.
  - reflexivity.
  - unfold NilZero.string_of_uint.
    destruct (uint_head (Pos.to_uint p) (DecimalPos.Unsigned.to_uint_nonnil p))
      as (c & s & E & Hc).
    destruct (Pos.to_uint p) eqn:Ep;
      try (rewrite E; now apply head_not_blank).
    now destruct (DecimalPos.Unsigned.to_uint_nonnil p).
  - now apply head_not_blank.
Qed.

Lemma cell_shown ROW h : FileTools.cell ROW h = shown ROW h.
Proof.
  unfold FileTools.cell, shown, FileTools.get_or.
  destruct (Dict.get h ROW) as [v|]; [|reflexivity].
  destruct v as [|b|z|f|s|l|d]; cbn [Py.truthy Py.str Py.repr kept].
  - reflexivity.
  - destruct b; reflexivity.
  - destruct (z =? 0); cbn [negb andb]; [reflexivity|].
    fold (blank (Str.of_Z z)). now rewrite of_Z_not_blank.
  - fold (blank (float_repr f)). reflexivity.
  - fold (blank s). destruct s as [|c s]; [reflexivity|]. reflexivity.
  - destruct l; [reflexivity|]. cbn [andb String.append].
    match goal with |- context [Str.strip ?x] => fold (blank x) end.
    rewrite head_not_blank; reflexivity.
  - destruct d; [reflexivity|]. cbn [andb String.append].
    match goal with |- context [Str.strip ?x] => fold (blank x) end.
    rewrite head_not_blank; reflexivity.
Qed.

(** C4 (amended). [csv_out] writes the header row and then one row per
    record of the buffer, in the order of the buffer; the cell of a column
    is the value the record stores under it when that value counts as true
    (it is not [None], [False], a zero, or an empty string, list or
    mapping) and does not print as a blank string, and the dash
    otherwise. *)
Theorem C4_csv_out_writes_kept_values :
  forall w : world,
    FileTools.csv_out w
    = (Returns tt,
       log (WriteCsv ("output_" +++ utc_name (time w) (readings w) +++ ".csv")
              (map PStr FileTools.CSV_HEADERS
               :: map (fun ROW => map (shown ROW) FileTools.CSV_HEADERS) (rows w)))
         (tick w)).
Proof.
  intros w. unfold FileTools.csv_out, bind, utcnow, DATA_rows, emit.
  cbn [rows tick]. unfold FileTools.written_rows.
  do 4 f_equal. apply map_ext. intros ROW. apply map_ext. intros h.
  apply cell_shown.
Qed.

(** C4 as stated fails: a record whose [RATING] is the number 0, present
    and not blank, is written with the dash in that column. *)
Lemma C4_counterexample_zero_rating :
  let ROW := [("NAME", PStr "Cafe"); ("RATING", PInt 0)] in
  In "RATING" FileTools.CSV_HEADERS
  /\ Dict.get "RATING" ROW = Some (PInt 0)
  /\ blank (Py.str (PInt 0)) = false
  /\ FileTools.cell ROW "RATING" = PStr "-"
  /\ FileTools.cell ROW "RATING" <> PInt 0.
Proof.
  cbv zeta. repeat apply conj; try reflexivity.
  - unfold FileTools.CSV_HEADERS. simpl. tauto.
  - discriminate.
Qed.

(** ** Statements that return *)

Lemma bind_returns {A B} (m : M A) (k : A -> M B) w b w' :
  bind m k w = (Returns b, w') ->
  exists a w1, m w = (Returns a, w1) /\ k a w1 = (Returns b, w').
Proof.
  unfold bind. destruct (m w) as [[a|e|] w1]; try discriminate.
  intros H. now exists a, w1.
Qed.

Lemma eval_returns {A} (r : result A) w a w' :
  eval r w = (Returns a, w') -> r = Ok a /\ w' = w.
Proof. destruct r; simpl; intros [= <- <-]; auto. Qed.

Lemma and_then_ok {A B} (r : result A) (k : A -> result B) b :
  and_then r k = Ok b -> exists a, r = Ok a /\ k a = Ok b.
Proof. destruct r as [a|e]; simpl; [intros H; now exists a | discriminate]. Qed.

Lemma effects_eval_bind {A B} P Q (r : result A) (k : A -> M B) :
  (forall a, r = Ok a -> effects P Q (k a)) -> effects P Q (bind (eval r) k).
Proof.
  intros H. destruct r as [a|e]; intros w.
  - exact (H a eq_refl w).
  - exact (@effects_raise P Q B e w).
Qed.

Module CategoryFacts.

Lemma prefix_append p x : String.prefix p (p +++ x) = true.
Proof.
  induction p as [|c p IH]; simpl.
  - destruct x; reflexivity.
  - destruct (Ascii.ascii_dec c c); [exact IH | congruence].
Qed.

Lemma number_categories_other field l n ROW ROW' k :
  number_categories field l n ROW = Ok ROW' ->
  String.prefix "CATEGORY_" k = false ->
  Dict.get k ROW' = Dict.get k ROW.
Proof.
  revert n ROW. induction l as [|category l IH]; intros n ROW; cbn [number_categories].
  - now intros [= <-].
  - intros H Hk. cbv zeta in H. apply and_then_ok in H. destruct H as (v & _ & H).
    rewrite (IH _ _ H Hk), DictFacts.get_set.
    destruct (String.eqb _ k) eqn:E; [|reflexivity].
    apply String.eqb_eq in E. rewrite <- E, prefix_append in Hk. discriminate.
Qed.

Lemma expand_categories_other field categories ROW ROW' k :
  expand_categories field categories ROW = Ok ROW' ->
  String.prefix "CATEGORY_" k = false ->
  Dict.get k ROW' = Dict.get k ROW.
Proof.
  unfold expand_categories. destruct (Py.truthy categories).
  - intros H. apply and_then_ok in H. destruct H as (l & _ & H).
    now apply (number_categories_other field l 0).
  - now intros [= <-].
Qed.

End CategoryFacts.

(** Take apart a hypothesis [H] that a chain of [let?] ends with [Ok]. *)
Ltac ok_chain H :=
  repeat (cbv beta zeta in H;
          match type of H with
          | and_then _ _ = Ok _ =>
              let v := fresh "v" in
              let E := fresh "E" in
              apply and_then_ok in H; destruct H as (v & E & H)
          end);
  cbv beta zeta in H.

Lemma foursquare_flatten_query c response_json k ROW :
  Foursquare.flatten c response_json k = Ok ROW -> carries k ROW.
Proof.
  unfold Foursquare.flatten, carries. intros H. ok_chain H.
  injection H as <-. rewrite !DictFacts.get_set. cbn [String.eqb Ascii.eqb Bool.eqb].
  match goal with
  | E : expand_categories _ _ _ = Ok _ |- _ =>
      rewrite (CategoryFacts.expand_categories_other _ _ _ _ "QUERY" E eq_refl)
  end.
  reflexivity.
Qed.

Lemma facebook_flatten_query place k ROW :
  Facebook.flatten place k = Ok ROW -> carries k ROW.
Proof.
  unfold Facebook.flatten, carries. intros H. ok_chain H.
  injection H as <-. rewrite !DictFacts.get_set. cbn [String.eqb Ascii.eqb Bool.eqb].
  match goal with
  | E : expand_categories _ _ _ = Ok _ |- _ =>
      rewrite (CategoryFacts.expand_categories_other _ _ _ _ "QUERY" E eq_refl)
  end.
  reflexivity.
Qed.

Lemma keys_enqueue k ts (q : queue) k' :
  In k' (Dict.keys (enqueue k ts q)) -> k' = k \/ In k' (Dict.keys q).
Proof. unfold enqueue. apply DictFacts.keys_set. Qed.

Lemma for_fold_returns {A S} (I : S -> Prop) (l : list A) (body : A -> S -> M S) :
  (forall x acc w acc' w',
      In x l -> I acc -> body x acc w = (Returns acc', w') -> I acc') ->
  forall acc w acc' w',
    I acc -> for_fold l body acc w = (Returns acc', w') -> I acc'.
Proof.
  induction l as [|x l IH]; intros Hb acc w acc' w' Hi; simpl.
  - intros [= <- _]. exact Hi.
  - intros H. apply bind_returns in H. destruct H as (acc1 & w1 & H1 & H2).
    apply (IH (fun y a u a' u' Hy => Hb y a u a' u' (or_intror Hy)) acc1 w1 acc' w');
      [|exact H2].
    apply (Hb x acc w acc1 w1); [now left | exact Hi | exact H1].
Qed.

(** *** Foursquare *)

Lemma effects_venue_search_endpoint Q s term :
  effects (to_search VENUE_SEARCH) Q (Foursquare.venue_search_endpoint s term).
Proof.
  unfold Foursquare.venue_search_endpoint. effects_steps.
  apply effects_GET. reflexivity.
Qed.

Lemma effects_venue_details_endpoint Q s term :
  effects (to_search VENUE_DETAILS) Q (Foursquare.venue_details_endpoint s term).
Proof.
  unfold Foursquare.venue_details_endpoint. effects_steps.
  apply effects_GET. reflexivity.
Qed.

Lemma effects_parse_venues_search_json_response P Q :
  effects P Q Foursquare.parse_venues_search_json_response.
Proof. unfold Foursquare.parse_venues_search_json_response. effects_steps. Qed.

Lemma effects_foursquare_search_term s term q :
  effects (to_search VENUE_SEARCH) no_row (Foursquare.search_term s term q).
Proof.
  unfold Foursquare.search_term.
  destruct (negb (any_present _ term)); [apply effects_ret|].
  apply effects_bind; [apply effects_sleep | intros _].
  apply effects_bind; [apply effects_eval | intros k].
  apply effects_bind; [apply effects_print | intros _].
  cbv zeta. destruct (present _ "foursquare_id").
  - effects_steps.
  - apply effects_bind; [apply effects_venue_search_endpoint | intros _].
    apply effects_bind;
      [apply effects_parse_venues_search_json_response | intros ids].
    effects_steps.
Qed.

Lemma foursquare_search_term_returns s term q w q' w' :
  Foursquare.search_term s term q w = (Returns q', w') ->
  q' = q
  \/ (any_present ["q"; "near"; "latitude"; "longitude"; "foursquare_id"] term = true
      /\ exists k ts, shown_term ["client_id"; "client_secret"] term = Ok k
                      /\ q' = enqueue k ts q).
Proof.
  unfold Foursquare.search_term.
  destruct (any_present _ term) eqn:Ea; cbn [negb].
  2: { intros [= <- _]. now left. }
  intros H. right. split; [reflexivity|].
  apply bind_returns in H. destruct H as (_ & w1 & _ & H).
  apply bind_returns in H. destruct H as (k & w2 & Hk & H).
  apply eval_returns in Hk. destruct Hk as [Hk _].
  apply bind_returns in H. destruct H as (_ & w3 & _ & H).
  cbv zeta in H. exists k. destruct (present _ "foursquare_id").
  - apply bind_returns in H. destruct H as (_ & w4 & _ & H).
    injection H as <- _. eexists. split; [exact Hk | reflexivity].
  - apply bind_returns in H. destruct H as (_ & w4 & _ & H).
    apply bind_returns in H. destruct H as (ids & w5 & _ & H).
    apply bind_returns in H. destruct H as (_ & w6 & _ & H).
    injection H as <- _. eexists. split; [exact Hk | reflexivity].
Qed.

Lemma foursquare_searches_keys s w q w' :
  Foursquare.searches s w = (Returns q, w') ->
  forall k, In k (Dict.keys q) ->
    search_string_of (Foursquare._terms s)
      ["q"; "near"; "latitude"; "longitude"; "foursquare_id"]
      ["client_id"; "client_secret"] k.
Proof.
  unfold Foursquare.searches.
  apply (for_fold_returns
           (fun q => forall k, In k (Dict.keys q) ->
              search_string_of (Foursquare._terms s)
                ["q"; "near"; "latitude"; "longitude"; "foursquare_id"]
                ["client_id"; "client_secret"] k)).
  - intros term acc u acc' u' Hin Hacc Hb k Hk.
    apply in_map_iff in Hin. destruct Hin as (t & <- & Hin).
    apply foursquare_search_term_returns in Hb.
    destruct Hb as [-> | (Ha & k0 & ts & Hs & ->)]; [now apply Hacc|].
    apply keys_enqueue in Hk. destruct Hk as [-> | Hk]; [|now apply Hacc].
    now exists t.
  - intros k [].
Qed.

Lemma effects_parse_venue_details_json_response P k :
  effects P (carries k) (Foursquare.parse_venue_details_json_response k).
Proof.
  unfold Foursquare.parse_venue_details_json_response.
  apply effects_bind; [apply effects_self_response_json | intros response_json].
  apply effects_bind; [apply effects_the_clock | intros c].
  apply effects_eval_bind. intros ROW HROW.
  apply effects_bind; [apply effects_utcnow | intros stamp].
  apply effects_append. unfold carries. rewrite DictFacts.get_set. cbn.
  now apply (foursquare_flatten_query c response_json).
Qed.

Lemma effects_foursquare_details s (q : queue) :
  effects (to_search VENUE_DETAILS)
    (fun ROW => exists k, In k (Dict.keys q) /\ carries k ROW)
    (Foursquare.details s q).
Proof.
  unfold Foursquare.details. apply effects_for_each. intros [k ts] Hin.
  apply effects_for_each. intros term _. unfold Foursquare.detail_term. cbv zeta.
  apply effects_bind; [apply effects_venue_details_endpoint | intros _].
  eapply effects_weaken; [| | apply (effects_parse_venue_details_json_response _ k)].
  - intros r H; exact H.
  - intros ROW H. exists k. split; [|exact H].
    unfold Dict.keys. apply in_map_iff. now exists (k, ts).
Qed.

(** *** Facebook *)

Lemma effects_places_search_endpoint Q s term :
  effects (to_search PLACES_SEARCH) Q (Facebook.places_search_endpoint s term).
Proof.
  unfold Facebook.places_search_endpoint. effects_steps.
  apply effects_GET. reflexivity.
Qed.

Lemma effects_places_info_endpoint Q s term :
  effects (to_search PLACE_INFORMATION) Q (Facebook.places_info_endpoint s term).
Proof.
  unfold Facebook.places_info_endpoint. effects_steps.
  apply effects_GET. reflexivity.
Qed.

Lemma effects_parse_places_details_json_response P Q :
  effects P Q Facebook.parse_places_details_json_response.
Proof. unfold Facebook.parse_places_details_json_response. effects_steps. Qed.

Lemma effects_facebook_search_term s term q :
  effects (to_search PLACES_SEARCH) no_row (Facebook.search_term s term q).
Proof.
  unfold Facebook.search_term.
  destruct (negb (any_present _ term)); [apply effects_ret|].
  apply effects_bind; [apply effects_sleep | intros _].
  apply effects_bind; [apply effects_eval | intros k].
  apply effects_bind; [apply effects_print | intros _].
  cbv zeta. destruct (present _ "facebook_id").
  - effects_steps.
  - apply effects_bind; [apply effects_places_search_endpoint | intros _].
    apply effects_bind;
      [apply effects_parse_places_details_json_response | intros ids].
    effects_steps.
Qed.

Lemma facebook_search_term_returns s term q w q' w' :
  Facebook.search_term s term q w = (Returns q', w') ->
  q' = q
  \/ (any_present ["q"; "latitude"; "longitude"; "facebook_id"] term = true
      /\ exists k ts, shown_term ["access_token"] term = Ok k
                      /\ q' = enqueue k ts q).
Proof.
  unfold Facebook.search_term.
  destruct (any_present _ term) eqn:Ea; cbn [negb].
  2: { intros [= <- _]. now left. }
  intros H. right. split; [reflexivity|].
  apply bind_returns in H. destruct H as (_ & w1 & _ & H).
  apply bind_returns in H. destruct H as (k & w2 & Hk & H).
  apply eval_returns in Hk. destruct Hk as [Hk _].
  apply bind_returns in H. destruct H as (_ & w3 & _ & H).
  cbv zeta in H. exists k. destruct (present _ "facebook_id").
  - apply bind_returns in H. destruct H as (_ & w4 & _ & H).
    injection H as <- _. eexists. split; [exact Hk | reflexivity].
  - apply bind_returns in H. destruct H as (_ & w4 & _ & H).
    apply bind_returns in H. destruct H as (ids & w5 & _ & H).
    apply bind_returns in H. destruct H as (_ & w6 & _ & H).
    injection H as <- _. eexists. split; [exact Hk | reflexivity].
Qed.

Lemma facebook_searches_keys s w q w' :
  Facebook.searches s w = (Returns q, w') ->
  forall k, In k (Dict.keys q) ->
    search_string_of (Facebook._terms s)
      ["q"; "latitude"; "longitude"; "facebook_id"] ["access_token"] k.
Proof.
  unfold Facebook.searches.
  apply (for_fold_returns
           (fun q => forall k, In k (Dict.keys q) ->
              search_string_of (Facebook._terms s)
                ["q"; "latitude"; "longitude"; "facebook_id"] ["access_token"] k)).
  - intros term acc u acc' u' Hin Hacc Hb k Hk.
    apply in_map_iff in Hin. destruct Hin as (t & <- & Hin).
    apply facebook_search_term_returns in Hb.
    destruct Hb as [-> | (Ha & k0 & ts & Hs & ->)]; [now apply Hacc|].
    apply keys_enqueue in Hk. destruct Hk as [-> | Hk]; [|now apply Hacc].
    now exists t.
  - intros k [].
Qed.

Lemma effects_parse_places_info_json_response P k :
  effects P (carries k) (Facebook.parse_places_info_json_response k).
Proof.
  unfold Facebook.parse_places_info_json_response.
  apply effects_bind; [apply effects_self_response_json | intros place].
  apply effects_eval_bind. intros ROW HROW.
  apply effects_bind; [apply effects_utcnow | intros stamp].
  apply effects_append. unfold carries. rewrite DictFacts.get_set. cbn.
  now apply (facebook_flatten_query place).
Qed.

Lemma effects_facebook_details s (q : queue) :
  effects (to_search PLACE_INFORMATION)
    (fun ROW => exists k, In k (Dict.keys q) /\ carries k ROW)
    (Facebook.details s q).
Proof.
  unfold Facebook.details. apply effects_for_each. intros [k ts] Hin.
  apply effects_for_each. intros term _. unfold Facebook.detail_term. cbv zeta.
  apply effects_bind; [apply effects_places_info_endpoint | intros _].
  eapply effects_weaken; [| | apply (effects_parse_places_info_json_response _ k)].
  - intros r H; exact H.
  - intros ROW H. exists k. split; [|exact H].
    unfold Dict.keys. apply in_map_iff. now exists (k, ts).
Qed.

(** *** The two phases *)

Lemma two_phases {S} (search : M S) (detail : S -> M unit) first second
    (Q : S -> row -> Prop) (good : row -> Prop) w :
  effects (to_search first) no_row search ->
  (forall q, effects (to_search second) (Q q) (detail q)) ->
  (forall q w1 ROW, search w = (Returns q, w1) -> Q q ROW -> good ROW) ->
  in_two_phases search first second good w (snd (bind search detail w)).
Proof.
  intros Hs Hd Hg. unfold in_two_phases, bind.
  destruct (Hs w) as ((es1 & T1 & F1 & _) & _).
  pose proof (rowless _ search w Hs) as R1.
  destruct (search w) as [[q|e|] w1] eqn:E; cbn [snd] in *.
  - destruct (Hd q w1) as ((es2 & T2 & F2 & _) & (rs & R2 & F3) & _).
    exists (sent es1), (sent es2), rs. repeat apply conj.
    + rewrite T2, T1, !sent_app, app_assoc. reflexivity.
    + exact F1.
    + exact F2.
    + rewrite R2, R1. reflexivity.
    + eapply Forall_impl; [|exact F3]. intros ROW. now apply (Hg q w1).
    + intros _. exists q, w1. repeat apply conj; [reflexivity | | exact R1].
      rewrite T1, sent_app. reflexivity.
  - exists (sent es1), [], []. repeat apply conj; try constructor.
    + rewrite T1, sent_app, app_nil_r. reflexivity.
    + exact F1.
    + rewrite R1, app_nil_r. reflexivity.
    + intros [H | H]; congruence.
  - exists (sent es1), [], []. repeat apply conj; try constructor.
    + rewrite T1, sent_app, app_nil_r. reflexivity.
    + exact F1.
    + rewrite R1, app_nil_r. reflexivity.
    + intros [H | H]; congruence.
Qed.

(** ** The batch *)

Lemma effects_any {A} P Q (m : M A) : effects P Q m -> effects any_request any_row m.
Proof. apply effects_weaken; intros; exact I. Qed.

Lemma effects_runner_run wrapper : effects any_request any_row (Runner.run wrapper).
Proof.
  destruct wrapper as [s|s|s]; simpl.
  - apply (effects_any _ _ _ (effects_yelp_run s)).
  - unfold Foursquare.run. apply effects_bind.
    + unfold Foursquare.searches. apply effects_for_fold. intros term q.
      apply (effects_any _ _ _ (effects_foursquare_search_term s term q)).
    + intros q. apply (effects_any _ _ _ (effects_foursquare_details s q)).
  - unfold Facebook.run. apply effects_bind.
    + unfold Facebook.searches. apply effects_for_fold. intros term q.
      apply (effects_any _ _ _ (effects_facebook_search_term s term q)).
    + intros q. apply (effects_any _ _ _ (effects_facebook_details s q)).
Qed.

Lemma effects_suite wrapper : effects any_request any_row (Runner.suite wrapper).
Proof.
  unfold Runner.suite.
  apply effects_bind; [destruct (Runner.keys wrapper); effects_steps | intros _].
  apply effects_bind; [apply effects_runner_run | intros _].
  unfold Runner.print_api_stats_from_headers. effects_steps.
Qed.

Lemma guarded_ends_well wrapper w :
  exists es rs, ends_well (Runner.guarded wrapper w) w es rs.
Proof.
  unfold Runner.guarded, ends_well.
  destruct (effects_suite wrapper w) as ((es & T & _ & _) & (rs & R & _) & S & C).
  destruct (Runner.suite wrapper w) as [[[]|e|] w1]; cbn [fst snd] in *.
  - exists es, rs. repeat apply conj; auto.
  - exists (es ++ [Print (handled (Runner.class_of wrapper) e)]), rs.
    destruct e; cbn [emit fst snd log trace rows script time handled];
      rewrite T, <- app_assoc; repeat apply conj; auto.
  - exists es, rs. repeat apply conj; auto.
Qed.

Lemma class_of_construct f c wrapper_class wrapper :
  Runner.construct f c wrapper_class = Ok wrapper ->
  Runner.class_of wrapper = wrapper_class.
Proof.
  destruct wrapper_class; simpl; intros H; apply and_then_ok in H;
    destruct H as (s & _ & [= <-]); reflexivity.
Qed.

Lemma run_class_guarded f wrapper_class wrapper w :
  Runner.construct f (time w) wrapper_class = Ok wrapper ->
  Runner.run_class f wrapper_class w
  = Runner.guarded wrapper
      (log (Print (RunningLine (Runner.__name__ wrapper_class)))
         (assign_response None w)).
Proof.
  intros H. unfold Runner.run_class, Runner.instantiate, bind.
  cbn [the_clock]. rewrite H. reflexivity.
Qed.

Lemma run_class_ends_well f wrapper_class w :
  (exists wrapper, Runner.construct f (time w) wrapper_class = Ok wrapper) ->
  exists es rs,
    ends_well (Runner.run_class f wrapper_class w) w
      (Print (RunningLine (Runner.__name__ wrapper_class)) :: es) rs.
Proof.
  intros (wrapper & H). rewrite (run_class_guarded _ _ _ _ H).
  destruct (guarded_ends_well wrapper
              (log (Print (RunningLine (Runner.__name__ wrapper_class)))
                 (assign_response None w)))
    as (es & rs & O & T & R & C).
  exists es, rs. repeat apply conj; auto.
  rewrite T. cbn. now rewrite <- app_assoc.
Qed.

Lemma classes_end_well f wrapper_classes w :
  (forall c, In c wrapper_classes ->
     exists wrapper, Runner.construct f (time w) c = Ok wrapper) ->
  exists es rs,
    ends_well (for_each wrapper_classes (Runner.run_class f) w) w es rs
    /\ (fst (for_each wrapper_classes (Runner.run_class f) w) = Returns tt ->
        forall c, In c wrapper_classes ->
          In (Print (RunningLine (Runner.__name__ c))) es).
Proof.
  revert w. induction wrapper_classes as [|c l IH]; intros w Hc.
  - exists [], []. cbn. unfold ends_well. cbn. rewrite !app_nil_r.
    repeat apply conj; auto.
  - destruct (run_class_ends_well f c w (Hc c (or_introl eq_refl)))
      as (es & rs & O & T & R & C).
    cbn [for_each]. unfold bind.
    destruct (Runner.run_class f c w) as [o w1]. cbn [fst snd] in *.
    destruct O as [-> | [-> S]].
    + destruct (IH w1) as (es' & rs' & (O' & T' & R' & C') & Hrun).
      { intros c' Hin. rewrite C. apply Hc. now right. }
      exists ((Print (RunningLine (Runner.__name__ c)) :: es) ++ es'), (rs ++ rs').
      split; [repeat apply conj|].
      * exact O'.
      * rewrite T', T, app_assoc. reflexivity.
      * rewrite R', R, app_assoc. reflexivity.
      * congruence.
      * intros Hret c' [<- | Hin]; [now left|].
        apply in_or_app. right. now apply Hrun.
    + exists (Print (RunningLine (Runner.__name__ c)) :: es), rs.
      split; [repeat apply conj; auto | discriminate].
Qed.

Lemma for_each_app {A} (l1 l2 : list A) body w :
  for_each (l1 ++ l2) body w = (for_each l1 body ;; for_each l2 body) w.
Proof.
  revert w. induction l1 as [|x l1 IH]; intros w; simpl.
  - reflexivity.
  - unfold bind. destruct (body x w) as [[[]|e|] w1]; try reflexivity.
    rewrite IH. reflexivity.
Qed.







(** ** Rows *)

Module FlattenFacts.

Lemma of_Z_inj a b : Str.of_Z a = Str.of_Z b -> a = b.
Proof.
  unfold Str.of_Z. intros H.
  assert (N : forall z, Z.to_int z <> Decimal.Pos Decimal.Nil
                        /\ Z.to_int z <> Decimal.Neg Decimal.Nil).
  { intros [|p|p]; simpl; split; try discriminate;
      intros [= E]; now apply (Unsigned.to_uint_nonnil p). }
  apply DecimalZ.to_int_inj.
  assert (Some (Z.to_int a) = Some (Z.to_int b)) as [= E]; [|exact E].
  rewrite <- (NilZero.isi (Z.to_int a)), <- (NilZero.isi (Z.to_int b));
    try apply N. now rewrite H.
Qed.

Lemma append_inj p a b : p +++ a = p +++ b -> a = b.
Proof. induction p as [|c p IH]; simpl; [trivial | intros [= H]; auto]. Qed.

(** The numbered columns after the loop over the categories. *)
Lemma number_categories_columns name l :
  forallb is_object l = true ->
  forall n ROW,
  exists ROW',
    number_categories name l (Z.of_nat n) ROW = Ok ROW'
    /\ (forall col, String.prefix "CATEGORY_" col = false ->
          Dict.get col ROW' = Dict.get col ROW)
    /\ (forall i, (i < n)%nat ->
          Dict.get (category_column i) ROW' = Dict.get (category_column i) ROW)
    /\ (forall i c, nth_error l i = Some (PDict c) ->
          Dict.get (category_column (n + i)) ROW' = Some (field c name))
    /\ (l = [] -> ROW' = ROW).
Proof.
  induction l as [|category l IH]; intros Hl n ROW.
  - exists ROW. cbn. repeat apply conj; auto. intros [|i] c; discriminate.
  - cbn [forallb] in Hl. apply andb_true_iff in Hl. destruct Hl as [Hc Hl].
    destruct category as [| | | | |?|c]; try discriminate.
    cbn [number_categories]. cbv zeta. cbn [Py.get and_then].
    replace (Z.of_nat n + 1) with (Z.of_nat (S n)) by lia.
    destruct (IH Hl (S n)
                (Dict.set ("CATEGORY_" +++ Str.of_Z (Z.of_nat (S n)))
                   (match Dict.get name c with Some x => x | None => PStr "-" end)
                   ROW))
      as (ROW' & E & Ho & Hlow & Hcat & _).
    exists ROW'. repeat apply conj.
    + exact E.
    + intros col Hcol. rewrite (Ho col Hcol), DictFacts.get_set.
      destruct (String.eqb _ col) eqn:Ek; [|reflexivity].
      apply String.eqb_eq in Ek.
      rewrite <- Ek, CategoryFacts.prefix_append in Hcol. discriminate.
    + intros i Hi. rewrite (Hlow i) by lia. rewrite DictFacts.get_set.
      destruct (String.eqb _ (category_column i)) eqn:Ek; [|reflexivity].
      apply String.eqb_eq in Ek. unfold category_column in Ek.
      apply append_inj, of_Z_inj in Ek. lia.
    + intros [|i] c' Hn.
      * injection Hn as <-. rewrite Nat.add_0_r, (Hlow n) by lia.
        rewrite DictFacts.get_set. unfold category_column.
        replace (Z.of_nat n + 1) with (Z.of_nat (S n)) by lia.
        rewrite String.eqb_refl. reflexivity.
      * replace (n + S i)%nat with (S n + i)%nat by lia. now apply Hcat.
    + discriminate.
Qed.

Lemma expand_categories_columns d k name ROW :
  optional d k (is_list_of is_object) = true ->
  exists ROW',
    expand_categories name
      (match Dict.get k d with Some x => x | None => PNone end) ROW = Ok ROW'
    /\ (forall col, String.prefix "CATEGORY_" col = false ->
          Dict.get col ROW' = Dict.get col ROW)
    /\ (forall i c, nth_error (listed d k) i = Some (PDict c) ->
          Dict.get (category_column i) ROW' = Some (field c name))
    /\ (listed d k = [] -> ROW' = ROW).
Proof.
  unfold optional, listed, expand_categories. intros H.
  destruct (Dict.get k d) as [v|].
  - destruct v as [| | | | |l|]; try discriminate. cbn [is_list_of] in H.
    destruct l as [|category l].
    + exists ROW. cbn. repeat apply conj; auto. intros [|i] c; discriminate.
    + cbn [Py.truthy Py.iter and_then].
      destruct (number_categories_columns name (category :: l) H 0 ROW)
        as (ROW' & E & Ho & _ & Hcat & _).
      exists ROW'. repeat apply conj; auto. discriminate.
  - exists ROW. cbn. repeat apply conj; auto. intros [|i] c; discriminate.
Qed.

Lemma dollars_ok d k :
  optional d k is_str = true ->
  dollars (PDict d) k = Ok (dollar_count (field d k)).
Proof.
  unfold optional, dollars, field, FileTools.get_or. cbn [Py.get and_then].
  destruct (Dict.get k d) as [v|]; [|reflexivity].
  destruct v; try discriminate. intros _. cbn [Py.contains and_then dollar_count].
  destruct (Str.contains "$" s); reflexivity.
Qed.

Lemma get2_ok d k1 k2 :
  optional d k1 is_object = true ->
  get2 (PDict d) k1 k2 (PStr "-") = Ok (field2 d k1 k2).
Proof.
  unfold optional, get2, field2. cbn [Py.get and_then].
  destruct (Dict.get k1 d) as [v|]; [|reflexivity].
  destruct v; try discriminate. reflexivity.
Qed.

Lemma get2_object d k1 k2 default :
  optional d k1 is_object = true ->
  exists v,
    get2 (PDict d) k1 k2 default = Ok v
    /\ forall inner x,
         Dict.get k1 d = Some (PDict inner) -> Dict.get k2 inner = Some x -> v = x.
Proof.
  unfold optional, get2. cbn [Py.get and_then].
  destruct (Dict.get k1 d) as [v|].
  - destruct v as [| | | | | |inner]; try discriminate. intros _. cbn [Py.get].
    eexists. split; [reflexivity|]. intros inner' x [= <-] ->. reflexivity.
  - intros _. eexists. split; [reflexivity|]. discriminate.
Qed.

Lemma converted_epoch_ok c v :
  optional v "createdAt"
    (fun t =>
       match t with
       | PInt z => match local_date c z with Ok _ => true | Raise _ => false end
       | PBool _ => false
       | _ => true
       end) = true ->
  Foursquare.converted_epoch c (field v "createdAt") = Ok (created_at_date c v).
Proof.
  unfold optional, field, FileTools.get_or, created_at_date, Foursquare.converted_epoch.
  destruct (Dict.get "createdAt" v) as [t|]; [|reflexivity].
  destruct t; try discriminate; try reflexivity.
  cbn [Py.is_int Py.int and_then]. destruct (local_date c z); [reflexivity | discriminate].
Qed.

Lemma all_str_strings l :
  forallb is_str l = true -> Py.all_str l = Some (strings l).
Proof.
  induction l as [|v l IH]; [reflexivity|]. cbn [forallb].
  intros H. apply andb_true_iff in H. destruct H as [Hv Hl].
  destruct v; try discriminate. cbn. now rewrite IH.
Qed.

Lemma join_ok d k1 k2 :
  optional d k1 (is_object_with (fun l => optional l k2 (is_list_of is_str))) = true ->
  get2 (PDict d) k1 k2 (PStr "-") = Ok (field2 d k1 k2)
  /\ Py.join ", " (field2 d k1 k2) = Ok (joined (field2 d k1 k2)).
Proof.
  unfold optional, get2, field2, field, FileTools.get_or. cbn [Py.get and_then].
  destruct (Dict.get k1 d) as [v|]; [|split; reflexivity].
  destruct v as [| | | | | |inner]; try discriminate. cbn [is_object_with].
  cbn [Py.get]. destruct (Dict.get k2 inner) as [v|]; [|split; reflexivity].
  destruct v as [| | | | |l|]; try discriminate. cbn [is_list_of].
  intros H. split; [reflexivity|]. unfold Py.join. cbn [Py.iter and_then joined].
  now rewrite all_str_strings.
Qed.

Lemma replace_ok d k :
  optional d k is_str = true ->
  Py.replace "+" "" (field d k) = Ok (PStr (Str.replace "+" "" (string_of (field d k)))).
Proof.
  unfold optional, field, FileTools.get_or.
  destruct (Dict.get k d) as [v|]; [|reflexivity].
  destruct v; try discriminate. reflexivity.
Qed.

End FlattenFacts.

(** Name the entries read with the dash as default. *)
Ltac fold_fields :=
  repeat match goal with
         | |- context [match Dict.get ?k ?d with Some x => x | None => PStr "-" end] =>
             change (match Dict.get k d with Some x => x | None => PStr "-" end)
               with (field d k)
         end.

(** Look a column up in a row given by its assignments. *)
Ltac column :=
  repeat first
    [ rewrite DictFacts.get_set; cbn [String.eqb Ascii.eqb Bool.eqb]
    | match goal with
      | Ho : forall col, String.prefix "CATEGORY_" col = false -> _ |- _ =>
          rewrite Ho by reflexivity
      end ];
  try reflexivity.

(** Look up a column [col] known only to start with [CATEGORY_]. *)
Ltac category_column_absent Hcol :=
  repeat (rewrite DictFacts.get_set;
          match goal with
          | |- context [String.eqb ?k ?col] =>
              destruct (String.eqb_spec k col) as [<- | _]; [discriminate Hcol|]
          end);
  try reflexivity.

Lemma yelp_flatten_record b total extracted search_term_str stamp :
  yelp_business b = true ->
  exists ROW,
    Yelp.flatten (PDict b) total extracted search_term_str = Ok ROW
    /\ yelp_record b total extracted search_term_str
         (Dict.set "RUN_TIMESTAMP" (PStr stamp) ROW).
Proof.
  unfold yelp_business. intros H.
  repeat (apply andb_true_iff in H; destruct H as [H ?]).
  unfold Yelp.flatten. cbv zeta. cbn [Py.get and_then].
  match goal with
  | |- context [expand_categories "alias" _ ?ROW0] =>
      destruct (FlattenFacts.expand_categories_columns b "categories" "alias" ROW0 H)
        as (ROWc & E & Ho & Hcats & Hnone)
  end.
  rewrite E. cbn [and_then].
  rewrite FlattenFacts.dollars_ok by assumption. cbn [and_then].
  rewrite !FlattenFacts.get2_ok by assumption. cbn [and_then].
  match goal with
  | Hl : optional b "location" _ = true |- _ =>
      destruct (FlattenFacts.join_ok b "location" "display_address" Hl) as [J1 J2]
  end.
  rewrite J1. cbn [and_then]. rewrite J2. cbn [and_then]. fold_fields.
  rewrite FlattenFacts.replace_ok by assumption. cbn [and_then].
  eexists. split; [reflexivity|].
  unfold yelp_record, passed, Yelp.API_ALIAS. repeat apply conj;
    try (repeat constructor; cbn [fst snd]); try solve [column].
  - intros i c Hn. unfold category_column.
    repeat (rewrite DictFacts.get_set;
            cbn [String.eqb Ascii.eqb Bool.eqb String.append]).
    now apply Hcats.
  - intros Hl col Hcol. rewrite (Hnone Hl). category_column_absent Hcol.
Qed.

Lemma foursquare_flatten_record c v top inner search_term_str stamp :
  foursquare_venue c v = true ->
  Dict.get "response" top = Some (PDict inner) ->
  Dict.get "venue" inner = Some (PDict v) ->
  exists ROW,
    Foursquare.flatten c (PDict top) search_term_str = Ok ROW
    /\ foursquare_record c v search_term_str
         (Dict.set "RUN_TIMESTAMP" (PStr stamp) ROW).
Proof.
  unfold foursquare_venue. intros H Htop Hinner.
  repeat (apply andb_true_iff in H; destruct H as [H ?]).
  unfold Foursquare.flatten. cbv zeta. cbn [Py.getitem and_then].
  rewrite Htop. cbn [Py.getitem and_then]. rewrite Hinner. cbn [Py.get and_then].
  rewrite (FlattenFacts.get2_ok v "contact" "phone") by assumption. cbn [and_then].
  match goal with
  | Hl : optional v "location" _ = true |- _ =>
      destruct (FlattenFacts.join_ok v "location" "formattedAddress" Hl) as [J1 J2];
      assert (Hloc : optional v "location" is_object = true)
        by (revert Hl; unfold optional; destruct (Dict.get "location" v) as [[]|];
            cbn; congruence)
  end.
  rewrite J1. cbn [and_then]. rewrite J2. cbn [and_then].
  rewrite !FlattenFacts.get2_ok by assumption. cbn [and_then].
  match goal with
  | Hc : optional v "categories" _ = true
    |- context [expand_categories "name" _ ?ROW0] =>
      destruct (FlattenFacts.expand_categories_columns v "categories" "name" ROW0 Hc)
        as (ROWc & E & Ho & Hcats & Hnone)
  end.
  rewrite E. cbn [and_then].
  match goal with
  | Hp : optional v "price" is_object = true |- _ =>
      destruct (FlattenFacts.get2_object v "price" "tier" (PDict []) Hp)
        as (tier & -> & Htier)
  end.
  cbn [and_then]. fold_fields.
  rewrite FlattenFacts.converted_epoch_ok by assumption. cbn [and_then].
  eexists. split; [reflexivity|].
  unfold foursquare_record, passed, Foursquare.API_ALIAS. repeat apply conj;
    try (repeat constructor; cbn [fst snd]); try solve [column].
  - intros i c' Hn. unfold category_column.
    repeat (rewrite DictFacts.get_set;
            cbn [String.eqb Ascii.eqb Bool.eqb String.append]).
    now apply Hcats.
  - intros Hl col Hcol. rewrite (Hnone Hl). category_column_absent Hcol.
  - intros p x Hp Hx. column. f_equal. now apply (Htier p x).
Qed.

Lemma facebook_flatten_record p search_term_str stamp :
  facebook_place p = true ->
  exists ROW,
    Facebook.flatten (PDict p) search_term_str = Ok ROW
    /\ facebook_record p search_term_str
         (Dict.set "RUN_TIMESTAMP" (PStr stamp) ROW).
Proof.
  unfold facebook_place. intros H.
  repeat (apply andb_true_iff in H; destruct H as [H ?]).
  unfold Facebook.flatten. cbv zeta. cbn [Py.get and_then].
  rewrite !FlattenFacts.get2_ok by assumption. cbn [and_then].
  match goal with
  | Hc : optional p "category_list" _ = true
    |- context [expand_categories "name" _ ?ROW0] =>
      destruct (FlattenFacts.expand_categories_columns p "category_list" "name" ROW0 Hc)
        as (ROWc & E & Ho & Hcats & Hnone)
  end.
  rewrite E. cbn [and_then].
  rewrite FlattenFacts.dollars_ok by assumption. cbn [and_then]. fold_fields.
  eexists. split; [reflexivity|].
  unfold facebook_record, passed, Facebook.API_ALIAS. repeat apply conj;
    try (repeat constructor; cbn [fst snd]); try solve [column].
  - intros i c' Hn. unfold category_column.
    repeat (rewrite DictFacts.get_set;
            cbn [String.eqb Ascii.eqb Bool.eqb String.append]).
    now apply Hcats.
  - intros Hl col Hcol. rewrite (Hnone Hl). category_column_absent Hcol.
Qed.

(** C5 (amended). Flattening one well-formed entity of a provider appends
    exactly one row.  Each source entry that is there is stored under its
    column: the categories fill [CATEGORY_1], [CATEGORY_2], ... in their
    order, an address list is joined with commas, a price that contains a
    dollar sign is stored as its number of characters, a creation time that
    is an integer is stored as its date.  Each entry that is missing is
    stored as the dash, except that an entity without categories has no
    [CATEGORY_] column in its row; a price without a dollar sign and a
    creation time that is not an integer are stored as the dash, and the
    Facebook wrapper puts an apostrophe before the [ID], missing or not.
    Nothing is said of [PRICE] for a Foursquare venue without a price
    tier. *)
Theorem C5_flatten_well_formed_entities :
  (forall (b d : Dict.t pyval) (r : response) (search_term_str : string) (w : world),
      yelp_business b = true ->
      _response w = Some r -> json r = PDict d ->
      Py.aligns (field d "total") = true ->
      let out := Yelp.parse_business_search_json_response [PDict b] search_term_str w in
      fst out = Returns tt
      /\ exists ROW,
           rows (snd out) = rows w ++ [ROW]
           /\ yelp_record b (field d "total") 1 search_term_str ROW
           /\ Dict.get "RUN_TIMESTAMP" ROW
              = Some (PStr (utc_stamp (time w) (readings w))))
  /\ (forall (v top inner : Dict.t pyval) (r : response) (search_term_str : string)
             (w : world),
         foursquare_venue (time w) v = true ->
         _response w = Some r -> json r = PDict top ->
         Dict.get "response" top = Some (PDict inner) ->
         Dict.get "venue" inner = Some (PDict v) ->
         let out := Foursquare.parse_venue_details_json_response search_term_str w in
         fst out = Returns tt
         /\ exists ROW,
              rows (snd out) = rows w ++ [ROW]
              /\ foursquare_record (time w) v search_term_str ROW
              /\ Dict.get "RUN_TIMESTAMP" ROW
                 = Some (PStr (utc_stamp (time w) (readings w))))
  /\ (forall (p : Dict.t pyval) (r : response) (search_term_str : string) (w : world),
         facebook_place p = true ->
         _response w = Some r -> json r = PDict p ->
         let out := Facebook.parse_places_info_json_response search_term_str w in
         fst out = Returns tt
         /\ exists ROW,
              rows (snd out) = rows w ++ [ROW]
              /\ facebook_record p search_term_str ROW
              /\ Dict.get "RUN_TIMESTAMP" ROW
                 = Some (PStr (utc_stamp (time w) (readings w)))).
Proof.
  repeat apply conj.
  - intros b d r q w Hb Hr Hj Ha out. subst out.
    destruct (yelp_flatten_record b (field d "total") 1 q
                (utc_stamp (time w) (readings w)) Hb) as (ROW & E & Hrec).
    unfold Yelp.parse_business_search_json_response.
    cbn [List.length Z.of_nat Pos.of_succ_nat for_each].
    unfold bind, self_response_json, bind, self_response. rewrite Hr. cbn [ret].
    rewrite Hj. cbn [eval Py.get]. fold_fields. rewrite Ha.
    cbn [emit _response log]. rewrite Hr, Hj. cbn [ret eval Py.get]. fold_fields.
    rewrite E. cbn [eval utcnow append ret fst snd rows append_row tick log time readings].
    split; [reflexivity|]. exists (Dict.set "RUN_TIMESTAMP"
                                     (PStr (utc_stamp (time w) (readings w))) ROW).
    split; [reflexivity | split; [exact Hrec |]].
    rewrite DictFacts.get_set. reflexivity.
  - intros v top inner r q w Hv Hr Hj Ht Hi out. subst out.
    destruct (foursquare_flatten_record (time w) v top inner q
                (utc_stamp (time w) (readings w)) Hv Ht Hi) as (ROW & E & Hrec).
    unfold Foursquare.parse_venue_details_json_response.
    unfold bind, self_response_json, bind, self_response. rewrite Hr. cbn [ret].
    rewrite Hj. cbn [the_clock]. rewrite E.
    cbn [eval utcnow append ret fst snd rows append_row tick log time readings].
    split; [reflexivity|]. exists (Dict.set "RUN_TIMESTAMP"
                                     (PStr (utc_stamp (time w) (readings w))) ROW).
    split; [reflexivity | split; [exact Hrec |]].
    rewrite DictFacts.get_set. reflexivity.
  - intros p r q w Hp Hr Hj out. subst out.
    destruct (facebook_flatten_record p q (utc_stamp (time w) (readings w)) Hp)
      as (ROW & E & Hrec).
    unfold Facebook.parse_places_info_json_response.
    unfold bind, self_response_json, bind, self_response. rewrite Hr. cbn [ret].
    rewrite Hj, E.
    cbn [eval utcnow append ret fst snd rows append_row tick log time readings].
    split; [reflexivity|]. exists (Dict.set "RUN_TIMESTAMP"
                                     (PStr (utc_stamp (time w) (readings w))) ROW).
    split; [reflexivity | split; [exact Hrec |]].
    rewrite DictFacts.get_set. reflexivity.
Qed.

Lemma C5_flatten_well_formed_entities_witness :
  let w := assign_response
             (Some (sample_answer (PDict [("total", PInt 1)]))) (sample_world []) in
  let w' := assign_response
              (Some (sample_answer
                       (PDict [("response", PDict [("venue", PDict sample_venue)])])))
              (sample_world []) in
  (exists ROW,
      rows (snd (Yelp.parse_business_search_json_response
                   [PDict sample_business] "Berlin" w)) = [ROW]
      /\ Dict.get "PRICE" ROW = Some (PInt 2)
      /\ Dict.get "CATEGORY_2" ROW = Some (PStr "tea")
      /\ Dict.get "ADDRESS" ROW = Some (PStr "Main St 1, Berlin")
      /\ Dict.get "LATITUDE" ROW = Some (PStr "-"))
  /\ (exists ROW,
         rows (snd (Foursquare.parse_venue_details_json_response "Bar" w')) = [ROW]
         /\ Dict.get "CREATED_AT_DATE" ROW = Some (PStr "01-03-2019")
         /\ Dict.get "PRICE" ROW = Some (PInt 2)
         /\ Dict.get "PHONE" ROW = Some (PStr "-"))
  /\ (exists ROW,
         rows (snd (Facebook.parse_places_info_json_response "Bar"
                      (assign_response
                         (Some (sample_answer (PDict [("id", PStr "77")])))
                         (sample_world [])))) = [ROW]
         /\ Dict.get "PRICE" ROW = Some (PStr "-")).
Proof.
  intros w w'. repeat apply conj.
  - destruct (proj1 C5_flatten_well_formed_entities sample_business
                [("total", PInt 1)] (sample_answer (PDict [("total", PInt 1)]))
                "Berlin" w eq_refl eq_refl eq_refl eq_refl)
      as (_ & ROW & Hrows & Hrec & _).
    exists ROW. split; [exact Hrows|].
    destruct Hrec as (_ & _ & _ & _ & _ & _ & (Hcat & _) & Hprice & Hlat & _ & Haddr & _).
    repeat apply conj.
    + exact Hprice.
    + exact (Hcat 1%nat [("alias", PStr "tea")] eq_refl).
    + exact Haddr.
    + exact Hlat.
  - destruct (proj1 (proj2 C5_flatten_well_formed_entities) sample_venue
                [("response", PDict [("venue", PDict sample_venue)])]
                [("venue", PDict sample_venue)]
                (sample_answer
                   (PDict [("response", PDict [("venue", PDict sample_venue)])]))
                "Bar" w' eq_refl eq_refl eq_refl eq_refl eq_refl)
      as (_ & ROW & Hrows & Hrec & _).
    exists ROW. split; [exact Hrows|].
    destruct Hrec as (_ & _ & _ & Hphone & _ & _ & _ & _ & _ & _ & Hprice & Hdate).
    repeat apply conj.
    + exact Hdate.
    + exact (Hprice [("tier", PInt 2)] (PInt 2) eq_refl eq_refl).
    + exact Hphone.
  - destruct (proj2 (proj2 C5_flatten_well_formed_entities) [("id", PStr "77")]
                (sample_answer (PDict [("id", PStr "77")])) "Bar"
                (assign_response
                   (Some (sample_answer (PDict [("id", PStr "77")])))
                   (sample_world []))
                eq_refl eq_refl eq_refl)
      as (_ & ROW & Hrows & Hrec & _).
    exists ROW. split; [exact Hrows|].
    destruct Hrec as (_ & _ & _ & _ & _ & _ & _ & Hprice & _). exact Hprice.
Defined.

(** C5 as stated fails on four well-formed entities: a Yelp business
    priced in pound signs gets the dash as [PRICE]; the row of a Yelp
    business without categories has no [CATEGORY_1] entry, so it holds no
    dash there; a Foursquare venue whose creation time is the number
    1551398400.5 gets the dash as [CREATED_AT_DATE]; a Facebook place
    without an id gets an apostrophe and the dash as [ID]. *)
Lemma C5_counterexample_rows :
  (let pounds := String (ascii_of_N 163) (String (ascii_of_N 163) EmptyString) in
   let b := [("id", PStr "pub-1"); ("price", PStr pounds)] in
   yelp_business b = true
   /\ exists ROW,
        Yelp.flatten (PDict b) (PInt 1) 1 "London" = Ok ROW
        /\ Dict.get "PRICE" ROW = Some (PStr "-"))
  /\
  (let b := [("id", PStr "cafe-1"); ("name", PStr "Cafe")] in
   yelp_business b = true
   /\ Dict.get "categories" b = None
   /\ exists ROW,
        Yelp.flatten (PDict b) (PInt 1) 1 "Berlin" = Ok ROW
        /\ Dict.get "CATEGORY_1" ROW = None)
  /\ (let v := [("id", PStr "v1");
                ("createdAt",
                 PFloat {| float_repr := "1551398400.5"; float_nonzero := true;
                           float_trunc := Some 1551398400 |})] in
      foursquare_venue sample_clock v = true
      /\ exists ROW,
           Foursquare.flatten sample_clock
             (PDict [("response", PDict [("venue", PDict v)])]) "Bar" = Ok ROW
           /\ Dict.get "CREATED_AT_DATE" ROW = Some (PStr "-"))
  /\ (let p := [("name", PStr "Bar")] in
      facebook_place p = true
      /\ Dict.get "id" p = None
      /\ exists ROW,
           Facebook.flatten (PDict p) "Bar" = Ok ROW
           /\ Dict.get "ID" ROW = Some (PStr "'-")).
Proof.
  repeat apply conj; try reflexivity; eexists; split; reflexivity.
Qed.

(** * Further properties *)

(** ** [GET]: every way it can end *)

Lemma paced_block req es :
  paced (Sleep :: Request req :: es) = paced es.
Proof. reflexivity. Qed.

(** What [attempts] does with any script: it reads [n] attempts, all but
    the last of them failures, and ends on the last one. *)
Lemma attempts_shape s req todo :
  forall errors w,
    script w = todo ->
    let out := RequestEngine.attempts s req errors todo w in
    exists n es,
      trace (snd out) = trace w ++ es
      /\ sent es = repeat req n
      /\ paced es = true
      /\ script (snd out) = skipn n todo
      /\ (n <= List.length todo)%nat
      /\ forallb is_failure (firstn (pred n) todo) = true
      /\ (rows (snd out) = rows w /\ _response (snd out) = _response w
          /\ time (snd out) = time w /\ readings (snd out) = readings w)
      /\ (errors < RequestEngine._errors_limit s ->
          errors + Z.of_nat n <= RequestEngine._errors_limit s)
      /\ match fst out with
         | Returns r => nth_error todo (pred n) = Some (Answers r) /\ (1 <= n)%nat
         | Raises e =>
             exists cls msg,
               nth_error todo (pred n) = Some (Fails cls msg)
               /\ e = RequestEngineError (RequestEngine.error_msg s cls msg)
               /\ errors + Z.of_nat n = RequestEngine._errors_limit s
               /\ (1 <= n)%nat
         | Stuck => n = List.length todo /\ forallb is_failure todo = true
         end.
Proof.
  induction todo as [|a rest IH]; intros errors w Hw; cbn [RequestEngine.attempts].
  - exists 0%nat, []. cbn. rewrite app_nil_r. repeat apply conj; auto; lia.
  - destruct a as [cls msg | r].
    + destruct (errors + 1 =? RequestEngine._errors_limit s) eqn:E.
      * apply Z.eqb_eq in E. exists 1%nat, [Sleep; Request req].
        cbn [fst snd trace script rows _response time readings answered log
             sent repeat paced skipn List.length pred firstn forallb nth_error].
        rewrite <- app_assoc. repeat apply conj; auto; try lia.
        exists cls, msg. repeat apply conj; auto; lia.
      * apply Z.eqb_neq in E.
        match goal with
        | |- context [RequestEngine.attempts s req ?e rest ?w1] =>
            destruct (IH e w1 eq_refl)
              as (n & es & T & S & Pc & C & L & F & (R & Rs & Tm & Rd) & B & O)
        end.
        exists (Datatypes.S n),
          ([Sleep; Request req; Print (ErrorLine (RequestEngine.error_msg s cls msg))]
             ++ es).
        cbv zeta. rewrite T. cbn [trace log answered]. rewrite <- !app_assoc.
        repeat apply conj; auto.
        -- rewrite sent_app, S. reflexivity.
        -- cbn [List.length]. lia.
        -- cbn [pred]. destruct n as [|n]; [reflexivity|].
           cbn [firstn forallb is_failure andb]. exact F.
        -- intros H. lia.
        -- destruct (fst (RequestEngine.attempts s req _ rest _)) as [r|e|].
           ++ destruct O as [O1 O2]. split; [|lia].
              destruct n as [|n]; [lia|]. exact O1.
           ++ destruct O as (c & m & O1 & O2 & O3 & O4). exists c, m.
              repeat apply conj; auto; try lia.
              destruct n as [|n]; [lia|]. exact O1.
           ++ destruct O as [O1 O2]. subst n. split; [reflexivity|].
              cbn [forallb is_failure andb]. exact O2.
    + exists 1%nat, [Sleep; Request req].
      cbn [fst snd trace script rows _response time readings answered log
           sent repeat paced skipn List.length pred firstn forallb nth_error].
      rewrite <- app_assoc. repeat apply conj; auto; lia.
Qed.

Lemma attempts_failures_to_limit s req fs cls msg rest errors w :
  errors + Z.of_nat (List.length fs) + 1 = RequestEngine._errors_limit s ->
  RequestEngine.attempts s req errors (map failed fs ++ Fails cls msg :: rest) w
  = (Raises (RequestEngineError (RequestEngine.error_msg s cls msg)),
     answered rest (logs (retries s req fs ++ [Sleep; Request req]) w)).
Proof.
  revert errors w. induction fs as [|[c m] fs IH]; intros errors w H.
  - cbn [map app RequestEngine.attempts List.length Z.of_nat] in *.
    replace (errors + 1 =? RequestEngine._errors_limit s) with true
      by (symmetry; apply Z.eqb_eq; lia).
    reflexivity.
  - cbn [map app failed fst snd RequestEngine.attempts List.length] in *.
    destruct (errors + 1 =? RequestEngine._errors_limit s) eqn:E.
    + apply Z.eqb_eq in E. lia.
    + rewrite IH by lia. f_equal.
      change (log ?e (answered ?x ?w0)) with (answered x (log e w0)).
      rewrite answered_logs. reflexivity.
Qed.

(** X1. A call of [GET] whose first attempts fail, fewer of them than the
    limit of errors (or with a limit that is not positive), and whose next
    attempt is answered, returns that answer.  It sleeps before each
    attempt, sends the same request each time, prints one line per failure
    and leaves the rest of the script unread. *)
Theorem GET_returns_after_tolerated_failures :
  forall (s : RequestEngine.self) (req : request) (fs : list (string * string))
         (r : response) (rest : list attempt) (w : world),
    tolerated (RequestEngine._errors_limit s) fs ->
    script w = eventually fs r ++ rest ->
    RequestEngine.GET s req w
    = (Returns r,
       answered rest (logs (retries s req fs ++ [Sleep; Request req]) w)).
Proof.
  intros s req fs r rest w H Hw. unfold RequestEngine.GET. rewrite Hw.
  apply attempts_after_failures. unfold tolerated in H. lia.
Qed.

Lemma GET_returns_after_tolerated_failures_witness :
  let todo := [Fails "Timeout" "late"; Fails "ConnectionError" "down";
               Fails "Timeout" "late"; Answers (sample_page ["a"]);
               Answers (sample_page ["b"])] in
  RequestEngine.GET (sample_engine 4) sample_request (sample_world todo)
  = (Returns (sample_page ["a"]),
     answered [Answers (sample_page ["b"])]
       (logs [Sleep; Request sample_request;
              Print (ErrorLine "Error(Timeout). Yelp__ApiWrapper: late");
              Sleep; Request sample_request;
              Print (ErrorLine "Error(ConnectionError). Yelp__ApiWrapper: down");
              Sleep; Request sample_request;
              Print (ErrorLine "Error(Timeout). Yelp__ApiWrapper: late");
              Sleep; Request sample_request]
          (sample_world todo))).
Proof.
  intros todo.
  refine (GET_returns_after_tolerated_failures (sample_engine 4) sample_request
            [("Timeout", "late"); ("ConnectionError", "down"); ("Timeout", "late")]
            (sample_page ["a"]) [Answers (sample_page ["b"])] (sample_world todo)
            _ eq_refl).
  right. cbn. lia.
Defined.

(** X2. A call of [GET] whose attempts fail as many times as the limit of
    errors raises [RequestEngineError] at the last of them, with the class
    and text of that failure in the message.  That last failure is not
    printed, the failures before it are; the script behind it is left
    unread. *)
Theorem GET_raises_at_errors_limit :
  forall (s : RequestEngine.self) (req : request) (fs : list (string * string))
         (cls msg : string) (rest : list attempt) (w : world),
    Z.of_nat (List.length fs) + 1 = RequestEngine._errors_limit s ->
    script w = map failed fs ++ Fails cls msg :: rest ->
    RequestEngine.GET s req w
    = (Raises (RequestEngineError (RequestEngine.error_msg s cls msg)),
       answered rest (logs (retries s req fs ++ [Sleep; Request req]) w)).
Proof.
  intros s req fs cls msg rest w H Hw. unfold RequestEngine.GET. rewrite Hw.
  apply attempts_failures_to_limit. lia.
Qed.

Lemma GET_raises_at_errors_limit_witness :
  let todo := [Fails "Timeout" "late"; Fails "ConnectionError" "down";
               Answers (sample_page ["a"])] in
  RequestEngine.GET (sample_engine 2) sample_request (sample_world todo)
  = (Raises (RequestEngineError "Error(ConnectionError). Yelp__ApiWrapper: down"),
     answered [Answers (sample_page ["a"])]
       (logs [Sleep; Request sample_request;
              Print (ErrorLine "Error(Timeout). Yelp__ApiWrapper: late");
              Sleep; Request sample_request]
          (sample_world todo))).
Proof.
  intros todo.
  exact (GET_raises_at_errors_limit (sample_engine 2) sample_request
           [("Timeout", "late")] "ConnectionError" "down"
           [Answers (sample_page ["a"])] (sample_world todo) eq_refl eq_refl).
Defined.

(** X3. [GET] raises nothing but [RequestEngineError], and only when the
    limit of errors is positive and that many attempts failed in a row: the
    message names the last of them.  With a limit of zero or below it never
    raises. *)
Theorem GET_raises_only_at_errors_limit :
  forall (s : RequestEngine.self) (req : request) (w : world) (e : exn),
    fst (RequestEngine.GET s req w) = Raises e ->
    let limit := RequestEngine._errors_limit s in
    let last := pred (Z.to_nat limit) in
    0 < limit
    /\ forallb is_failure (firstn last (script w)) = true
    /\ (exists cls msg,
          nth_error (script w) last = Some (Fails cls msg)
          /\ e = RequestEngineError (RequestEngine.error_msg s cls msg))
    /\ script (snd (RequestEngine.GET s req w)) = skipn (Z.to_nat limit) (script w).
Proof.
  intros s req w e H limit last. unfold RequestEngine.GET in *.
  destruct (attempts_shape s req (script w) 0 w eq_refl)
    as (n & es & T & S & Pc & C & L & F & _ & B & O).
  cbv zeta in *. rewrite H in O. destruct O as (cls & msg & O1 & O2 & O3 & O4).
  assert (En : n = Z.to_nat limit) by (unfold limit; lia).
  subst last. rewrite <- En. repeat apply conj; auto.
  - unfold limit. lia.
  - now exists cls, msg.
Qed.

Lemma GET_raises_only_at_errors_limit_witness :
  exists cls msg,
    nth_error sample_outage 2 = Some (Fails cls msg)
    /\ RequestEngineError "Error(Timeout). Yelp__ApiWrapper: late"
       = RequestEngineError (RequestEngine.error_msg (sample_engine 3) cls msg).
Proof.
  exact (proj1 (proj2 (proj2
           (GET_raises_only_at_errors_limit (sample_engine 3) sample_request
              (sample_world sample_outage)
              (RequestEngineError "Error(Timeout). Yelp__ApiWrapper: late")
              eq_refl)))).
Defined.

(** X4. Whatever the network does, a call of [GET] sends one and the same
    request, each time right after a sleep, reads one attempt of the script
    per request, and with a positive limit of errors sends at most that
    many.  When it returns, the answer is the first one of the script, and
    only failures came before it; it touches neither the rows nor the
    clock. *)
Theorem GET_attempts_are_paced_and_bounded :
  forall (s : RequestEngine.self) (req : request) (w : world),
    let out := RequestEngine.GET s req w in
    exists (n : nat) (es : list event),
      trace (snd out) = trace w ++ es
      /\ sent es = repeat req n
      /\ paced es = true
      /\ script (snd out) = skipn n (script w)
      /\ (0 < RequestEngine._errors_limit s ->
          Z.of_nat n <= RequestEngine._errors_limit s)
      /\ forallb is_failure (firstn (pred n) (script w)) = true
      /\ (forall r, fst out = Returns r ->
            nth_error (script w) (pred n) = Some (Answers r))
      /\ (fst out = Stuck ->
            n = List.length (script w) /\ forallb is_failure (script w) = true)
      /\ rows (snd out) = rows w
      /\ time (snd out) = time w
      /\ readings (snd out) = readings w.
Proof.
  intros s req w out. subst out. unfold RequestEngine.GET.
  destruct (attempts_shape s req (script w) 0 w eq_refl)
    as (n & es & T & S & Pc & C & L & F & (R & _ & Tm & Rd) & B & O).
  cbv zeta in *. exists n, es. repeat apply conj; auto.
  - intros r E. rewrite E in O. apply O.
  - intros E. rewrite E in O. exact O.
Qed.
(** ** The report: what is written and what is not *)

Lemma kept_shown ROW h : kept (shown ROW h) = true.
Proof.
  unfold shown. destruct (Dict.get h ROW) as [v|]; [|reflexivity].
  destruct (kept v) eqn:E; [exact E | reflexivity].
Qed.

(** X5. The report [csv_out] writes holds the header row and one row per
    record of the buffer; every row, the header too, has 23 cells, and no
    cell is empty, blank, [None], [False] or zero: a cell holds a value
    that is kept, or the dash. *)
Theorem csv_out_writes_full_rows :
  forall w : world,
    exists (filename : string) (written : list (list pyval)),
      FileTools.csv_out w = (Returns tt, log (WriteCsv filename written) (tick w))
      /\ List.length written = S (List.length (rows w))
      /\ Forall (fun cells => List.length cells = 23%nat
                              /\ forallb kept cells = true) written.
Proof.
  intros w. eexists. eexists. split; [reflexivity|].
  cbn [rows tick]. unfold FileTools.written_rows. split.
  - cbn [List.length]. now rewrite length_map.
  - constructor; [split; reflexivity|].
    apply Forall_forall. intros cells Hin. apply in_map_iff in Hin.
    destruct Hin as (ROW & <- & _). split; [now rewrite length_map|].
    apply forallb_forall. intros c Hc. apply in_map_iff in Hc.
    destruct Hc as (h & <- & _). rewrite cell_shown. apply kept_shown.
Qed.

Lemma cell_set_other ROW k v h :
  k <> h -> FileTools.cell (Dict.set k v ROW) h = FileTools.cell ROW h.
Proof.
  intros H. unfold FileTools.cell, FileTools.get_or. rewrite DictFacts.get_set.
  destruct (String.eqb k h) eqn:E; [|reflexivity].
  apply String.eqb_eq in E. contradiction.
Qed.

Lemma cells_set_other ROW k v :
  ~ In k FileTools.CSV_HEADERS ->
  map (FileTools.cell (Dict.set k v ROW)) FileTools.CSV_HEADERS
  = map (FileTools.cell ROW) FileTools.CSV_HEADERS.
Proof.
  intros H. apply map_ext_in. intros h Hh. apply cell_set_other.
  intros ->. contradiction.
Qed.

Lemma category_column_not_written i :
  (3 <= i)%nat -> ~ In (category_column i) FileTools.CSV_HEADERS.
Proof.
  intros Hi Hin. unfold FileTools.CSV_HEADERS, category_column in Hin.
  cbn [In String.append] in Hin.
  repeat (destruct Hin as [Hin | Hin]; [try discriminate Hin|]); try contradiction.
  all: injection Hin as Hin;
    first [ apply (FlattenFacts.of_Z_inj 1) in Hin
          | apply (FlattenFacts.of_Z_inj 2) in Hin
          | apply (FlattenFacts.of_Z_inj 3) in Hin ]; lia.
Qed.

(** X6. The report has three category columns and no column for the raw
    creation time: what a row stores under [CATEGORY_4] and beyond, or under
    [CREATED_AT], is left out of the row [csv_out] writes for it. *)
Theorem csv_out_leaves_out_later_categories :
  forall (ROW : row) (v : pyval) (i : nat),
    (3 <= i)%nat ->
    map (FileTools.cell (Dict.set (category_column i) v ROW)) FileTools.CSV_HEADERS
    = map (FileTools.cell ROW) FileTools.CSV_HEADERS
    /\ map (FileTools.cell (Dict.set "CREATED_AT" v ROW)) FileTools.CSV_HEADERS
       = map (FileTools.cell ROW) FileTools.CSV_HEADERS.
Proof.
  intros ROW v i Hi. split; apply cells_set_other.
  - now apply category_column_not_written.
  - unfold FileTools.CSV_HEADERS. cbn [In]. intuition discriminate.
Qed.

Lemma csv_out_leaves_out_later_categories_witness :
  let ROW := [("NAME", PStr "Cafe"); ("CATEGORY_1", PStr "coffee")] in
  map (FileTools.cell (Dict.set "CATEGORY_4" (PStr "tea") ROW)) FileTools.CSV_HEADERS
  = map (FileTools.cell ROW) FileTools.CSV_HEADERS.
Proof.
  intros ROW.
  refine (proj1 (csv_out_leaves_out_later_categories ROW (PStr "tea") 3 _)). lia.
Defined.
(** ** Credentials: lines that do not split in two, lines that repeat *)

Lemma parse_lines_outcome alias lines :
  forall keys,
    match KeysParser.parse_lines alias lines keys with
    | Ok _ => forallb two_pieces lines = true
    | Raise e => e = ValueError /\ forallb two_pieces lines = false
    end.
Proof.
  induction lines as [|l lines IH]; intros keys; cbn [KeysParser.parse_lines forallb].
  - reflexivity.
  - replace (two_pieces l) with (List.length (Str.split " = " l) =? 2)%nat
      by reflexivity.
    destruct (Str.split " = " l) as [|header [|key [|x xs]]]; cbn [List.length Nat.eqb andb];
      try (split; reflexivity).
    match goal with |- context [if ?b then _ else _] => destruct b end; apply IH.
Qed.

(** X7. [parse_keys] raises [ValueError], for every alias alike, exactly when
    one of the lines it reads does not split at [" = "] into two pieces --
    a line such as [# a = b = c], or [# = b], whose header is empty; it
    raises nothing else. *)
Theorem parse_keys_raises_on_lines_not_in_two_pieces :
  forall (content wrapper_alias : string),
    match KeysParser.parse_keys content wrapper_alias with
    | Ok _ => forallb two_pieces (KeysParser.KEYS_LINES content) = true
    | Raise e =>
        e = ValueError
        /\ forallb two_pieces (KeysParser.KEYS_LINES content) = false
    end.
Proof.
  intros content alias. unfold KeysParser.parse_keys. apply parse_lines_outcome.
Qed.

Lemma parse_lines_app alias l1 l2 keys :
  KeysParser.parse_lines alias (l1 ++ l2) keys
  = let? keys1 := KeysParser.parse_lines alias l1 keys in
    KeysParser.parse_lines alias l2 keys1.
Proof.
  revert keys. induction l1 as [|l l1 IH]; intros keys; cbn [app KeysParser.parse_lines].
  - reflexivity.
  - destruct (Str.split " = " l) as [|header [|key [|x xs]]]; try reflexivity.
    match goal with |- context [if ?b then _ else _] => destruct b end; apply IH.
Qed.

(** Lines that store nothing under [k] leave its entry as it is. *)
Lemma parse_lines_keeps alias k lines :
  forall keys keys',
    KeysParser.parse_lines alias lines keys = Ok keys' ->
    Forall (fun l => forall header key,
              Str.split " = " l = [header; key] -> key_name alias header <> k) lines ->
    Dict.get k keys' = Dict.get k keys.
Proof.
  induction lines as [|l lines IH]; intros keys keys' H Hl; cbn [KeysParser.parse_lines] in H.
  - now injection H as <-.
  - inversion Hl as [|? ? Hhead Htail]; subst.
    destruct (Str.split " = " l) as [|header [|key [|x xs]]]; try discriminate.
    match type of H with context [if ?b then _ else _] => destruct b end.
    + rewrite (IH _ _ H Htail), DictFacts.get_set.
      destruct (String.eqb _ k) eqn:E; [|reflexivity].
      apply String.eqb_eq in E. now apply (Hhead header key eq_refl) in E.
    + now apply IH.
Qed.

(** X8. When several lines give a key under the same name, the last of them
    counts: a line that splits into a header of the alias and a key that is
    neither empty nor the placeholder sets the entry of its name, whatever
    the lines before it held, and lines of other names after it leave it
    alone. *)
Theorem parse_keys_last_line_of_a_name_counts :
  forall (content wrapper_alias : string) (before after : list string)
         (line header key : string) (keys : Dict.t string),
    KeysParser.KEYS_LINES content = before ++ line :: after ->
    Str.split " = " line = [header; key] ->
    Str.contains wrapper_alias (Str.lower header) = true ->
    key <> KeysParser.KEY_PLACEHOLDER -> key <> "" ->
    Forall (fun l => forall header' key',
              Str.split " = " l = [header'; key'] ->
              key_name wrapper_alias header' <> key_name wrapper_alias header)
      after ->
    KeysParser.parse_keys content wrapper_alias = Ok keys ->
    Dict.get (key_name wrapper_alias header) keys = Some key.
Proof.
  intros content alias before after line header key keys E Hs Ha Hp He Hafter H.
  unfold KeysParser.parse_keys in H. rewrite E, parse_lines_app in H.
  apply and_then_ok in H. destruct H as (keys1 & _ & H).
  cbn [KeysParser.parse_lines] in H. rewrite Hs, Ha in H.
  apply String.eqb_neq in Hp, He. rewrite Hp, He in H. cbn [negb andb] in H.
  rewrite (parse_lines_keeps _ _ _ _ _ H Hafter).
  unfold key_name. rewrite DictFacts.get_set, String.eqb_refl. reflexivity.
Qed.

Lemma parse_keys_last_line_of_a_name_counts_witness :
  let content :=
    "# yelp_apikey = old" +++ KeysParser.newline +++
    "# yelp_apikey = new" +++ KeysParser.newline +++
    "# facebook_access_token = t" in
  KeysParser.parse_keys content "yelp" = Ok [("apikey", "new")]
  /\ Dict.get "apikey" [("apikey", "new")] = Some "new".
Proof.
  intros content. split; [reflexivity|].
  refine (parse_keys_last_line_of_a_name_counts content "yelp"
            ["yelp_apikey = old"] ["facebook_access_token = t"]
            "yelp_apikey = new" "yelp_apikey" "new" [("apikey", "new")]
            eq_refl eq_refl eq_refl _ _ _ eq_refl).
  - discriminate.
  - discriminate.
  - constructor; [|constructor]. intros h k [= <- <-]. discriminate.
Defined.
(** ** Input files: which are read, and what they give *)

Lemma endswith_suffix s suffix :
  Str.endswith s suffix = true <-> exists title, s = title +++ suffix.
Proof.
  split.
  - induction s as [|c s IH]; cbn [Str.endswith]; intros H.
    + rewrite orb_false_r in H. apply String.eqb_eq in H. now exists "".
    + apply orb_true_iff in H. destruct H as [H | H].
      * apply String.eqb_eq in H. now exists "".
      * destruct (IH H) as (title & ->). now exists (String c title).
  - intros (title & ->). induction title as [|c title IH]; cbn [String.append].
    + destruct suffix; cbn [Str.endswith]; now rewrite String.eqb_refl.
    + cbn [Str.endswith]. rewrite IH. apply orb_true_r.
Qed.

(** X9. The files read for terms are the names of the directory of the form
    [<title>_input.csv], in the order of the listing; the default file
    [_input.csv], which [main] creates when it is missing, is one of
    them. *)
Theorem INPUT_FILES_are_the_names_with_the_suffix :
  forall (listdir : list string),
    (forall f, In f (InputTermsParser.INPUT_FILES listdir)
               <-> In f listdir /\ exists title, f = title +++ "_input.csv")
    /\ (forall l1 l2, listdir = l1 ++ l2 ->
          InputTermsParser.INPUT_FILES listdir
          = InputTermsParser.INPUT_FILES l1 ++ InputTermsParser.INPUT_FILES l2)
    /\ (In Runner.default_input_filename listdir ->
        In Runner.default_input_filename (InputTermsParser.INPUT_FILES listdir)).
Proof.
  intros listdir. repeat apply conj.
  - intros f. unfold InputTermsParser.INPUT_FILES. rewrite filter_In.
    now rewrite endswith_suffix.
  - intros l1 l2 ->. apply filter_app.
  - intros H. apply filter_In. split; [exact H | reflexivity].
Qed.

Lemma parse_terms_flat files headers :
  InputTermsParser.parse_terms files headers
  = if existsb no_rows files then Raise StopIteration
    else Ok (flat_map
               (fun csv_data =>
                  map (InputTermsParser.parse_row headers) (data_rows csv_data))
               files).
Proof.
  induction files as [|file files IH].
  - reflexivity.
  - cbn [InputTermsParser.parse_terms existsb flat_map].
    destruct file as [|header data]; [reflexivity|].
    cbn [InputTermsParser.parse_file and_then no_rows orb]. rewrite IH.
    destruct (existsb no_rows files); reflexivity.
Qed.

(** X10. [parse_terms] gives, file after file and row after row, the term
    of every row that is not empty, the first row of each file left out;
    when one of the files has no row at all it raises [StopIteration],
    whatever the other files hold, and it raises nothing else. *)
Theorem parse_terms_reads_the_rows_of_all_files :
  forall (INPUT_FILES : list InputTermsParser.csv_file) (terms_headers : list string),
    InputTermsParser.parse_terms INPUT_FILES terms_headers
    = if existsb no_rows INPUT_FILES then Raise StopIteration
      else Ok (flat_map
                 (fun csv_data =>
                    map (InputTermsParser.parse_row terms_headers) (data_rows csv_data))
                 INPUT_FILES).
Proof.
  intros files headers. apply parse_terms_flat.
Qed.
(** ** The requests of the Yelp wrapper *)

Lemma effects_paginate_pages Q s term limit t offset businesses :
  Yelp.term_limit_user term = Ok (Some limit) ->
  Yelp.limit_max_per_offset < limit ->
  0 <= offset -> offset mod 50 = 0 ->
  (forall o, Dict.set "offset" (PInt o) t
             = Dict.set "offset" (PInt o)
                 (Dict.set "limit" (PInt Yelp.limit_max_per_offset) term)) ->
  effects (yelp_request_for s term) Q (Yelp.paginate s limit t offset businesses).
Proof.
  intros Hlim Hbig.
  remember (Yelp.headroom offset) as n eqn:Hn.
  revert t offset businesses Hn.
  induction n as [n IH] using lt_wf_ind. intros t offset businesses Hn H0 H50 Ht w.
  destruct (Z_lt_dec offset limit) as [Hl|Hl];
    [destruct (Z_lt_dec offset Yelp.yelp_api_results_max_limit) as [Hm|Hm]|].
  - rewrite paginate_step by assumption. revert w.
    change (effects (yelp_request_for s term) Q
      (Yelp.business_search_endpoint s (Dict.set "offset" (PInt offset) t) ;;
       emit Sleep ;;
       response_json <- self_response_json ;;
       page <- eval (Py.get response_json "businesses" (PList [])) ;;
       (if offset mod 100 =? 0 then emit (Print (OffsetLine offset)) else ret tt) ;;
       if Py.truthy page then
         more <- eval (Py.iter page) ;;
         Yelp.paginate s limit (Dict.set "offset" (PInt offset) t) (offset + 50)
           (businesses ++ more)
       else ret businesses)).
    apply effects_bind.
    { unfold Yelp.business_search_endpoint. effects_steps. apply effects_GET.
      right. exists limit, offset. rewrite Ht. repeat apply conj; auto; lia. }
    intros _. effects_steps.
    eapply (IH (Yelp.headroom (offset + 50))); try reflexivity.
    + subst n. unfold Yelp.headroom, Yelp.yelp_api_results_max_limit in *. lia.
    + lia.
    + rewrite <- Z.add_mod_idemp_l by lia. rewrite H50. reflexivity.
    + intros o. rewrite DictFacts.set_set. apply Ht.
  - rewrite paginate_stop by lia. revert w. apply effects_ret.
  - rewrite paginate_stop by lia. revert w. apply effects_ret.
Qed.

Lemma effects_yelp_requests s term :
  effects (yelp_request_for s term) any_row (Yelp.run_term s term).
Proof.
  unfold Yelp.run_term.
  destruct (negb (any_present ["location"; "latitude"; "longitude"] term));
    [apply effects_ret|].
  cbv zeta.
  apply effects_bind; [apply effects_print | intros _].
  apply effects_eval_bind. intros limit Hlimit.
  apply effects_bind;
    [| intros businesses; apply effects_parse_business_search_json_response].
  assert (Hsingle : effects (yelp_request_for s term) any_row
            (Yelp.business_search_endpoint s term ;;
             response_json <- self_response_json ;;
             found <- eval (Py.getitem response_json "businesses") ;;
             eval (Py.iter found))).
  { apply effects_bind.
    - unfold Yelp.business_search_endpoint. effects_steps. apply effects_GET.
      now left.
    - intros _. effects_steps. }
  destruct limit as [l|]; [|exact Hsingle].
  destruct (negb (l =? 0) && (l >? Yelp.limit_max_per_offset)) eqn:E;
    [|exact Hsingle].
  apply andb_true_iff in E. destruct E as [_ E]. apply Z.gtb_lt in E.
  apply (effects_paginate_pages any_row s term l); auto; reflexivity.
Qed.

(** X11. Every request the Yelp wrapper sends is made for one of its terms
    and carries the wrapper's [Authorization] header and its time limit.
    It is the search for the term as read or, when the term asks for more
    than 50 results, a page of 50 at an offset that is a multiple of 50,
    below the number asked for and below 1000: the wrapper never asks for
    results past the ceiling of the API. *)
Theorem yelp_requests_stay_within_the_limits :
  forall (s : Yelp.self) (w : world),
    exists es,
      trace (snd (Yelp.run s w)) = trace w ++ es
      /\ requests_all
           (fun r => exists t, In t (Yelp._terms s)
                               /\ yelp_request_for s (as_params t) r) es.
Proof.
  intros s w.
  assert (H : effects (fun r => exists t, In t (Yelp._terms s)
                                 /\ yelp_request_for s (as_params t) r)
                any_row (Yelp.run s)).
  { unfold Yelp.run. apply effects_for_each. intros term Hin.
    apply in_map_iff in Hin. destruct Hin as (t & <- & Hin).
    eapply effects_weaken; [| | apply effects_yelp_requests].
    - intros r Hr. now exists t.
    - auto. }
  destruct (H w) as ((es & T & F & _) & _). now exists es.
Qed.
(** ** The requests of the Foursquare and Facebook wrappers *)

Lemma get_remove_other {V} k k' (d : Dict.t V) :
  k <> k' -> Dict.get k (Dict.remove k' d) = Dict.get k d.
Proof.
  intros H. induction d as [|[k0 v0] d IH]; cbn [Dict.remove Dict.get]; [reflexivity|].
  destruct (String.eqb k0 k') eqn:E'.
  - apply String.eqb_eq in E'. subst k0.
    destruct (String.eqb k' k) eqn:E; [|reflexivity].
    apply String.eqb_eq in E. congruence.
  - cbn [Dict.get]. destruct (String.eqb k0 k); [reflexivity | exact IH].
Qed.

Lemma get_set_other {V} k k' (v : V) d :
  k <> k' -> Dict.get k (Dict.set k' v d) = Dict.get k d.
Proof.
  intros H. rewrite DictFacts.get_set.
  destruct (String.eqb k' k) eqn:E; [|reflexivity].
  apply String.eqb_eq in E. congruence.
Qed.

Lemma get_set_same {V} k (v : V) d : Dict.get k (Dict.set k v d) = Some v.
Proof. now rewrite DictFacts.get_set, String.eqb_refl. Qed.

Lemma get_merge_coordinates_other key term k :
  k <> key -> k <> "latitude" -> k <> "longitude" ->
  Dict.get k (merge_coordinates key term) = Dict.get k term.
Proof.
  intros H1 H2 H3. unfold merge_coordinates.
  destruct (present term "latitude" && present term "longitude"); [|reflexivity].
  cbv zeta. now rewrite get_set_other, !get_remove_other by assumption.
Qed.

Lemma present_merge_coordinates_other key term k :
  k <> key -> k <> "latitude" -> k <> "longitude" ->
  present (merge_coordinates key term) k = present term k.
Proof.
  intros. unfold present. now rewrite get_merge_coordinates_other.
Qed.

Lemma pop_ok key term v rest :
  pop key term = Ok (v, rest) ->
  Dict.get key term = Some v /\ rest = Dict.remove key term.
Proof.
  unfold pop. destruct (Dict.get key term) as [x|]; [|discriminate].
  intros [= <- <-]. split; reflexivity.
Qed.

Lemma foursquare_credentials_update s term :
  foursquare_credentials s (Foursquare._update_term_credentials s term).
Proof.
  unfold foursquare_credentials, Foursquare._update_term_credentials. cbv zeta.
  repeat apply conj.
  - rewrite !get_set_other by discriminate. apply get_set_same.
  - rewrite get_set_other by discriminate. apply get_set_same.
  - apply get_set_same.
Qed.

Lemma effects_foursquare_search_requests s term q :
  effects (foursquare_request s) no_row (Foursquare.search_term s term q).
Proof.
  unfold Foursquare.search_term.
  destruct (negb (any_present _ term)); [apply effects_ret|].
  apply effects_bind; [apply effects_sleep | intros _].
  apply effects_bind; [apply effects_eval | intros k].
  apply effects_bind; [apply effects_print | intros _].
  cbv zeta. destruct (present _ "foursquare_id").
  - effects_steps.
  - apply effects_bind.
    + unfold Foursquare.venue_search_endpoint. effects_steps. apply effects_GET.
      unfold foursquare_request. cbn [params req_headers timeout via url].
      destruct (foursquare_credentials_update s term) as (C1 & C2 & C3).
      repeat apply conj; try reflexivity;
        rewrite get_merge_coordinates_other by discriminate; assumption.
    + intros _.
      apply effects_bind;
        [apply effects_parse_venues_search_json_response | intros ids].
      effects_steps.
Qed.

Lemma effects_foursquare_detail_requests s (q : queue) :
  effects (foursquare_request s) any_row (Foursquare.details s q).
Proof.
  unfold Foursquare.details. apply effects_for_each. intros [k ts] Hin.
  apply effects_for_each. intros term _. unfold Foursquare.detail_term. cbv zeta.
  apply effects_bind.
  - unfold Foursquare.venue_details_endpoint.
    apply effects_eval_bind. intros [id rest] Hpop.
    apply pop_ok in Hpop. destruct Hpop as [_ ->].
    effects_steps. apply effects_GET.
    unfold foursquare_request. cbn [params req_headers timeout via url fst snd].
    destruct (foursquare_credentials_update s term) as (C1 & C2 & C3).
    repeat apply conj; try reflexivity; try (eexists; reflexivity);
      rewrite get_remove_other by discriminate; assumption.
  - intros _.
    eapply effects_weaken;
      [| | apply (effects_parse_venue_details_json_response (foursquare_request s) k)];
      [auto | intros; exact I].
Qed.

Lemma effects_facebook_search_requests s term q :
  effects (facebook_request s) no_row (Facebook.search_term s term q).
Proof.
  unfold Facebook.search_term.
  destruct (negb (any_present _ term)); [apply effects_ret|].
  apply effects_bind; [apply effects_sleep | intros _].
  apply effects_bind; [apply effects_eval | intros k].
  apply effects_bind; [apply effects_print | intros _].
  cbv zeta. destruct (present _ "facebook_id").
  - effects_steps.
  - apply effects_bind.
    + unfold Facebook.places_search_endpoint. effects_steps. apply effects_GET.
      unfold facebook_request, Facebook._update_term_credentials.
      cbn [params req_headers timeout via url].
      rewrite !get_merge_coordinates_other, present_merge_coordinates_other
        by discriminate.
      destruct (present (Dict.set "type" _ _) "limit") eqn:El; cbn [negb];
        repeat apply conj; auto;
        try (rewrite ?get_set_other by discriminate; apply get_set_same).
      unfold present. now rewrite get_set_same.
    + intros _.
      apply effects_bind;
        [apply effects_parse_places_details_json_response | intros ids].
      effects_steps.
Qed.

Lemma effects_facebook_detail_requests s (q : queue) :
  effects (facebook_request s) any_row (Facebook.details s q).
Proof.
  unfold Facebook.details. apply effects_for_each. intros [k ts] Hin.
  apply effects_for_each. intros term _. unfold Facebook.detail_term. cbv zeta.
  apply effects_bind.
  - unfold Facebook.places_info_endpoint.
    apply effects_eval_bind. intros [id rest] Hpop.
    apply pop_ok in Hpop. destruct Hpop as [_ ->].
    effects_steps. apply effects_GET.
    unfold facebook_request, Facebook._update_term_credentials.
    cbn [params req_headers timeout via url fst snd].
    rewrite !get_remove_other by discriminate.
    rewrite get_set_same. rewrite get_set_other by discriminate. rewrite get_set_same.
    repeat apply conj; auto. eexists; reflexivity.
  - intros _.
    eapply effects_weaken;
      [| | apply (effects_parse_places_info_json_response (facebook_request s) k)];
      [auto | intros; exact I].
Qed.

(** X12. Every request the Foursquare wrapper sends, search or details,
    carries the client id, the client secret and the date of the wrapper
    among its parameters; it goes to the search address or to the address
    of one venue, and has neither headers nor a time limit. *)
Theorem foursquare_requests_carry_the_credentials :
  forall (s : Foursquare.self) (w : world),
    exists es,
      trace (snd (Foursquare.run s w)) = trace w ++ es
      /\ requests_all (foursquare_request s) es.
Proof.
  intros s w.
  assert (H : effects (foursquare_request s) any_row (Foursquare.run s)).
  { unfold Foursquare.run. apply effects_bind.
    - unfold Foursquare.searches. apply effects_for_fold. intros term q.
      eapply effects_weaken; [| | apply effects_foursquare_search_requests];
        [auto | intros ? []].
    - intros q. apply effects_foursquare_detail_requests. }
  destruct (H w) as ((es & T & F & _) & _). now exists es.
Qed.

(** X13. Every request the Facebook wrapper sends carries the access token
    among its parameters and has neither headers nor a time limit.  A
    search asks for the type [place] and always names a limit -- 100 when
    the term has none; a request for the information on a place goes to the
    address of that place and asks for the fixed list of fields. *)
Theorem facebook_requests_carry_the_token :
  forall (s : Facebook.self) (w : world),
    exists es,
      trace (snd (Facebook.run s w)) = trace w ++ es
      /\ requests_all (facebook_request s) es.
Proof.
  intros s w.
  assert (H : effects (facebook_request s) any_row (Facebook.run s)).
  { unfold Facebook.run. apply effects_bind.
    - unfold Facebook.searches. apply effects_for_fold. intros term q.
      eapply effects_weaken; [| | apply effects_facebook_search_requests];
        [auto | intros ? []].
    - intros q. apply effects_facebook_detail_requests. }
  destruct (H w) as ((es & T & F & _) & _). now exists es.
Qed.
(** ** Yelp: from one answer to its rows *)

Lemma yelp_rows_loop r d total extracted q bs :
  json r = PDict d -> total = field d "total" ->
  forallb yelp_business bs = true ->
  forall w, _response w = Some r ->
    exists ROWS w',
      for_each (map PDict bs) (fun business =>
        response_json <- self_response_json ;;
        total <- eval (Py.get response_json "total" (PStr "-")) ;;
        ROW <- eval (Yelp.flatten business total extracted q) ;;
        stamp <- utcnow utc_stamp ;;
        append (Dict.set "RUN_TIMESTAMP" (PStr stamp) ROW)) w = (Returns tt, w')
      /\ rows w' = rows w ++ ROWS
      /\ yelp_rows (time w) (readings w) total extracted q bs ROWS
      /\ trace w' = trace w /\ script w' = script w.
Proof.
  intros J -> Hbs.
  set (body := fun business : pyval =>
        response_json <- self_response_json ;;
        total <- eval (Py.get response_json "total" (PStr "-")) ;;
        ROW <- eval (Yelp.flatten business total extracted q) ;;
        stamp <- utcnow utc_stamp ;;
        append (Dict.set "RUN_TIMESTAMP" (PStr stamp) ROW)).
  induction bs as [|b bs IH]; intros w Hr.
  - exists [], w. cbn. rewrite app_nil_r. repeat split.
  - cbn [forallb] in Hbs. apply andb_true_iff in Hbs. destruct Hbs as [Hb Hbs].
    destruct (yelp_flatten_record b (field d "total") extracted q
                (utc_stamp (time w) (readings w)) Hb) as (ROW & E & Hrec).
    set (ROW' := Dict.set "RUN_TIMESTAMP" (PStr (utc_stamp (time w) (readings w))) ROW)
      in *.
    assert (Hb1 : body (PDict b) w = (Returns tt, append_row ROW' (tick w))).
    { unfold body, bind, self_response_json, bind, self_response.
      rewrite Hr. cbn [ret]. rewrite J. cbn [eval Py.get]. fold_fields.
      rewrite E. reflexivity. }
    destruct (IH Hbs (append_row ROW' (tick w)) Hr) as (ROWS & w' & L & R & Y & T & S).
    exists (ROW' :: ROWS), w'. cbn [map for_each].
    unfold bind at 1. rewrite Hb1, L.
    split; [reflexivity|]. split; [|split; [|split; assumption]].
    + rewrite R. cbn [rows append_row tick]. now rewrite <- app_assoc.
    + cbn [yelp_rows]. split; [exact Hrec|]. split; [|exact Y].
      unfold ROW'. apply get_set_same.
Qed.

(** X14. A Yelp term that asks for at most 50 results, or names no limit,
    costs one call.  When the answer lists businesses that are well formed,
    the run appends one row per business, in the order of the answer; each
    row describes its business, carries the search string of the term as
    [QUERY], the total of the answer and the number of businesses
    extracted, and is stamped with a reading of the clock of its own. *)
Theorem yelp_single_search_gives_a_row_per_business :
  forall (s : Yelp.self) (term : Dict.t pyval) (w : world)
         (fs : list (string * string)) (r : response) (d : Dict.t pyval)
         (bs : list (Dict.t pyval)) (rest : list attempt) (limit : option Z),
    any_present ["location"; "latitude"; "longitude"] term = true ->
    Yelp.term_limit_user term = Ok limit ->
    (forall l, limit = Some l -> l <= Yelp.limit_max_per_offset) ->
    tolerated (Yelp._errors_limit s) fs ->
    script w = eventually fs r ++ rest ->
    json r = PDict d ->
    Dict.get "businesses" d = Some (PList (map PDict bs)) ->
    forallb yelp_business bs = true ->
    Py.aligns (field d "total") = true ->
    let out := Yelp.run_term s term w in
    fst out = Returns tt
    /\ sent (trace (snd out)) = sent (trace w) ++ resent (single_request s term) fs
    /\ script (snd out) = rest
    /\ exists ROWS,
         rows (snd out) = rows w ++ ROWS
         /\ yelp_rows (time w) (readings w) (field d "total")
              (Z.of_nat (List.length bs)) (Yelp.search_term_str term) bs ROWS.
Proof.
  intros s term w fs r d bs rest limit Hloc Hlim Hsmall Hf Hw J B Hbs Ha out.
  subst out.
  set (w0 := log (Print (TermLine (Yelp.search_term_str term))) w).
  assert (T0 : sent (trace w0) = sent (trace w)).
  { unfold w0. cbn. rewrite sent_app. cbn. now rewrite app_nil_r. }
  destruct (business_search_endpoint_answered s term fs r rest w0 Hf Hw)
    as (w1 & E1 & T1 & C1 & R1 & P1 & K1 & N1).
  set (w2 := log (Print (ExtractedLine (Z.of_nat (List.length bs))
                           (Some (field d "total")))) w1).
  destruct (yelp_rows_loop r d (field d "total") (Z.of_nat (List.length bs))
              (Yelp.search_term_str term) bs J eq_refl Hbs w2 P1)
    as (ROWS & w3 & L & R3 & Y & T3 & S3).
  assert (E : Yelp.run_term s term w = (Returns tt, w3)).
  { unfold Yelp.run_term. rewrite Hloc. cbn [negb]. cbv zeta.
    unfold bind at 1. cbn [emit]. fold w0. unfold bind at 1. rewrite Hlim.
    cbn [eval].
    assert (Hs : (businesses <-
                    (Yelp.business_search_endpoint s term ;;
                     response_json <- self_response_json ;;
                     found <- eval (Py.getitem response_json "businesses") ;;
                     eval (Py.iter found)) ;;
                  Yelp.parse_business_search_json_response businesses
                    (Yelp.search_term_str term)) w0
                 = (Returns tt, w3)).
    { unfold bind at 1. unfold bind at 1. rewrite E1.
      unfold bind at 1, self_response_json, bind at 1, self_response. rewrite P1.
      cbn [ret]. rewrite J. unfold bind at 1. cbn [eval Py.getitem]. rewrite B.
      cbn [Py.iter eval].
      unfold Yelp.parse_business_search_json_response. cbv zeta.
      rewrite length_map.
      unfold bind at 1, self_response_json, bind at 1, self_response. rewrite P1.
      cbn [ret]. rewrite J. unfold bind at 1. cbn [eval Py.get]. fold_fields.
      rewrite Ha. unfold bind at 1. cbn [emit]. fold w2. exact L. }
    destruct limit as [l|]; [|exact Hs].
    replace (negb (l =? 0) && (l >? Yelp.limit_max_per_offset)) with false;
      [exact Hs|].
    symmetry. apply andb_false_iff. right. rewrite Z.gtb_ltb. apply Z.ltb_ge.
    now apply Hsmall. }
  rewrite E. cbn [fst snd]. repeat apply conj.
  - reflexivity.
  - rewrite T3. unfold w2. cbn [trace log]. rewrite sent_app. cbn [sent].
    rewrite app_nil_r, T1, T0. reflexivity.
  - rewrite S3. exact C1.
  - exists ROWS. split.
    + rewrite R3. unfold w2. cbn [rows log]. rewrite R1. reflexivity.
    + unfold w2 in Y. cbn [time readings log] in Y. rewrite K1, N1 in Y. exact Y.
Qed.

Lemma yelp_single_search_gives_a_row_per_business_witness :
  let term := [("location", PStr "Berlin")] in
  let bs := [sample_business; [("id", PStr "bar-2")]] in
  let d := [("businesses", PList (map PDict bs)); ("total", PInt 2)] in
  let out := Yelp.run_term sample_yelp term
               (sample_world [Answers (sample_answer (PDict d))]) in
  fst out = Returns tt
  /\ sent (trace (snd out)) = [single_request sample_yelp term]
  /\ script (snd out) = []
  /\ exists ROWS,
       rows (snd out) = ROWS
       /\ yelp_rows sample_clock 0 (PInt 2) 2 "Berlin" bs ROWS.
Proof.
  intros term bs d out.
  refine (yelp_single_search_gives_a_row_per_business sample_yelp term
            (sample_world [Answers (sample_answer (PDict d))]) []
            (sample_answer (PDict d)) d bs [] None
            eq_refl eq_refl _ _ eq_refl eq_refl eq_refl eq_refl eq_refl).
  - discriminate.
  - right. cbn. lia.
Defined.
(** ** Searches: what enters the queue *)

(** A call, answered after the failures [fs], and its answer kept. *)
Lemma call_answered eng req fs r rest w :
  tolerated (RequestEngine._errors_limit eng) fs ->
  script w = eventually fs r ++ rest ->
  exists w1,
    (r <- RequestEngine.GET eng req ;; receive r) w = (Returns tt, w1)
    /\ sent (trace w1) = sent (trace w) ++ resent req fs
    /\ script w1 = rest /\ rows w1 = rows w /\ _response w1 = Some r
    /\ time w1 = time w /\ readings w1 = readings w.
Proof.
  intros H Hw. unfold bind.
  rewrite (GET_after_failures eng req fs r rest w H Hw).
  cbn [receive]. eexists. split; [reflexivity|].
  cbn [trace script rows _response time readings assign_response answered].
  rewrite trace_logs, sent_app, sent_retries.
  destruct (kept_by_logs (retries eng req fs ++ [Sleep; Request req]) w)
    as (_ & -> & _ & -> & ->).
  repeat split.
Qed.

Lemma detail_terms_objects key found :
  detail_terms key (map PDict found) = Ok (queued key found).
Proof.
  unfold queued. induction found as [|x found IH]; [reflexivity|].
  cbn [map detail_terms Py.get and_then filter]. unfold present.
  fold (FileTools.get_or x "id" PNone). unfold FileTools.get_or at 1 2.
  destruct (Dict.get "id" x) as [v|] eqn:E; cbn [Py.truthy].
  - destruct (Py.truthy v).
    + cbn [Py.getitem]. rewrite E. cbn [and_then]. rewrite IH. cbn [and_then map].
      unfold FileTools.get_or. now rewrite E.
    + exact IH.
  - exact IH.
Qed.

Lemma parse_venues_listed r d vs w :
  _response w = Some r -> json r = PDict d -> lists_venues d vs ->
  Foursquare.parse_venues_search_json_response w
  = (Returns (queued "foursquare_id" vs), w).
Proof.
  intros Hr J L. unfold Foursquare.parse_venues_search_json_response.
  unfold bind, self_response_json, bind, self_response. rewrite Hr. cbn [ret].
  rewrite J. unfold get2, lists_venues in *. cbn [Py.get and_then].
  destruct (Dict.get "response" d) as [[| | | | | |inner]|]; try contradiction; cbn [Py.get eval].
  - destruct (Dict.get "venues" inner) as [[| | | | |l|]|]; try contradiction;
      cbn [Py.iter eval].
    + subst l. rewrite detail_terms_objects. reflexivity.
    + subst vs. reflexivity.
  - subst vs. reflexivity.
Qed.

Lemma parse_places_listed r d ps w :
  _response w = Some r -> json r = PDict d -> lists_places d ps ->
  Facebook.parse_places_details_json_response w
  = (Returns (queued "facebook_id" ps), w).
Proof.
  intros Hr J L. unfold Facebook.parse_places_details_json_response.
  unfold bind, self_response_json, bind, self_response. rewrite Hr. cbn [ret].
  rewrite J. unfold lists_places in *. cbn [Py.get eval].
  destruct (Dict.get "data" d) as [[| | | | |l|]|]; try contradiction;
    cbn [Py.iter eval].
  - subst l. rewrite detail_terms_objects. reflexivity.
  - subst ps. reflexivity.
Qed.

(** X15. A term of the Foursquare wrapper with a locator and no venue id
    costs one search call.  The venues of the answer whose [id] counts as
    true enter the queue, in their order, under the search string of the
    term, behind what the queue already holds there; the others are left
    out.  An answer without [response], or without [venues] in it -- the
    body of an error, say -- queues nothing and raises nothing.  No row is
    written. *)
Theorem foursquare_search_queues_the_ids :
  forall (s : Foursquare.self) (term : Dict.t pyval) (q : queue) (w : world)
         (fs : list (string * string)) (r : response) (d : Dict.t pyval)
         (vs : list (Dict.t pyval)) (rest : list attempt) (k : string),
    any_present ["q"; "near"; "latitude"; "longitude"; "foursquare_id"] term = true ->
    present term "foursquare_id" = false ->
    shown_term ["client_id"; "client_secret"] term = Ok k ->
    tolerated (Foursquare._errors_limit s) fs ->
    script w = eventually fs r ++ rest ->
    json r = PDict d ->
    lists_venues d vs ->
    let out := Foursquare.search_term s term q w in
    fst out = Returns (enqueue k (queued "foursquare_id" vs) q)
    /\ sent (trace (snd out))
       = sent (trace w) ++ resent (foursquare_search_request s term) fs
    /\ script (snd out) = rest
    /\ rows (snd out) = rows w.
Proof.
  intros s term q w fs r d vs rest k Hany Hid Hk Hf Hw J L out. subst out.
  set (w0 := log (Print (TermLine k)) (log Sleep w)).
  assert (T0 : sent (trace w0) = sent (trace w)).
  { unfold w0. cbn. rewrite !sent_app. cbn. now rewrite !app_nil_r. }
  destruct (call_answered (Foursquare.engine s) (foursquare_search_request s term)
              fs r rest w0 Hf Hw)
    as (w1 & E1 & T1 & C1 & R1 & P1 & _).
  assert (E : Foursquare.search_term s term q w
              = (Returns (enqueue k (queued "foursquare_id" vs) q),
                 log (Print (ExtractedLine
                               (Z.of_nat (List.length (queued "foursquare_id" vs)))
                               None)) w1)).
  { unfold Foursquare.search_term. rewrite Hany. cbn [negb].
    unfold bind at 1. cbn [emit]. unfold bind at 1. rewrite Hk. cbn [eval].
    unfold bind at 1. cbn [emit]. cbv zeta.
    replace (present (merge_coordinates "ll"
                        (Foursquare._update_term_credentials s term))
               "foursquare_id") with false.
    2: { rewrite present_merge_coordinates_other by discriminate.
         unfold present, Foursquare._update_term_credentials. cbv zeta.
         rewrite !get_set_other by discriminate. exact (eq_sym Hid). }
    fold w0. unfold bind at 1. unfold Foursquare.venue_search_endpoint.
    fold (foursquare_search_request s term). rewrite E1.
    unfold bind at 1. rewrite (parse_venues_listed r d vs w1 P1 J L).
    reflexivity. }
  rewrite E. cbn [fst snd trace script rows log]. repeat apply conj; auto.
  rewrite sent_app. cbn [sent]. rewrite app_nil_r, T1, T0. reflexivity.
Qed.

Lemma foursquare_search_queues_the_ids_witness :
  let term := [("near", PStr "Berlin")] in
  let vs := [[("id", PStr "v1")]; [("name", PStr "nameless")]; [("id", PStr "v2")]] in
  let found := PDict [("response", PDict [("venues", PList (map PDict vs))])] in
  let failed := PDict [("meta", PDict [("code", PInt 400)])] in
  fst (Foursquare.search_term sample_foursquare term []
         (sample_world [Answers (sample_answer found)]))
  = Returns [("Berlin", [[("foursquare_id", PStr "v1")]; [("foursquare_id", PStr "v2")]])]
  /\ fst (Foursquare.search_term sample_foursquare term []
            (sample_world [Answers (sample_answer failed)]))
     = Returns [("Berlin", [])].
Proof.
  intros term vs found failed. split.
  - refine (proj1 (foursquare_search_queues_the_ids sample_foursquare term []
                     (sample_world [Answers (sample_answer found)]) []
                     (sample_answer found) _ vs [] "Berlin"
                     eq_refl eq_refl eq_refl _ eq_refl eq_refl eq_refl)).
    right. cbn. lia.
  - refine (proj1 (foursquare_search_queues_the_ids sample_foursquare term []
                     (sample_world [Answers (sample_answer failed)]) []
                     (sample_answer failed) _ [] [] "Berlin"
                     eq_refl eq_refl eq_refl _ eq_refl eq_refl eq_refl)).
    right. cbn. lia.
Defined.

(** X16. A term of the Facebook wrapper with a locator and no place id
    costs one search call, for places, with the limit of the term or 100.
    The places of the answer whose [id] counts as true enter the queue, in
    their order, under the search string of the term; an answer without
    [data] queues nothing and raises nothing.  No row is written. *)
Theorem facebook_search_queues_the_ids :
  forall (s : Facebook.self) (term : Dict.t pyval) (q : queue) (w : world)
         (fs : list (string * string)) (r : response) (d : Dict.t pyval)
         (ps : list (Dict.t pyval)) (rest : list attempt) (k : string),
    any_present ["q"; "latitude"; "longitude"; "facebook_id"] term = true ->
    present term "facebook_id" = false ->
    shown_term ["access_token"] term = Ok k ->
    tolerated (Facebook._errors_limit s) fs ->
    script w = eventually fs r ++ rest ->
    json r = PDict d ->
    lists_places d ps ->
    let out := Facebook.search_term s term q w in
    fst out = Returns (enqueue k (queued "facebook_id" ps) q)
    /\ sent (trace (snd out))
       = sent (trace w) ++ resent (facebook_search_request s term) fs
    /\ script (snd out) = rest
    /\ rows (snd out) = rows w.
Proof.
  intros s term q w fs r d ps rest k Hany Hid Hk Hf Hw J L out. subst out.
  set (w0 := log (Print (TermLine k)) (log Sleep w)).
  assert (T0 : sent (trace w0) = sent (trace w)).
  { unfold w0. cbn. rewrite !sent_app. cbn. now rewrite !app_nil_r. }
  destruct (call_answered (Facebook.engine s) (facebook_search_request s term)
              fs r rest w0 Hf Hw)
    as (w1 & E1 & T1 & C1 & R1 & P1 & _).
  assert (E : Facebook.search_term s term q w
              = (Returns (enqueue k (queued "facebook_id" ps) q),
                 log (Print (ExtractedLine
                               (Z.of_nat (List.length (queued "facebook_id" ps)))
                               None)) w1)).
  { unfold Facebook.search_term. rewrite Hany. cbn [negb].
    unfold bind at 1. cbn [emit]. unfold bind at 1. rewrite Hk. cbn [eval].
    unfold bind at 1. cbn [emit]. cbv zeta.
    replace (present (Dict.set "type" (PStr "place")
                        (Facebook._update_term_credentials s term))
               "facebook_id") with false.
    2: { unfold present, Facebook._update_term_credentials.
         rewrite !get_set_other by discriminate. exact (eq_sym Hid). }
    fold w0. unfold bind at 1. unfold Facebook.places_search_endpoint.
    change {| via := PLACES_SEARCH; url := Facebook.PLACES_SEARCH_url;
              params := _; req_headers := None; timeout := None |}
      with (facebook_search_request s term).
    rewrite E1.
    unfold bind at 1. rewrite (parse_places_listed r d ps w1 P1 J L).
    reflexivity. }
  rewrite E. cbn [fst snd trace script rows log]. repeat apply conj; auto.
  rewrite sent_app. cbn [sent]. rewrite app_nil_r, T1, T0. reflexivity.
Qed.

Lemma facebook_search_queues_the_ids_witness :
  let term := [("q", PStr "cafe")] in
  let ps := [[("id", PStr "77")]; [("id", PStr "")]] in
  let found := PDict [("data", PList (map PDict ps))] in
  let out := Facebook.search_term sample_facebook term []
               (sample_world [Answers (sample_answer found)]) in
  fst out = Returns [("cafe", [[("facebook_id", PStr "77")]])]
  /\ sent (trace (snd out))
     = [ {| via := PLACES_SEARCH; url := Facebook.PLACES_SEARCH_url;
            params := [("q", PStr "cafe"); ("access_token", PStr "t");
                       ("type", PStr "place"); ("limit", PInt 100)];
            req_headers := None; timeout := None |} ].
Proof.
  intros term ps found out.
  destruct (facebook_search_queues_the_ids sample_facebook term []
              (sample_world [Answers (sample_answer found)]) []
              (sample_answer found) _ ps [] "cafe"
              eq_refl eq_refl eq_refl (or_intror eq_refl) eq_refl eq_refl eq_refl)
    as (H1 & H2 & _).
  split; [exact H1 | exact H2].
Defined.
(** ** Details: one call, one row *)

(** X17. A detail term of the Foursquare queue costs one call, to the
    address of its venue, with the credentials as the only parameters: the
    id is taken out of them.  An answer that holds a well-formed venue under
    [response.venue] gives one row, which carries the search string the
    term was queued under; an answer without [response], or without [venue]
    in it, raises [KeyError] and gives no row. *)
Theorem foursquare_detail_term_gives_a_row_or_KeyError :
  forall (s : Foursquare.self) (search_term_str : string) (id : pyval) (w : world)
         (fs : list (string * string)) (r : response) (top : Dict.t pyval)
         (rest : list attempt),
    tolerated (Foursquare._errors_limit s) fs ->
    script w = eventually fs r ++ rest ->
    json r = PDict top ->
    let out := Foursquare.detail_term s search_term_str [("foursquare_id", id)] w in
    sent (trace (snd out))
    = sent (trace w) ++ resent (foursquare_details_request s id) fs
    /\ script (snd out) = rest
    /\ (forall inner v,
          Dict.get "response" top = Some (PDict inner) ->
          Dict.get "venue" inner = Some (PDict v) ->
          foursquare_venue (time w) v = true ->
          fst out = Returns tt
          /\ exists ROW,
               rows (snd out) = rows w ++ [ROW]
               /\ foursquare_record (time w) v search_term_str ROW)
    /\ (Dict.get "response" top = None ->
        fst out = Raises (KeyError "response") /\ rows (snd out) = rows w)
    /\ (forall inner,
          Dict.get "response" top = Some (PDict inner) ->
          Dict.get "venue" inner = None ->
          fst out = Raises (KeyError "venue") /\ rows (snd out) = rows w).
Proof.
  intros s k id w fs r top rest Hf Hw J out.
  destruct (call_answered (Foursquare.engine s) (foursquare_details_request s id)
              fs r rest w Hf Hw)
    as (w1 & E1 & T1 & C1 & R1 & P1 & K1 & N1).
  assert (E : out = Foursquare.parse_venue_details_json_response k w1).
  { subst out. unfold Foursquare.detail_term. cbv zeta. unfold bind at 1.
    unfold Foursquare.venue_details_endpoint.
    unfold bind at 1. cbn [Foursquare._update_term_credentials Dict.set String.eqb
                           Ascii.eqb Bool.eqb pop Dict.get Dict.remove eval fst snd].
    fold (foursquare_details_request s id). rewrite E1. reflexivity. }
  rewrite E. clear E out.
  destruct (effects_parse_venue_details_json_response no_request k w1)
    as ((es & T & F & C) & _).
  assert (Hes : sent es = []).
  { destruct (sent es) as [|x l]; [reflexivity | inversion F as [|? ? []]]. }
  repeat apply conj.
  - rewrite T, sent_app, Hes, app_nil_r. exact T1.
  - rewrite C, Hes. exact C1.
  - intros inner v Hi Hv Hvenue. rewrite <- K1 in Hvenue.
    destruct (foursquare_flatten_record (time w1) v top inner k
                (utc_stamp (time w1) (readings w1)) Hvenue Hi Hv) as (ROW & EF & Hrec).
    unfold Foursquare.parse_venue_details_json_response.
    unfold bind, self_response_json, bind, self_response. rewrite P1. cbn [ret].
    rewrite J. cbn [the_clock]. rewrite EF.
    cbn [eval utcnow append ret fst snd rows append_row tick].
    split; [reflexivity|]. eexists. split; [now rewrite R1|].
    rewrite <- K1. exact Hrec.
  - intros Hn. unfold Foursquare.parse_venue_details_json_response.
    unfold bind, self_response_json, bind, self_response. rewrite P1. cbn [ret].
    rewrite J. cbn [the_clock]. unfold Foursquare.flatten. cbn [Py.getitem].
    rewrite Hn. cbn [and_then eval fst snd]. now split.
  - intros inner Hi Hn. unfold Foursquare.parse_venue_details_json_response.
    unfold bind, self_response_json, bind, self_response. rewrite P1. cbn [ret].
    rewrite J. cbn [the_clock]. unfold Foursquare.flatten. cbn [Py.getitem].
    rewrite Hi. cbn [and_then Py.getitem]. rewrite Hn. cbn [and_then eval fst snd].
    now split.
Qed.

Lemma foursquare_detail_term_gives_a_row_or_KeyError_witness :
  let good := PDict [("response", PDict [("venue", PDict sample_venue)])] in
  let bad := PDict [("meta", PDict [("code", PInt 400)])] in
  let run body :=
    Foursquare.detail_term sample_foursquare "Berlin" [("foursquare_id", PStr "v1")]
      (sample_world [Answers (sample_answer body)]) in
  (sent (trace (snd (run good)))
   = [ {| via := VENUE_DETAILS;
          url := "https://api.foursquare.com/v2/venues/v1";
          params := [("client_id", PStr "i"); ("client_secret", PStr "x");
                     ("v", PStr "20190301")];
          req_headers := None; timeout := None |} ]
   /\ fst (run good) = Returns tt)
  /\ fst (run bad) = Raises (KeyError "response").
Proof.
  intros good bad run.
  assert (F : tolerated 3 []) by (right; cbn; lia).
  split.
  - destruct (foursquare_detail_term_gives_a_row_or_KeyError sample_foursquare
                "Berlin" (PStr "v1") (sample_world [Answers (sample_answer good)])
                [] (sample_answer good) _ [] F eq_refl eq_refl)
      as (H1 & _ & H3 & _).
    split; [exact H1|].
    exact (proj1 (H3 _ sample_venue eq_refl eq_refl eq_refl)).
  - destruct (foursquare_detail_term_gives_a_row_or_KeyError sample_foursquare
                "Berlin" (PStr "v1") (sample_world [Answers (sample_answer bad)])
                [] (sample_answer bad) _ [] F eq_refl eq_refl)
      as (_ & _ & _ & H4 & _).
    exact (proj1 (H4 eq_refl)).
Defined.

(** X18. A detail term of the Facebook queue costs one call, to the address
    of its place, with the list of fields and the access token as the only
    parameters.  An answer that is an object, whose entries that the
    wrapper takes apart have the documented shape when they are there,
    gives one row, stamped and carrying the search string the term was
    queued under: what the answer lacks is stored as the dash, so that the
    body of an error gives a row of dashes, not an exception. *)
Theorem facebook_detail_term_gives_a_row :
  forall (s : Facebook.self) (search_term_str : string) (id : pyval) (w : world)
         (fs : list (string * string)) (r : response) (p : Dict.t pyval)
         (rest : list attempt),
    tolerated (Facebook._errors_limit s) fs ->
    script w = eventually fs r ++ rest ->
    json r = PDict p ->
    facebook_place p = true ->
    let out := Facebook.detail_term s search_term_str [("facebook_id", id)] w in
    fst out = Returns tt
    /\ sent (trace (snd out))
       = sent (trace w) ++ resent (facebook_information_request s id) fs
    /\ script (snd out) = rest
    /\ exists ROW,
         rows (snd out) = rows w ++ [ROW]
         /\ facebook_record p search_term_str ROW
         /\ Dict.get "RUN_TIMESTAMP" ROW
            = Some (PStr (utc_stamp (time w) (readings w))).
Proof.
  intros s k id w fs r p rest Hf Hw J Hp out.
  destruct (call_answered (Facebook.engine s) (facebook_information_request s id)
              fs r rest w Hf Hw)
    as (w1 & E1 & T1 & C1 & R1 & P1 & K1 & N1).
  destruct (facebook_flatten_record p k (utc_stamp (time w1) (readings w1)) Hp)
    as (ROW & EF & Hrec).
  assert (E : out = (Returns tt,
                     append_row (Dict.set "RUN_TIMESTAMP"
                                   (PStr (utc_stamp (time w1) (readings w1))) ROW)
                       (tick w1))).
  { subst out. unfold Facebook.detail_term. cbv zeta. unfold bind at 1.
    unfold Facebook.places_info_endpoint.
    unfold bind at 1. cbn [Facebook._update_term_credentials Dict.set String.eqb
                           Ascii.eqb Bool.eqb pop Dict.get Dict.remove eval fst snd].
    fold (facebook_information_request s id). rewrite E1.
    unfold Facebook.parse_places_info_json_response.
    unfold bind, self_response_json, bind, self_response. rewrite P1. cbn [ret].
    rewrite J, EF. reflexivity. }
  rewrite E. cbn [fst snd trace script rows append_row tick].
  split; [reflexivity|]. split; [exact T1|]. split; [exact C1|].
  eexists. split; [now rewrite R1|]. split; [exact Hrec|].
  rewrite get_set_same, K1, N1. reflexivity.
Qed.

Lemma facebook_detail_term_gives_a_row_witness :
  let body := [("error", PDict [("message", PStr "Unsupported get request")])] in
  let out := Facebook.detail_term sample_facebook "cafe" [("facebook_id", PStr "77")]
               (sample_world [Answers (sample_answer (PDict body))]) in
  fst out = Returns tt
  /\ sent (trace (snd out))
     = [ {| via := PLACE_INFORMATION;
            url := "https://graph.facebook.com/v3.3/77";
            params := [("fields", PStr (Str.join "," Facebook.ID_FIELDS));
                       ("access_token", PStr "t")];
            req_headers := None; timeout := None |} ]
  /\ exists ROW,
       rows (snd out) = [ROW]
       /\ Dict.get "ID" ROW = Some (PStr "'-")
       /\ Dict.get "NAME" ROW = Some (PStr "-").
Proof.
  intros body out.
  destruct (facebook_detail_term_gives_a_row sample_facebook "cafe" (PStr "77")
              (sample_world [Answers (sample_answer (PDict body))]) []
              (sample_answer (PDict body)) body []
              (or_intror eq_refl) eq_refl eq_refl eq_refl)
    as (H1 & H2 & _ & ROW & H4 & H5 & _).
  split; [exact H1|]. split; [exact H2|]. exists ROW. split; [exact H4|].
  destruct H5 as (_ & _ & Hpass & Hid & _). split; [exact Hid|].
  inversion Hpass as [|? ? _ Hrest]. inversion Hrest as [|? ? Hname _]. exact Hname.
Defined.
(** ** The batch: wrappers that do not run, files that cannot be read *)

(** X19. A wrapper for which the file of credentials holds no key is not
    run: [main] prints that it starts, prints [Keys not set] and goes on to
    the next wrapper; no request is sent and the script of the network, the
    rows and the clock are as before. *)
Theorem wrapper_without_keys_sends_nothing :
  forall (f : files) (wrapper_class : wrapper_class) (wrapper : wrapper) (w : world),
    Runner.construct f (time w) wrapper_class = Ok wrapper ->
    Runner.keys wrapper = [] ->
    Runner.run_class f wrapper_class w
    = (Returns tt,
       logs [ Print (RunningLine (Runner.__name__ wrapper_class));
              Print (KeysErrorLine (KeysParserError "Keys not set")) ]
         (assign_response None w)).
Proof.
  intros f cls wrapper w Hc Hk. rewrite (run_class_guarded _ _ _ _ Hc).
  unfold Runner.guarded, Runner.suite. rewrite Hk. reflexivity.
Qed.

Lemma wrapper_without_keys_sends_nothing_witness :
  let w := sample_world [Answers (sample_page ["a"])] in
  Runner.run_class sample_files Facebook__ApiWrapper w
  = (Returns tt,
     logs [ Print (RunningLine "Facebook__ApiWrapper");
            Print (KeysErrorLine (KeysParserError "Keys not set")) ] w).
Proof.
  intros w.
  exact (wrapper_without_keys_sends_nothing sample_files Facebook__ApiWrapper _ w
           eq_refl eq_refl).
Defined.

Lemma for_each_skipped {A} (l : list A) body w :
  Forall (fun x => body x w = (Returns tt, w)) l ->
  for_each l body w = (Returns tt, w).
Proof.
  induction 1 as [|x l Hx Hl IH]; cbn [for_each]; [reflexivity|].
  unfold bind. now rewrite Hx.
Qed.

Lemma for_fold_skipped {A S} (l : list A) (body : A -> S -> M S) acc w :
  Forall (fun x => body x acc w = (Returns acc, w)) l ->
  for_fold l body acc w = (Returns acc, w).
Proof.
  induction 1 as [|x l Hx Hl IH]; cbn [for_fold]; [reflexivity|].
  unfold bind. now rewrite Hx.
Qed.

Lemma run_without_locators wrapper w :
  Forall (fun t => any_present (locators (Runner.class_of wrapper)) (as_params t) = false)
    (terms_of wrapper) ->
  Runner.run wrapper w = (Returns tt, w).
Proof.
  destruct wrapper as [s|s|s]; cbn [Runner.run Runner.class_of locators terms_of];
    intros H.
  - unfold Yelp.run. apply for_each_skipped. apply Forall_map.
    eapply Forall_impl; [|exact H]. intros t Ht. unfold Yelp.run_term.
    now rewrite Ht.
  - unfold Foursquare.run, bind, Foursquare.searches.
    rewrite for_fold_skipped; [reflexivity|]. apply Forall_map.
    eapply Forall_impl; [|exact H]. intros t Ht. unfold Foursquare.search_term.
    now rewrite Ht.
  - unfold Facebook.run, bind, Facebook.searches.
    rewrite for_fold_skipped; [reflexivity|]. apply Forall_map.
    eapply Forall_impl; [|exact H]. intros t Ht. unfold Facebook.search_term.
    now rewrite Ht.
Qed.

(** X20. A wrapper that has keys but no term with a locator -- no input row,
    or only rows it skips -- sends nothing, and is then reported as failed:
    after the run [main] prints the heading of the statistics and reads the
    last response, which the wrapper never received, and the
    [AttributeError] of that is caught and printed.  The script of the
    network and the rows are as before. *)
Theorem wrapper_without_requests_is_reported_failed :
  forall (f : files) (wrapper_class : wrapper_class) (wrapper : wrapper) (w : world),
    Runner.construct f (time w) wrapper_class = Ok wrapper ->
    Runner.keys wrapper <> [] ->
    Forall (fun t => any_present (locators wrapper_class) (as_params t) = false)
      (terms_of wrapper) ->
    Runner.run_class f wrapper_class w
    = (Returns tt,
       logs [ Print (RunningLine (Runner.__name__ wrapper_class));
              Print StatsHeading;
              Print (FailedLine (Runner.__name__ wrapper_class) AttributeError) ]
         (assign_response None w)).
Proof.
  intros f cls wrapper w Hc Hk Ht. rewrite (run_class_guarded _ _ _ _ Hc).
  pose proof (class_of_construct _ _ _ _ Hc) as Hcls. rewrite <- Hcls in Ht.
  unfold Runner.guarded, Runner.suite.
  destruct (Runner.keys wrapper) as [|kv keys]; [congruence|].
  unfold bind at 1. cbn [ret]. unfold bind at 1.
  rewrite (run_without_locators wrapper _ Ht).
  unfold bind at 1, Runner.print_api_stats_from_headers.
  unfold bind at 1. cbn [emit]. unfold bind at 1, self_response.
  cbn [_response log assign_response]. rewrite Hcls. reflexivity.
Qed.

Lemma wrapper_without_requests_is_reported_failed_witness :
  let f := {| keys_file := "# yelp_apikey = k";
              INPUT_FILES := [[["term"; "location"]; ["pizza"; ""]; [""; " "]]] |} in
  let w := sample_world [Answers (sample_page ["a"])] in
  Runner.run_class f Yelp__ApiWrapper w
  = (Returns tt,
     logs [ Print (RunningLine "Yelp__ApiWrapper");
            Print StatsHeading;
            Print (FailedLine "Yelp__ApiWrapper" AttributeError) ] w).
Proof.
  intros f w.
  refine (wrapper_without_requests_is_reported_failed f Yelp__ApiWrapper _ w
            eq_refl _ _).
  - discriminate.
  - repeat constructor.
Defined.
(** What the constructor of a class does with the files. *)
Lemma construct_outcome f c wrapper_class :
  match Runner.construct f c wrapper_class with
  | Ok _ => readable f = true
  | Raise e =>
      readable f = false
      /\ e = (if forallb two_pieces (KeysParser.KEYS_LINES (keys_file f))
              then StopIteration else ValueError)
  end.
Proof.
  unfold readable.
  assert (H : forall alias headers,
             match (let? keys := KeysParser.parse_keys (keys_file f) alias in
                    let? terms := InputTermsParser.parse_terms (INPUT_FILES f) headers in
                    Ok (keys, terms)) with
             | Ok _ => forallb two_pieces (KeysParser.KEYS_LINES (keys_file f))
                       && negb (existsb no_rows (INPUT_FILES f)) = true
             | Raise e =>
                 forallb two_pieces (KeysParser.KEYS_LINES (keys_file f))
                 && negb (existsb no_rows (INPUT_FILES f)) = false
                 /\ e = (if forallb two_pieces (KeysParser.KEYS_LINES (keys_file f))
                         then StopIteration else ValueError)
             end).
  { intros alias headers. unfold KeysParser.parse_keys.
    pose proof (parse_lines_outcome alias (KeysParser.KEYS_LINES (keys_file f)) [])
      as Hk.
    destruct (KeysParser.parse_lines alias _ []) as [keys|e]; cbn [and_then].
    - rewrite Hk, parse_terms_flat.
      destruct (existsb no_rows (INPUT_FILES f)); cbn; auto.
    - destruct Hk as [-> ->]. cbn. auto. }
  destruct wrapper_class; cbn [Runner.construct];
    [ unfold Yelp.__init__; specialize (H Yelp.API_ALIAS Yelp.TERMS_HEADERS)
    | unfold Foursquare.__init__;
      specialize (H Foursquare.API_ALIAS Foursquare.TERMS_HEADERS)
    | unfold Facebook.__init__;
      specialize (H Facebook.API_ALIAS Facebook.TERMS_HEADERS) ];
    destruct (KeysParser.parse_keys _ _) as [keys|e]; cbn [and_then] in *;
      try exact H;
    destruct (InputTermsParser.parse_terms _ _) as [terms|e]; cbn [and_then] in *;
      exact H.
Qed.

(** X21. When the files cannot be read -- a credential line does not split
    in two, or an input file has no row at all -- the first wrapper cannot
    be constructed, and since [main] constructs it outside the [try], the
    exception ends the batch: [main] raises [ValueError], or
    [StopIteration] when only the input is at fault, having done nothing
    but make the default input file if that was missing.  No request is
    sent and no report is written. *)
Theorem main_raises_when_the_files_cannot_be_read :
  forall (f : files) (exists_ : bool) (first : wrapper_class)
         (others : list wrapper_class) (w : world),
    readable f = false ->
    Runner.main f exists_ (first :: others) w
    = (Raises (if forallb two_pieces (KeysParser.KEYS_LINES (keys_file f))
               then StopIteration else ValueError),
       with_default_input exists_ w).
Proof.
  intros f exists_ first others w Hr.
  assert (Hc : forall c, Runner.construct f c first
                         = Raise (if forallb two_pieces
                                       (KeysParser.KEYS_LINES (keys_file f))
                                  then StopIteration else ValueError)).
  { intros c. pose proof (construct_outcome f c first) as H.
    destruct (Runner.construct f c first) as [wr|e]; [congruence|].
    destruct H as [_ ->]. reflexivity. }
  unfold Runner.main, with_default_input.
  destruct exists_; cbn [negb]; unfold bind at 1; cbn [ret FileTools.create_default_input emit];
    unfold bind at 1; cbn [for_each]; unfold bind at 1;
    unfold Runner.run_class, bind at 1, Runner.instantiate, bind at 1;
    cbn [the_clock]; unfold bind at 1; rewrite Hc; reflexivity.
Qed.

Lemma main_raises_when_the_files_cannot_be_read_witness :
  let f := {| keys_file := "# yelp_apikey = k = v";
              INPUT_FILES := [[["term"; "location"]; ["pizza"; "Berlin"]]] |} in
  let f' := {| keys_file := "# yelp_apikey = k"; INPUT_FILES := [[]] |} in
  let w := sample_world [Answers (sample_page ["a"])] in
  Runner.main f true [Yelp__ApiWrapper; Facebook__ApiWrapper] w = (Raises ValueError, w)
  /\ Runner.main f' true [Facebook__ApiWrapper] w = (Raises StopIteration, w).
Proof.
  intros f f' w. split.
  - exact (main_raises_when_the_files_cannot_be_read f true Yelp__ApiWrapper
             [Facebook__ApiWrapper] w eq_refl).
  - exact (main_raises_when_the_files_cannot_be_read f' true Facebook__ApiWrapper
             [] w eq_refl).
Defined.

(** X22. When the files can be read, no exception leaves [main], whatever
    the network does and whatever the wrappers raise: it returns (or the
    script of the network has run out).  The rows of the buffer are only
    added to; and when [main] returns, every class was started and the
    last thing done is to write the report from the whole buffer. *)
Theorem main_ends_with_the_report_when_the_files_can_be_read :
  forall (f : files) (exists_ : bool) (wrapper_classes : list wrapper_class)
         (w : world),
    readable f = true ->
    let out := Runner.main f exists_ wrapper_classes w in
    (fst out = Returns tt \/ (fst out = Stuck /\ script (snd out) = []))
    /\ (exists rs, rows (snd out) = rows w ++ rs)
    /\ (fst out = Returns tt ->
        exists es name,
          trace (snd out)
          = trace (with_default_input exists_ w) ++ es
            ++ [WriteCsv name (FileTools.written_rows (rows (snd out)))]
          /\ forall c, In c wrapper_classes ->
               In (Print (RunningLine (Runner.__name__ c))) es).
Proof.
  intros f exists_ classes w Hr out.
  assert (Hc : forall c cls, exists wrapper, Runner.construct f c cls = Ok wrapper).
  { intros c cls. pose proof (construct_outcome f c cls) as H.
    destruct (Runner.construct f c cls) as [wr|e]; [now exists wr|].
    destruct H as [H _]. congruence. }
  set (w0 := with_default_input exists_ w).
  assert (E : out = (for_each classes (Runner.run_class f) ;; FileTools.csv_out) w0).
  { subst out w0. unfold Runner.main, with_default_input.
    destruct exists_; reflexivity. }
  assert (R0 : rows w0 = rows w) by (subst w0; unfold with_default_input;
                                     destruct exists_; reflexivity).
  destruct (classes_end_well f classes w0) as (es & rs & (O & T & R & C) & Hrun).
  { intros c _. apply Hc. }
  rewrite E. unfold bind.
  destruct (for_each classes (Runner.run_class f) w0) as [o w1]. cbn [fst snd] in *.
  destruct O as [-> | [-> S]].
  - unfold FileTools.csv_out, bind, utcnow, DATA_rows, emit.
    cbn [fst snd trace rows script log tick]. repeat apply conj.
    + now left.
    + exists rs. now rewrite R, R0.
    + intros _. exists es. eexists. split.
      * rewrite T, <- app_assoc. reflexivity.
      * intros c Hin. now apply Hrun.
  - cbn [fst snd]. repeat apply conj.
    + right. now split.
    + exists rs. now rewrite R, R0.
    + discriminate.
Qed.

Lemma main_ends_with_the_report_when_the_files_can_be_read_witness :
  let out := Runner.main sample_files true
               [Yelp__ApiWrapper; Facebook__ApiWrapper]
               (sample_world sample_outage) in
  fst out = Returns tt \/ (fst out = Stuck /\ script (snd out) = []).
Proof.
  exact (proj1 (main_ends_with_the_report_when_the_files_can_be_read sample_files
                  true [Yelp__ApiWrapper; Facebook__ApiWrapper]
                  (sample_world sample_outage) eq_refl)).
Defined.
(** ** Terms on their way to a request *)

Lemma get_remove_same {V} k (d : Dict.t V) :
  NoDup (Dict.keys d) -> Dict.get k (Dict.remove k d) = None.
Proof.
  induction d as [|[k0 v0] d IH]; cbn [Dict.remove Dict.get Dict.keys map fst];
    intros H; [reflexivity|].
  inversion H as [|? ? Hk Hd]; subst.
  destruct (String.eqb k0 k) eqn:E.
  - apply String.eqb_eq in E. subst k0. apply TermFacts.get_none.
    intros v Hin. apply Hk. unfold Dict.keys. apply in_map_iff. now exists (k, v).
  - cbn [Dict.get]. rewrite E. now apply IH.
Qed.

Lemma keys_remove {V} k (d : Dict.t V) :
  NoDup (Dict.keys d) -> NoDup (Dict.keys (Dict.remove k d)).
Proof.
  induction d as [|[k0 v0] d IH]; cbn [Dict.remove Dict.keys map fst]; intros H;
    [constructor|].
  inversion H as [|? ? Hk Hd]; subst.
  destruct (String.eqb k0 k); [exact Hd|].
  cbn [Dict.keys map fst]. constructor; [|now apply IH].
  intros Hin. apply Hk. clear -Hin. unfold Dict.keys in *.
  induction d as [|[k1 v1] d IH]; cbn [Dict.remove map fst] in *; [contradiction|].
  destruct (String.eqb k1 k).
  - now right.
  - cbn [map fst] in Hin. destruct Hin as [-> | Hin]; [now left | right; now apply IH].
Qed.

(** X23. Coordinates travel as one parameter only when both are there: a
    term with a latitude and a longitude is sent with the two joined by a
    comma under the key of the wrapper ([ll] or [center]) and without the
    two fields; a term with only one of them is sent as it is.  The other
    fields of the term are not touched. *)
Theorem merge_coordinates_needs_both :
  forall (key : string) (term : Dict.t pyval),
    NoDup (Dict.keys term) ->
    key <> "latitude" -> key <> "longitude" ->
    let sent_term := merge_coordinates key term in
    (if present term "latitude" && present term "longitude"
     then Dict.get key sent_term
          = Some (PStr (Py.str (FileTools.get_or term "latitude" PNone) +++ ","
                        +++ Py.str (FileTools.get_or term "longitude" PNone)))
          /\ Dict.get "latitude" sent_term = None
          /\ Dict.get "longitude" sent_term = None
     else sent_term = term)
    /\ forall k, k <> key -> k <> "latitude" -> k <> "longitude" ->
         Dict.get k sent_term = Dict.get k term.
Proof.
  intros key term Hnd Hlat Hlng sent_term. split.
  - subst sent_term. unfold merge_coordinates.
    destruct (present term "latitude" && present term "longitude"); [|reflexivity].
    cbv zeta. repeat apply conj.
    + rewrite get_set_same. unfold FileTools.get_or.
      rewrite get_remove_other by discriminate. reflexivity.
    + rewrite get_set_other by congruence.
      rewrite get_remove_other by discriminate. now apply get_remove_same.
    + rewrite get_set_other by congruence. apply get_remove_same.
      now apply keys_remove.
  - intros k H1 H2 H3. now apply get_merge_coordinates_other.
Qed.

Lemma merge_coordinates_needs_both_witness :
  merge_coordinates "ll" [("near", PStr "Berlin"); ("latitude", PStr "52.5")]
  = [("near", PStr "Berlin"); ("latitude", PStr "52.5")]
  /\ Dict.get "ll"
       (merge_coordinates "ll" [("latitude", PStr "52.5"); ("longitude", PStr "13.4")])
     = Some (PStr "52.5,13.4").
Proof.
  assert (N1 : NoDup (Dict.keys [("near", PStr "Berlin"); ("latitude", PStr "52.5")])).
  { repeat (constructor; [cbn; intuition discriminate|]). constructor. }
  assert (N2 : NoDup (Dict.keys [("latitude", PStr "52.5"); ("longitude", PStr "13.4")])).
  { repeat (constructor; [cbn; intuition discriminate|]). constructor. }
  assert (D1 : "ll" <> "latitude") by discriminate.
  assert (D2 : "ll" <> "longitude") by discriminate.
  split.
  - exact (proj1 (merge_coordinates_needs_both "ll" _ N1 D1 D2)).
  - exact (proj1 (proj1 (merge_coordinates_needs_both "ll" _ N2 D1 D2))).
Defined.
Lemma parse_row_entries headers row k v :
  In (k, v) (InputTermsParser.parse_row headers row) ->
  blank v = false /\ In k headers.
Proof.
  intros Hin. unfold InputTermsParser.parse_row,
    InputTermsParser.filter_empty_values in Hin.
  apply filter_In in Hin. destruct Hin as [Hin Hb]. cbn [snd] in Hb.
  unfold Dict.of_items in Hin. apply TermFacts.in_fold_set in Hin.
  destruct Hin as [Hin | []]. apply filter_In in Hin. destruct Hin as [Hin _].
  split; [now apply negb_true_iff | now apply in_combine_l in Hin].
Qed.

Lemma values_as_params t : map Py.str (Dict.values (as_params t)) = Dict.values t.
Proof.
  unfold Dict.values, as_params. rewrite !map_map. apply map_ext. now intros [k v].
Qed.

Lemma all_str_as_params t : Py.all_str (Dict.values (as_params t)) = Some (Dict.values t).
Proof.
  induction t as [|[k v] t IH]; [reflexivity|].
  cbn [as_params map Dict.values fst snd Py.all_str] in *.
  unfold Dict.values, as_params in IH. rewrite IH. reflexivity.
Qed.

Lemma yelp_search_term_str_input (t : InputTermsParser.term) :
  (forall k v, In (k, v) t -> blank v = false) ->
  Yelp.search_term_str (as_params t) = Str.join "|" (Dict.values t).
Proof.
  intros H. unfold Yelp.search_term_str. rewrite values_as_params. f_equal.
  apply forallb_filter_id. apply forallb_forall. intros v Hv.
  unfold Dict.values in Hv. apply in_map_iff in Hv. destruct Hv as ([k v'] & <- & Hin).
  cbn [snd Py.truthy]. apply H in Hin. unfold blank in Hin. now rewrite Hin.
Qed.

Lemma shown_term_input hidden (t : InputTermsParser.term) :
  (forall k v, In (k, v) t -> ~ In k hidden) ->
  shown_term hidden (as_params t) = Ok (Str.join "|" (Dict.values t)).
Proof.
  intros H. unfold shown_term.
  rewrite forallb_filter_id; [now rewrite all_str_as_params|].
  apply forallb_forall. intros [k v] Hin. cbn [fst]. apply negb_true_iff.
  unfold as_params in Hin. apply in_map_iff in Hin.
  destruct Hin as ([k' v'] & [= <- <-] & Hin). cbn [fst].
  destruct (existsb (String.eqb k') hidden) eqn:E; [|reflexivity].
  apply existsb_exists in E. destruct E as (h & Hh & E).
  apply String.eqb_eq in E. subst h. now apply H in Hin.
Qed.

(** X24. The search string of a term read from an input row is made of the
    cells the term kept, in the order of the term, joined by bars -- for
    each of the three wrappers: the Yelp wrapper finds no blank value left
    to drop, and the Foursquare and Facebook wrappers find no credential to
    hide, since they build the string before they add the credentials. *)
Theorem search_string_is_the_kept_cells_joined :
  forall (row : list string),
    (let t := InputTermsParser.parse_row Yelp.TERMS_HEADERS row in
     Yelp.search_term_str (as_params t) = Str.join "|" (Dict.values t))
    /\ (let t := InputTermsParser.parse_row Foursquare.TERMS_HEADERS row in
        shown_term ["client_id"; "client_secret"] (as_params t)
        = Ok (Str.join "|" (Dict.values t)))
    /\ (let t := InputTermsParser.parse_row Facebook.TERMS_HEADERS row in
        shown_term ["access_token"] (as_params t)
        = Ok (Str.join "|" (Dict.values t))).
Proof.
  intros row. repeat apply conj; cbv zeta.
  - apply yelp_search_term_str_input. intros k v Hin.
    now apply parse_row_entries in Hin.
  - apply shown_term_input. intros k v Hin Hh.
    apply parse_row_entries in Hin. destruct Hin as [_ Hin].
    unfold Foursquare.TERMS_HEADERS in Hin. cbn [In] in *.
    intuition (subst; discriminate).
  - apply shown_term_input. intros k v Hin Hh.
    apply parse_row_entries in Hin. destruct Hin as [_ Hin].
    unfold Facebook.TERMS_HEADERS in Hin. cbn [In] in *.
    intuition (subst; discriminate).
Qed.
(** ** Credentials: lines and their pieces *)

Module SplitFacts.

Lemma prefix_split p s : String.prefix p s = true -> exists t, s = p +++ t.
Proof.
  revert s. induction p as [|c p IH]; intros s H.
  - now exists s.
  - destruct s as [|c' s]; [discriminate|]. cbn [String.prefix] in H.
    destruct (Ascii.ascii_dec c c') as [<-|]; [|discriminate].
    destruct (IH s H) as (t & ->). now exists t.
Qed.

Lemma length_append a b : String.length (a +++ b) = (String.length a + String.length b)%nat.
Proof. induction a as [|c a IH]; cbn; [reflexivity | now rewrite IH]. Qed.

Lemma append_assoc a b c : (a +++ b) +++ c = a +++ b +++ c.
Proof. induction a as [|x a IH]; cbn; [reflexivity | now rewrite IH]. Qed.

Lemma append_nil a : a +++ "" = a.
Proof. induction a as [|x a IH]; cbn; [reflexivity | now rewrite IH]. Qed.

Lemma skip_scan sep u : forall cur t,
  Str.split_scan sep (String.length u) cur (u +++ t) = Str.split_scan sep 0 cur t.
Proof.
  induction u as [|c u IH]; intros cur t; [reflexivity|].
  cbn [String.length String.append Str.split_scan]. apply IH.
Qed.

Lemma scan_nonempty sep s : forall skip cur, Str.split_scan sep skip cur s <> [].
Proof.
  induction s as [|c s IH]; intros skip cur; cbn [Str.split_scan]; [discriminate|].
  destruct skip; [|apply IH]. destruct (String.prefix sep (String c s));
    [discriminate | apply IH].
Qed.

Lemma join_cons sep x l : l <> [] -> Str.join sep (x :: l) = x +++ sep +++ Str.join sep l.
Proof. destruct l; [congruence | reflexivity]. Qed.

Lemma join_scan sep n : sep <> "" ->
  forall s cur, (String.length s <= n)%nat ->
    Str.join sep (Str.split_scan sep 0 cur s) = cur +++ s.
Proof.
  intros Hsep. induction n as [|n IH]; intros s cur Hn.
  - destruct s; [|cbn in Hn; lia]. cbn. now rewrite append_nil.
  - destruct s as [|c s]; [cbn; now rewrite append_nil|].
    cbn [Str.split_scan]. destruct (String.prefix sep (String c s)) eqn:E.
    + destruct sep as [|c0 sep']; [congruence|].
      destruct (prefix_split _ _ E) as (t & Et). cbn [String.append] in Et.
      injection Et as <- ->.
      match goal with
      | |- context [(String.length (String ?a sep') - 1)%nat] =>
          replace (String.length (String a sep') - 1)%nat with (String.length sep')
            by (cbn [String.length]; lia)
      end.
      rewrite skip_scan.
      rewrite join_cons by apply scan_nonempty.
      rewrite IH.
      * reflexivity.
      * cbn [String.length] in Hn. rewrite length_append in Hn. lia.
    + rewrite IH by (cbn [String.length] in Hn; lia).
      rewrite append_assoc. reflexivity.
Qed.

(** Joining the pieces of a string with the separator gives the string
    back. *)
Lemma join_split sep s : sep <> "" -> Str.join sep (Str.split sep s) = s.
Proof.
  intros H. unfold Str.split. now rewrite (join_scan sep (String.length s)).
Qed.

Lemma has_char_append c a b :
  Str.has_char c (a +++ b) = Str.has_char c a || Str.has_char c b.
Proof.
  induction a as [|x a IH]; cbn [String.append Str.has_char]; [reflexivity|].
  now rewrite IH, orb_assoc.
Qed.

Lemma has_char_lstrip f c s :
  Str.has_char c s = false -> Str.has_char c (Str.lstrip_with f s) = false.
Proof.
  induction s as [|x s IH]; cbn [Str.lstrip_with]; [trivial|].
  destruct (f x); [|trivial]. cbn [Str.has_char]. intros H.
  apply orb_false_iff in H. now apply IH.
Qed.

Lemma has_char_rstrip f c s :
  Str.has_char c s = false -> Str.has_char c (Str.rstrip_with f s) = false.
Proof.
  induction s as [|x s IH]; cbn [Str.rstrip_with]; [trivial|].
  cbn [Str.has_char]. intros H. apply orb_false_iff in H. destruct H as [H1 H2].
  specialize (IH H2). destruct (Str.rstrip_with f s) as [|y r].
  - destruct (f x); cbn [Str.has_char]; [reflexivity | now rewrite H1].
  - cbn [Str.has_char] in *. now rewrite H1, IH.
Qed.

Lemma has_char_strip c s :
  Str.has_char c s = false -> Str.has_char c (Str.strip s) = false.
Proof. intros H. unfold Str.strip. now apply has_char_rstrip, has_char_lstrip. Qed.

(** Taking out a character leaves none of it. *)
Lemma has_char_replace c s :
  Str.has_char c (Str.replace (String c "") "" s) = false.
Proof.
  unfold Str.replace. induction s as [|x s IH]; [reflexivity|].
  cbn [Str.replace_scan String.prefix String.length Nat.sub].
  destruct (Ascii.ascii_dec c x) as [<- | Hx].
  - destruct s; cbn [String.append]; exact IH.
  - cbn [Str.has_char]. rewrite IH.
    destruct (Ascii.eqb c x) eqn:E; [|reflexivity].
    apply Ascii.eqb_eq in E. contradiction.
Qed.

End SplitFacts.

Lemma parse_lines_sources alias lines :
  forall keys0 keys k v,
    KeysParser.parse_lines alias lines keys0 = Ok keys ->
    Dict.get k keys = Some v ->
    Dict.get k keys0 = Some v
    \/ exists line header,
         In line lines /\ Str.split " = " line = [header; v]
         /\ k = key_name alias header.
Proof.
  induction lines as [|l lines IH]; intros keys0 keys k v H Hk;
    cbn [KeysParser.parse_lines] in H.
  - injection H as <-. now left.
  - destruct (Str.split " = " l) as [|header [|key [|x xs]]] eqn:Es; try discriminate.
    match type of H with context [if ?b then _ else _] => destruct b end.
    + destruct (IH _ _ _ _ H Hk) as [H0 | (line & h & Hin & Hs & Hn)].
      * rewrite DictFacts.get_set in H0.
        destruct (String.eqb _ k) eqn:Ek.
        -- injection H0 as <-. apply String.eqb_eq in Ek. right.
           exists l, header. repeat split; [now left | exact Es | now symmetry].
        -- now left.
      * right. exists line, h. repeat split; auto. now right.
    + destruct (IH _ _ _ _ H Hk) as [H0 | (line & h & Hin & Hs & Hn)];
        [now left|].
      right. exists line, h. repeat split; auto. now right.
Qed.

(** X25. Every key [parse_keys] stores spells out its line: the line it
    read, hash signs taken out and stripped, is the header, [" = "] and the
    key, one after the other, and the key is stored under the name of the
    header.  No stored key holds a hash sign: every hash sign of a line is
    deleted before the line is split, those of the key too. *)
Theorem parse_keys_entries_spell_their_lines :
  forall (content wrapper_alias : string) (keys : Dict.t string) (k v : string),
    KeysParser.parse_keys content wrapper_alias = Ok keys ->
    Dict.get k keys = Some v ->
    (exists header,
        In (header +++ " = " +++ v) (KeysParser.KEYS_LINES content)
        /\ k = key_name wrapper_alias header)
    /\ Str.has_char "#" v = false.
Proof.
  intros content alias keys k v H Hk. unfold KeysParser.parse_keys in H.
  destruct (parse_lines_sources alias _ _ _ _ _ H Hk)
    as [H0 | (line & header & Hin & Hs & Hn)]; [discriminate|].
  assert (El : line = header +++ " = " +++ v).
  { rewrite <- (SplitFacts.join_split " = " line) by discriminate.
    rewrite Hs. reflexivity. }
  split.
  - exists header. rewrite <- El. now split.
  - unfold KeysParser.KEYS_LINES in Hin. apply in_map_iff in Hin.
    destruct Hin as (raw & Hraw & _).
    assert (Hh : Str.has_char "#" line = false).
    { rewrite <- Hraw. apply SplitFacts.has_char_strip, SplitFacts.has_char_replace. }
    rewrite El, !SplitFacts.has_char_append in Hh.
    apply orb_false_iff in Hh. destruct Hh as [_ Hh].
    apply orb_false_iff in Hh. now destruct Hh.
Qed.

Lemma parse_keys_entries_spell_their_lines_witness :
  (exists header,
      In (header +++ " = " +++ "abcd")
        (KeysParser.KEYS_LINES "# YELP_apikey = ab#cd")
      /\ "apikey" = key_name "yelp" header)
  /\ Str.has_char "#" "abcd" = false.
Proof.
  exact (parse_keys_entries_spell_their_lines "# YELP_apikey = ab#cd" "yelp"
           [("apikey", "abcd")] "apikey" "abcd" eq_refl eq_refl).
Defined.
(** ** Yelp: all the pages of a search *)

Lemma paginate_pages s term limit rest pages :
  Forall (full_page s) pages ->
  forall t offset businesses w,
    (forall o, Dict.set "offset" (PInt o) t
               = Dict.set "offset" (PInt o)
                   (Dict.set "limit" (PInt Yelp.limit_max_per_offset) term)) ->
    script w = page_attempts pages ++ rest ->
    Z.min limit Yelp.yelp_api_results_max_limit
    <= offset + 50 * Z.of_nat (List.length pages) ->
    (pages <> [] ->
     offset + 50 * (Z.of_nat (List.length pages) - 1)
     < Z.min limit Yelp.yelp_api_results_max_limit) ->
    exists w',
      Yelp.paginate s limit t offset businesses w
      = (Returns (businesses ++ map PDict (page_businesses pages)), w')
      /\ sent (trace w') = sent (trace w) ++ page_requests s term offset pages
      /\ script w' = rest /\ rows w' = rows w
      /\ time w' = time w /\ readings w' = readings w
      /\ _response w'
         = match rev pages with
           | p :: _ => Some (page_answer p)
           | [] => _response w
           end.
Proof.
  induction 1 as [|p pages Hp Hpages IH]; intros t offset businesses w Ht Hw Hhi Hlo.
  - exists w. cbn [List.length Z.of_nat] in Hhi.
    rewrite paginate_stop by lia.
    cbn [page_businesses flat_map map page_requests rev]. rewrite !app_nil_r.
    repeat split. exact Hw.
  - destruct Hp as (Hf & J & B & Hne & Hwf).
    cbn [List.length] in Hhi, Hlo. specialize (Hlo ltac:(discriminate)).
    cbn [page_attempts flat_map] in Hw. rewrite <- app_assoc in Hw.
    fold (page_attempts pages) in Hw.
    assert (S : serves (page_answer p) (map PDict (page_listed p))).
    { exists (page_body p). now split. }
    destruct (paginate_page s limit t offset businesses w (page_failures p)
                (page_answer p) (map PDict (page_listed p))
                (page_attempts pages ++ rest))
      as (w1 & T1 & C1 & R1 & P1 & K1 & N1 & E1); try assumption; try lia.
    rewrite E1. clear E1.
    destruct (page_listed p) as [|b bs] eqn:El; [congruence|].
    cbn [map]. rewrite <- El in *.
    destruct (IH (Dict.set "offset" (PInt offset) t) (offset + 50)
                (businesses ++ map PDict (page_listed p)) w1)
      as (w' & E & T & C & R & K & N & P); try assumption; try lia.
    + intros o. rewrite DictFacts.set_set. apply Ht.
    + exists w'. rewrite El in E. cbn [map] in E. rewrite E.
      cbn [page_businesses flat_map page_requests].
      fold (page_businesses pages). rewrite map_app, app_assoc, El.
      repeat apply conj; try reflexivity; try congruence.
      * rewrite T, T1, Ht, <- app_assoc. reflexivity.
      * rewrite P. cbn [rev]. destruct (rev pages) as [|q qs] eqn:Er.
        -- cbn [app]. exact P1.
        -- reflexivity.
Qed.

(** X26. A Yelp term that asks for more than 50 results is served page by
    page: as long as the pages list businesses, the wrapper calls for the
    offsets 0, 50, 100, ... up to, and not including, the number asked for
    or 1000, whichever is less -- 20 calls at most.  The businesses of all
    the pages are then flattened together, in the order of the pages: one
    row each, counting them all as extracted, with the total of the last
    page. *)
Theorem yelp_pages_are_gathered_up_to_the_limit :
  forall (s : Yelp.self) (term : Dict.t pyval) (limit : Z) (pages : list page)
         (rest : list attempt) (w : world),
    any_present ["location"; "latitude"; "longitude"] term = true ->
    Yelp.term_limit_user term = Ok (Some limit) ->
    Yelp.limit_max_per_offset < limit ->
    Forall (full_page s) pages ->
    50 * (Z.of_nat (List.length pages) - 1)
    < Z.min limit Yelp.yelp_api_results_max_limit
    <= 50 * Z.of_nat (List.length pages) ->
    Py.aligns (field (last_body pages) "total") = true ->
    script w = page_attempts pages ++ rest ->
    let out := Yelp.run_term s term w in
    fst out = Returns tt
    /\ sent (trace (snd out)) = sent (trace w) ++ page_requests s term 0 pages
    /\ script (snd out) = rest
    /\ exists ROWS,
         rows (snd out) = rows w ++ ROWS
         /\ yelp_rows (time w) (readings w) (field (last_body pages) "total")
              (Z.of_nat (List.length (page_businesses pages)))
              (Yelp.search_term_str term) (page_businesses pages) ROWS.
Proof.
  intros s term limit pages rest w Hloc Hlim Hbig Hpages Hcount Ha Hw out.
  subst out. rewrite (run_term_paginated s term limit) by assumption.
  set (w0 := log (Print (TermLine (Yelp.search_term_str term))) w).
  assert (T0 : sent (trace w0) = sent (trace w)).
  { unfold w0. cbn. rewrite sent_app. cbn. now rewrite app_nil_r. }
  destruct (paginate_pages s term limit rest pages Hpages
              (Dict.set "limit" (PInt Yelp.limit_max_per_offset) term) 0 [] w0)
    as (w1 & E1 & T1 & C1 & R1 & K1 & N1 & P1); try reflexivity; try assumption;
    try lia.
  assert (Hne : pages <> []).
  { intros ->. cbn in Hcount. unfold Yelp.yelp_api_results_max_limit,
      Yelp.limit_max_per_offset in *. lia. }
  assert (Hlast : exists p, rev pages = p :: tl (rev pages)
                            /\ last_body pages = page_body p
                            /\ full_page s p).
  { unfold last_body. destruct (rev pages) as [|p ps] eqn:Er.
    - apply (f_equal (@rev page)) in Er. rewrite rev_involutive in Er. now subst.
    - exists p. split; [reflexivity|]. split; [reflexivity|].
      rewrite Forall_forall in Hpages. apply Hpages.
      apply in_rev. rewrite Er. now left. }
  destruct Hlast as (p & Er & Eb & (_ & J & _)). rewrite Er in P1. rewrite Eb in *.
  set (all := page_businesses pages) in *.
  set (w2 := log (Print (ExtractedLine (Z.of_nat (List.length all))
                           (Some (field (page_body p) "total")))) w1).
  destruct (yelp_rows_loop (page_answer p) (page_body p) (field (page_body p) "total")
              (Z.of_nat (List.length all)) (Yelp.search_term_str term) all J eq_refl)
    with (w := w2) as (ROWS & w3 & L & R3 & Y & T3 & S3).
  { unfold all, page_businesses. clear -Hpages.
    induction Hpages as [|q qs Hq _ IH]; [reflexivity|].
    cbn [flat_map]. rewrite forallb_app, IH. destruct Hq as (_ & _ & _ & _ & ->).
    reflexivity. }
  { exact P1. }
  assert (E : (businesses <-
                 Yelp.paginate s limit
                   (Dict.set "limit" (PInt Yelp.limit_max_per_offset) term) 0 [] ;;
               Yelp.parse_business_search_json_response businesses
                 (Yelp.search_term_str term)) w0 = (Returns tt, w3)).
  { unfold bind at 1. rewrite E1. cbn [app].
    unfold Yelp.parse_business_search_json_response. cbv zeta. rewrite length_map.
    unfold bind at 1, self_response_json, bind at 1, self_response. rewrite P1.
    cbn [ret]. rewrite J. unfold bind at 1. cbn [eval Py.get]. fold_fields.
    rewrite Ha. unfold bind at 1. cbn [emit]. fold all. fold w2. exact L. }
  fold w0. rewrite E. cbn [fst snd]. repeat apply conj.
  - reflexivity.
  - rewrite T3. unfold w2. cbn [trace log]. rewrite sent_app. cbn [sent].
    rewrite app_nil_r, T1, T0. reflexivity.
  - rewrite S3. exact C1.
  - exists ROWS. split.
    + rewrite R3. unfold w2. cbn [rows log]. rewrite R1. reflexivity.
    + unfold w2 in Y. cbn [time readings log] in Y. rewrite K1, N1 in Y. exact Y.
Qed.

Lemma yelp_pages_are_gathered_up_to_the_limit_witness :
  let term := [("location", PStr "Berlin"); ("limit", PStr "70")] in
  let pages := [sample_full_page [] ["a"; "b"];
                sample_full_page [("Timeout", "late")] ["c"]] in
  let w := sample_world [Answers (sample_page ["a"; "b"]); Fails "Timeout" "late";
                         Answers (sample_page ["c"]); Answers (sample_page ["d"])] in
  let out := Yelp.run_term sample_yelp term w in
  fst out = Returns tt
  /\ sent (trace (snd out))
     = [page_request sample_yelp term 0; page_request sample_yelp term 50;
        page_request sample_yelp term 50]
  /\ script (snd out) = [Answers (sample_page ["d"])]
  /\ exists ROWS,
       rows (snd out) = ROWS
       /\ yelp_rows sample_clock 0 (PInt 3) 3 "Berlin|70"
            [[("id", PStr "a")]; [("id", PStr "b")]; [("id", PStr "c")]] ROWS.
Proof.
  intros term pages w out.
  refine (yelp_pages_are_gathered_up_to_the_limit sample_yelp term 70 pages
            [Answers (sample_page ["d"])] w eq_refl eq_refl eq_refl _ _ eq_refl eq_refl).
  - repeat constructor; cbn; try lia; discriminate.
  - cbn. lia.
Defined.
(** ** The batch: after a run that returned *)

(** X27. When the run of a wrapper with keys returns and the wrapper has
    received a response, [main] reports no failure: it prints the heading
    of the statistics, then those headers of the last response that the
    class lists as statistics, in the order of the response, and then,
    if and only if the status of that response is not 200, its body under
    the name of the class in capitals. *)
Theorem main_prints_the_statistics_of_the_last_response :
  forall (wrapper : wrapper) (w w1 : world) (r : response),
    Runner.keys wrapper <> [] ->
    Runner.run wrapper w = (Returns tt, w1) ->
    _response w1 = Some r ->
    Runner.guarded wrapper w = (Returns tt, logs (after_run wrapper r) w1).
Proof.
  intros wrapper w w1 r Hk Hrun Hr. unfold Runner.guarded, Runner.suite.
  destruct (Runner.keys wrapper) as [|kv keys]; [congruence|].
  unfold bind at 1. cbn [ret]. unfold bind at 1. rewrite Hrun.
  unfold bind at 1, Runner.print_api_stats_from_headers.
  unfold bind at 1. cbn [emit]. unfold bind at 1, self_response.
  cbn [_response log]. rewrite Hr. cbn [emit].
  unfold bind at 1. cbn [_response log]. rewrite Hr. unfold after_run.
  destruct (status_code r =? 200); [reflexivity|].
  destruct wrapper; reflexivity.
Qed.

Lemma main_prints_the_statistics_of_the_last_response_witness :
  let r := {| status_code := 401;
              headers := [("Date", "today"); ("RateLimit-Remaining", "4999")];
              text := "{}";
              json := PDict [("businesses", PList [])] |} in
  let wrapper := Yelp_object sample_yelp in
  let w := sample_world [Answers r] in
  exists w1,
    Runner.guarded wrapper w
    = (Returns tt,
       logs [ Print StatsHeading;
              Print (StatsLine [("RateLimit-Remaining", "4999")]);
              Print (ResponseLine "YELP__APIWRAPPER" "{}") ] w1).
Proof.
  intros r wrapper w. eexists.
  exact (main_prints_the_statistics_of_the_last_response wrapper w _ r
           ltac:(discriminate) eq_refl eq_refl).
Defined.

(** * Runs of a whole term, and of a whole wrapper *)

(** ** Yelp: an answer without [businesses], on any page *)

(** The turns of the [while] loop that [pages] answer: the loop goes on at
    the offset after them, with their businesses gathered. *)
Lemma paginate_turns s term limit pages :
  Forall (full_page s) pages ->
  forall t offset businesses w todo,
    (forall o, Dict.set "offset" (PInt o) t
               = Dict.set "offset" (PInt o)
                   (Dict.set "limit" (PInt Yelp.limit_max_per_offset) term)) ->
    script w = page_attempts pages ++ todo ->
    (pages <> [] ->
     offset + 50 * (Z.of_nat (List.length pages) - 1)
     < Z.min limit Yelp.yelp_api_results_max_limit) ->
    exists w' t',
      (forall o, Dict.set "offset" (PInt o) t'
                 = Dict.set "offset" (PInt o)
                     (Dict.set "limit" (PInt Yelp.limit_max_per_offset) term))
      /\ Yelp.paginate s limit t offset businesses w
         = Yelp.paginate s limit t' (offset + 50 * Z.of_nat (List.length pages))
             (businesses ++ map PDict (page_businesses pages)) w'
      /\ sent (trace w') = sent (trace w) ++ page_requests s term offset pages
      /\ script w' = todo /\ rows w' = rows w
      /\ time w' = time w /\ readings w' = readings w.
Proof.
  induction 1 as [|p pages Hp Hpages IH]; intros t offset businesses w todo Ht Hw Hlo.
  - exists w, t. cbn [List.length Z.of_nat page_businesses flat_map map page_requests].
    rewrite Z.mul_0_r, Z.add_0_r, !app_nil_r. repeat split; assumption.
  - destruct Hp as (Hf & J & B & Hne & Hwf).
    cbn [List.length] in Hlo. specialize (Hlo ltac:(discriminate)).
    cbn [page_attempts flat_map] in Hw. rewrite <- app_assoc in Hw.
    fold (page_attempts pages) in Hw.
    assert (Hs : serves (page_answer p) (map PDict (page_listed p))).
    { exists (page_body p). now split. }
    destruct (paginate_page s limit t offset businesses w (page_failures p)
                (page_answer p) (map PDict (page_listed p))
                (page_attempts pages ++ todo))
      as (w1 & T1 & C1 & R1 & P1 & K1 & N1 & E1); try assumption; try lia.
    rewrite E1. clear E1.
    destruct (page_listed p) as [|b bs] eqn:El; [congruence|].
    cbn [map]. rewrite <- El in *.
    destruct (IH (Dict.set "offset" (PInt offset) t) (offset + 50)
                (businesses ++ map PDict (page_listed p)) w1 todo)
      as (w' & t' & Ht' & E & T & C & R & K & N); try assumption; try lia.
    + intros o. rewrite DictFacts.set_set. apply Ht.
    + exists w', t'. rewrite El in E. cbn [map] in E. rewrite E.
      cbn [page_businesses flat_map page_requests List.length].
      fold (page_businesses pages). rewrite map_app, app_assoc, El.
      replace (offset + 50 + 50 * Z.of_nat (List.length pages))
        with (offset + 50 * Z.of_nat (S (List.length pages))) by lia.
      repeat apply conj; try reflexivity; try congruence.
      rewrite T, T1, Ht, <- app_assoc. reflexivity.
Qed.

(** The businesses of well-formed pages are well formed. *)
Lemma page_businesses_well_formed s pages :
  Forall (full_page s) pages -> forallb yelp_business (page_businesses pages) = true.
Proof.
  induction 1 as [|q qs Hq _ IH]; [reflexivity|].
  unfold page_businesses. cbn [flat_map]. rewrite forallb_app.
  fold (page_businesses qs). rewrite IH. destruct Hq as (_ & _ & _ & _ & ->).
  reflexivity.
Qed.

(** C10. A Yelp answer that is a JSON object without the entry
    [businesses].  When the term asks for more than 50 results, the answer
    counts as a page without businesses, whichever page of the term it is:
    the loop ends with this call, the businesses of the pages before it are
    flattened to their rows and the run goes on with the next term (unless
    the line that prints the total cannot format it, which raises
    [TypeError] before any row).  When the term asks for at most 50 results
    or names no limit, the same answer raises [KeyError]; wherever the term
    stands among the terms of the wrapper, this ends the run of the wrapper
    there, before the terms that follow.  Attempts that fail before an
    answer, below the limit of errors, only send the request again. *)
Theorem C10_yelp_missing_businesses :
  forall (s : Yelp.self) (term : Dict.t pyval) (w : world)
         (fs : list (string * string))
         (r : response) (d : Dict.t pyval) (rest : list attempt),
    any_present ["location"; "latitude"; "longitude"] term = true ->
    json r = PDict d -> Dict.get "businesses" d = None ->
    tolerated (Yelp._errors_limit s) fs ->
    let out := Yelp.run_term s term w in
    (forall (limit : Z) (pages : list page),
        Yelp.term_limit_user term = Ok (Some limit) ->
        Yelp.limit_max_per_offset < limit ->
        Forall (full_page s) pages ->
        50 * Z.of_nat (List.length pages)
        < Z.min limit Yelp.yelp_api_results_max_limit ->
        script w = page_attempts pages ++ eventually fs r ++ rest ->
        fst out = (if Py.aligns (field d "total") then Returns tt else Raises TypeError)
        /\ sent (trace (snd out))
           = sent (trace w) ++ page_requests s term 0 pages
             ++ resent (page_request s term (50 * Z.of_nat (List.length pages))) fs
        /\ script (snd out) = rest
        /\ (exists ROWS,
              rows (snd out) = rows w ++ ROWS
              /\ if Py.aligns (field d "total")
                 then yelp_rows (time w) (readings w) (field d "total")
                        (Z.of_nat (List.length (page_businesses pages)))
                        (Yelp.search_term_str term) (page_businesses pages) ROWS
                 else ROWS = [])
        /\ forall before more w0,
            map as_params (Yelp._terms s) = before ++ term :: more ->
            for_each before (Yelp.run_term s) w0 = (Returns tt, w) ->
            Py.aligns (field d "total") = true ->
            Yelp.run s w0 = for_each more (Yelp.run_term s) (snd out))
    /\ (forall limit,
           Yelp.term_limit_user term = Ok limit ->
           (forall l, limit = Some l -> l <= Yelp.limit_max_per_offset) ->
           script w = eventually fs r ++ rest ->
           fst out = Raises (KeyError "businesses")
           /\ sent (trace (snd out))
              = sent (trace w) ++ resent (single_request s term) fs
           /\ script (snd out) = rest
           /\ rows (snd out) = rows w
           /\ forall before more w0,
               map as_params (Yelp._terms s) = before ++ term :: more ->
               for_each before (Yelp.run_term s) w0 = (Returns tt, w) ->
               Yelp.run s w0 = (Raises (KeyError "businesses"), snd out)).
Proof.
  intros s term w fs r d rest Hloc J B Hf out. subst out.
  set (w0 := log (Print (TermLine (Yelp.search_term_str term))) w).
  assert (T0 : sent (trace w0) = sent (trace w)).
  { unfold w0. cbn. rewrite sent_app. cbn. now rewrite app_nil_r. }
  split.
  - intros limit pages Hlim Hbig Hpages Hcount Hw.
    destruct (paginate_turns s term limit pages Hpages
                (Dict.set "limit" (PInt Yelp.limit_max_per_offset) term) 0 [] w0
                (eventually fs r ++ rest))
      as (w1 & t1 & Ht1 & E1 & T1 & C1 & R1 & K1 & N1);
      try reflexivity; try assumption; try lia.
    cbn [app] in E1. rewrite Z.add_0_l in E1.
    set (n := 50 * Z.of_nat (List.length pages)) in *.
    set (all := page_businesses pages) in *.
    destruct (paginate_page_missing s limit t1 n (map PDict all) w1 fs r d rest)
      as (w2 & T2 & C2 & R2 & P2 & K2 & N2 & E2); try assumption; try lia.
    rewrite Ht1 in T2. fold (page_request s term n) in T2.
    assert (Eall : Yelp.paginate s limit
                     (Dict.set "limit" (PInt Yelp.limit_max_per_offset) term) 0 [] w0
                   = (Returns (map PDict all), w2)) by (rewrite E1; exact E2).
    set (w3 := log (Print (ExtractedLine (Z.of_nat (List.length all))
                             (Some (field d "total")))) w2).
    destruct (yelp_rows_loop r d (field d "total") (Z.of_nat (List.length all))
                (Yelp.search_term_str term) all J eq_refl
                (page_businesses_well_formed s pages Hpages) w3 P2)
      as (ROWS & w4 & L & R4 & Y & T4 & S4).
    assert (E : Yelp.run_term s term w
                = if Py.aligns (field d "total") then (Returns tt, w4)
                  else (Raises TypeError, w2)).
    { rewrite (run_term_paginated s term limit) by assumption. fold w0.
      unfold bind at 1. rewrite Eall.
      unfold Yelp.parse_business_search_json_response. cbv zeta. rewrite length_map.
      unfold bind at 1, self_response_json, bind at 1, self_response. rewrite P2.
      cbn [ret]. rewrite J. unfold bind at 1. cbn [eval Py.get]. fold_fields.
      destruct (Py.aligns (field d "total")).
      - unfold bind at 1. cbn [emit]. fold w3. exact L.
      - reflexivity. }
    assert (T3 : sent (trace w3) = sent (trace w2)).
    { unfold w3. cbn [trace log]. rewrite sent_app. cbn [sent]. now rewrite app_nil_r. }
    destruct (Py.aligns (field d "total")) eqn:Ha; rewrite E; cbn [fst snd].
    + split; [reflexivity|]. split; [|split; [|split]].
      * rewrite T4, T3, T2, T1, T0, <- app_assoc. reflexivity.
      * rewrite S4. exact C2.
      * exists ROWS. split.
        -- rewrite R4. unfold w3. cbn [rows log]. rewrite R2, R1. reflexivity.
        -- unfold w3 in Y. cbn [time readings log] in Y.
           rewrite K2, N2, K1, N1 in Y. exact Y.
      * intros before more w00 Hterms Hbefore _. unfold Yelp.run. rewrite Hterms.
        rewrite for_each_app. unfold bind at 1. rewrite Hbefore.
        cbn [for_each]. unfold bind at 1. rewrite E. reflexivity.
    + split; [reflexivity|]. split; [|split; [|split]].
      * rewrite T2, T1, T0, <- app_assoc. reflexivity.
      * exact C2.
      * exists []. rewrite app_nil_r, R2, R1. split; reflexivity.
      * intros before more w00 _ _ [=].
  - intros limit Hlim Hsmall Hw.
    destruct (business_search_endpoint_answered s term fs r rest w0 Hf Hw)
      as (w1 & E1 & T1 & C1 & R1 & P1 & _).
    assert (E : Yelp.run_term s term w = (Raises (KeyError "businesses"), w1)).
    { unfold Yelp.run_term. rewrite Hloc. cbn [negb]. cbv zeta.
      unfold bind at 1. cbn [emit]. fold w0. unfold bind at 1. rewrite Hlim.
      cbn [eval].
      assert (Hs : (businesses <-
                      (Yelp.business_search_endpoint s term ;;
                       response_json <- self_response_json ;;
                       found <- eval (Py.getitem response_json "businesses") ;;
                       eval (Py.iter found)) ;;
                    Yelp.parse_business_search_json_response businesses
                      (Yelp.search_term_str term)) w0
                   = (Raises (KeyError "businesses"), w1)).
      { unfold bind. rewrite E1.
        unfold self_response_json, bind, self_response. rewrite P1.
        cbn [ret]. rewrite J. cbn [eval Py.getitem]. rewrite B. reflexivity. }
      destruct limit as [l|]; [|exact Hs].
      replace (negb (l =? 0) && (l >? Yelp.limit_max_per_offset)) with false;
        [exact Hs|].
      symmetry. apply andb_false_iff. right. rewrite Z.gtb_ltb. apply Z.ltb_ge.
      now apply Hsmall. }
    rewrite E. cbn [fst snd]. repeat apply conj.
    + reflexivity.
    + rewrite T1, T0. reflexivity.
    + exact C1.
    + exact R1.
    + intros before more w00 Hterms Hbefore. unfold Yelp.run. rewrite Hterms.
      rewrite for_each_app. unfold bind at 1. rewrite Hbefore.
      rewrite (for_each_raises term more (Yelp.run_term s) w (KeyError "businesses"));
        rewrite E; reflexivity.
Qed.

Lemma C10_yelp_missing_businesses_witness :
  let answer := sample_answer (PDict [("error", PStr "x")]) in
  let down := Fails "ReadTimeout" "timed out" in
  let a := Answers (sample_page ["a"]) in
  let b := Answers (sample_page ["b"]) in
  let wide := [("location", PStr "Berlin"); ("limit", PStr "120")] in
  let narrow := [("location", PStr "Berlin"); ("limit", PStr "20")] in
  let s := {| Yelp._errors_limit := 3; Yelp._timeout := 3;
              Yelp.keys := [("apikey", "k")];
              Yelp._terms := [ [("location", "Paris")];
                               [("location", "Berlin"); ("limit", "20")];
                               [("location", "Rome")] ];
              Yelp._headers := [("Authorization", "Bearer k")] |} in
  let paged := Yelp.run_term s wide (sample_world [a; down; Answers answer; b]) in
  let whole := Yelp.run s (sample_world [a; down; Answers answer; b]) in
  (fst paged = Returns tt
   /\ sent (trace (snd paged))
      = [page_request s wide 0; page_request s wide 50; page_request s wide 50]
   /\ script (snd paged) = [b]
   /\ exists ROWS,
        rows (snd paged) = ROWS
        /\ yelp_rows sample_clock 0 (PStr "-") 1 "Berlin|120" [[("id", PStr "a")]] ROWS)
  /\ fst whole = Raises (KeyError "businesses")
  /\ sent (trace (snd whole))
     = [single_request s [("location", PStr "Paris")];
        single_request s narrow; single_request s narrow]
  /\ script (snd whole) = [b].
Proof.
  intros answer down a b wide narrow s paged whole.
  assert (F : tolerated 3 [("ReadTimeout", "timed out")]) by (right; cbn; lia).
  split.
  - destruct (proj1 (C10_yelp_missing_businesses s wide
                       (sample_world [a; down; Answers answer; b])
                       [("ReadTimeout", "timed out")] answer [("error", PStr "x")] [b]
                       eq_refl eq_refl eq_refl F)
                120 [sample_full_page [] ["a"]] eq_refl eq_refl)
      as (O & T & C & R & _).
    + repeat constructor; cbn; try lia; discriminate.
    + cbn. lia.
    + reflexivity.
    + repeat apply conj; [exact O | exact T | exact C | exact R].
  - set (w0 := sample_world [a; down; Answers answer; b]).
    set (w := snd (Yelp.run_term s [("location", PStr "Paris")] w0)).
    destruct (proj2 (C10_yelp_missing_businesses s narrow w
                       [("ReadTimeout", "timed out")] answer [("error", PStr "x")] [b]
                       eq_refl eq_refl eq_refl F)
                (Some 20) eq_refl)
      as (O & T & C & _ & E).
    + intros l [= <-]. unfold Yelp.limit_max_per_offset. lia.
    + reflexivity.
    + specialize (E [[("location", PStr "Paris")]] [[("location", PStr "Rome")]] w0
                    eq_refl eq_refl).
      unfold whole. fold w0. rewrite E. cbn [fst snd].
      repeat apply conj; [reflexivity | exact T | exact C].
Defined.

(** ** The queue between the two loops *)

Module QueueFacts.

Lemma distinct_snoc l k :
  distinct (l ++ [k])
  = distinct l ++ (if existsb (String.eqb k) l then [] else [k]).
Proof.
  induction l as [|a l IH]; [reflexivity|].
  cbn [app distinct existsb]. rewrite IH, filter_app. f_equal. f_equal.
  destruct (existsb (String.eqb k) l).
  - rewrite orb_true_r. reflexivity.
  - rewrite orb_false_r. cbn [filter]. destruct (String.eqb k a); reflexivity.
Qed.

Lemma in_distinct l k : In k (distinct l) <-> In k l.
Proof.
  induction l as [|a l IH]; [reflexivity|]. cbn [distinct In].
  rewrite filter_In, IH. destruct (String.eqb k a) eqn:E.
  - apply String.eqb_eq in E. subst. tauto.
  - apply String.eqb_neq in E. split.
    + tauto.
    + intros [H | H]; [congruence | now right].
Qed.

Lemma under_snoc k h c :
  under k (h ++ [c])
  = under k h ++ (if String.eqb (fst c) k then snd c else []).
Proof.
  unfold under. rewrite filter_app, flat_map_app. cbn [filter].
  destruct (String.eqb (fst c) k); cbn [flat_map]; now rewrite ?app_nil_r.
Qed.

Lemma under_none k h : existsb (String.eqb k) (map fst h) = false -> under k h = [].
Proof.
  unfold under. induction h as [|c h IH]; [reflexivity|].
  cbn [map existsb filter]. intros H. apply orb_false_iff in H. destruct H as [H1 H2].
  rewrite String.eqb_sym in H1. rewrite H1. now apply IH.
Qed.

Lemma get_as_queue key k keys f :
  Dict.get k (as_queue key (map (fun k' => (k', f k')) keys))
  = if existsb (String.eqb k) keys
    then Some (map (fun id => [(key, id)]) (f k)) else None.
Proof.
  unfold as_queue. induction keys as [|a keys IH]; [reflexivity|].
  cbn [map Dict.get existsb fst snd].
  rewrite (String.eqb_sym k a). destruct (String.eqb a k) eqn:E.
  - apply String.eqb_eq in E. subst. reflexivity.
  - exact IH.
Qed.

Lemma distinct_NoDup l : NoDup (distinct l).
Proof.
  induction l as [|a l IH]; cbn [distinct]; constructor.
  - rewrite filter_In, String.eqb_refl. intros [_ [=]].
  - now apply NoDup_filter.
Qed.

Lemma existsb_distinct k l :
  existsb (String.eqb k) (distinct l) = existsb (String.eqb k) l.
Proof.
  destruct (existsb (String.eqb k) l) eqn:E.
  - apply existsb_exists in E. destruct E as (x & Hx & E).
    apply existsb_exists. exists x. split; [now apply in_distinct | exact E].
  - destruct (existsb (String.eqb k) (distinct l)) eqn:E'; [|reflexivity].
    apply existsb_exists in E'. destruct E' as (x & Hx & E').
    rewrite <- E. symmetry. apply existsb_exists. exists x.
    split; [now apply in_distinct | exact E'].
Qed.

Lemma set_as_queue key k keys (f g : string -> list pyval) :
  NoDup keys ->
  (forall k', k' <> k -> g k' = f k') ->
  Dict.set k (map (fun id => [(key, id)]) (g k))
    (as_queue key (map (fun k' => (k', f k')) keys))
  = as_queue key
      (map (fun k' => (k', g k'))
         (keys ++ (if existsb (String.eqb k) keys then [] else [k]))).
Proof.
  intros Hn H. unfold as_queue. induction keys as [|a keys IH]; [reflexivity|].
  inversion Hn as [|? ? Ha Hn']. subst.
  cbn [map Dict.set existsb fst snd app].
  rewrite (String.eqb_sym k a). destruct (String.eqb a k) eqn:E.
  - apply String.eqb_eq in E. subst a. cbn [orb]. rewrite app_nil_r. f_equal.
    f_equal. apply map_ext_in. intros k' Hk'. f_equal. symmetry. apply H.
    intros ->. contradiction.
  - cbn [orb]. rewrite (IH Hn'). apply String.eqb_neq in E. now rewrite (H a E).
Qed.

(** One more entry handed over, with [enqueue]. *)
Lemma enqueue_gathered key h c :
  enqueue (fst c) (map (fun id => [(key, id)]) (snd c)) (as_queue key (gathered h))
  = as_queue key (gathered (h ++ [c])).
Proof.
  unfold enqueue, gathered. rewrite get_as_queue, existsb_distinct.
  match goal with
  | |- Dict.set _ ?v _ = _ =>
      replace v with (map (fun id : pyval => [(key, id)]) (under (fst c) (h ++ [c])))
  end.
  - transitivity
      (as_queue key
         (map (fun k' => (k', under k' (h ++ [c])))
            (distinct (map fst h)
             ++ (if existsb (String.eqb (fst c)) (distinct (map fst h))
                 then [] else [fst c])))).
    + apply (set_as_queue key (fst c) (distinct (map fst h))
               (fun k => under k h) (fun k => under k (h ++ [c]))
               (distinct_NoDup _)).
      intros k' Hk'. rewrite under_snoc.
      destruct (String.eqb (fst c) k') eqn:E; [|apply app_nil_r].
      apply String.eqb_eq in E. congruence.
    + rewrite existsb_distinct, (map_app fst h [c]).
      change (map fst [c]) with [fst c]. rewrite distinct_snoc. reflexivity.
  - rewrite under_snoc, String.eqb_refl, map_app.
    destruct (existsb (String.eqb (fst c)) (map fst h)) eqn:E; [reflexivity|].
    now rewrite (under_none _ _ E).
Qed.

(** What the first loop builds with [enqueue] is what was handed over,
    gathered by search string. *)
Lemma fold_enqueue key h :
  fold_left (fun q c => enqueue (fst c) (map (fun id => [(key, id)]) (snd c)) q) h []
  = as_queue key (gathered h).
Proof.
  induction h as [|c h IH] using rev_ind; [reflexivity|].
  rewrite fold_left_app. cbn [fold_left]. rewrite IH. apply enqueue_gathered.
Qed.

End QueueFacts.

Lemma for_each_map {A B} (f : A -> B) (l : list A) (body : B -> M unit) w :
  for_each (map f l) body w = for_each l (fun x => body (f x)) w.
Proof.
  revert w. induction l as [|x l IH]; intros w; [reflexivity|].
  cbn [map for_each]. unfold bind. destruct (body (f x) w) as [[[]|e|] w1];
    try reflexivity. apply IH.
Qed.

(** The second loop visits the ids of the queue one after the other. *)
Lemma details_as_jobs (body : string -> Dict.t pyval -> M unit) key g w :
  for_each (as_queue key g) (fun entry => for_each (snd entry) (body (fst entry))) w
  = for_each (flat_map (fun e => map (pair (fst e)) (snd e)) g)
      (fun j => body (fst j) [(key, snd j)]) w.
Proof.
  revert w. induction g as [|[k ids] g IH]; intros w; [reflexivity|].
  unfold as_queue. cbn [map flat_map for_each fst snd]. fold (as_queue key g).
  rewrite for_each_app. unfold bind.
  match goal with
  | |- (let (_, _) := ?X in _) = (let (_, _) := ?Y in _) =>
      assert (EX : X = for_each ids (fun x => body k [(key, x)]) w)
        by apply for_each_map;
      assert (EY : Y = for_each ids (fun x => body k [(key, x)]) w)
        by apply (for_each_map (pair k));
      rewrite EX, EY
  end.
  destruct (for_each ids (fun x => body k [(key, x)]) w) as [[[]|e|] w1];
    try reflexivity. apply IH.
Qed.

Lemma sent_log_print l w : sent (trace (log (Print l) w)) = sent (trace w).
Proof. cbn [trace log]. rewrite sent_app. cbn [sent]. apply app_nil_r. Qed.

Lemma sent_log_sleep w : sent (trace (log Sleep w)) = sent (trace w).
Proof. cbn [trace log]. rewrite sent_app. cbn [sent]. apply app_nil_r. Qed.

(** *** Foursquare *)

Lemma foursquare_turn_taken s term t q w todo :
  foursquare_turn s term t ->
  script w = turn_attempts t ++ todo ->
  exists w1,
    Foursquare.search_term s term q w
    = (Returns
         (fold_left
            (fun q c =>
               enqueue (fst c) (map (fun id => [("foursquare_id", id)]) (snd c)) q)
            (turn_ids t) q), w1)
    /\ sent (trace w1)
       = sent (trace w) ++ turn_requests (foursquare_search_request s term) t
    /\ script w1 = todo /\ rows w1 = rows w
    /\ time w1 = time w /\ readings w1 = readings w.
Proof.
  intros Ht Hw. destruct t as [|k id|k fs r found];
    cbn [foursquare_turn] in Ht; cbv zeta in Ht;
    cbn [turn_attempts turn_requests turn_ids fold_left fst snd map] in *.
  - exists w. unfold Foursquare.search_term. rewrite Ht. cbn [negb ret].
    rewrite app_nil_r. repeat split. exact Hw.
  - destruct Ht as (Hany & Hk & Hid & Htrue).
    exists (log (Print QueuedLine) (log (Print (TermLine k)) (log Sleep w))). split.
    + unfold Foursquare.search_term. rewrite Hany. cbn [negb].
      unfold bind at 1. cbn [emit]. unfold bind at 1. rewrite Hk. cbn [eval].
      unfold bind at 1. cbn [emit]. cbv zeta.
      assert (Hg : Dict.get "foursquare_id"
                     (merge_coordinates "ll"
                        (Foursquare._update_term_credentials s term)) = Some id).
      { rewrite get_merge_coordinates_other by discriminate.
        unfold Foursquare._update_term_credentials. cbv zeta.
        rewrite !get_set_other by discriminate. exact Hid. }
      unfold present, FileTools.get_or. rewrite Hg, Htrue.
      unfold bind at 1. cbn [emit]. reflexivity.
    + rewrite !sent_log_print, sent_log_sleep, app_nil_r. repeat split. exact Hw.
  - destruct Ht as (Hany & Hk & Hid & Hf & d & J & L).
    set (w0 := log (Print (TermLine k)) (log Sleep w)).
    assert (T0 : sent (trace w0) = sent (trace w)).
    { unfold w0. now rewrite sent_log_print, sent_log_sleep. }
    destruct (call_answered (Foursquare.engine s) (foursquare_search_request s term)
                fs r todo w0 Hf Hw)
      as (w1 & E1 & T1 & C1 & R1 & P1 & K1 & N1).
    exists (log (Print (ExtractedLine
                          (Z.of_nat (List.length (queued "foursquare_id" found)))
                          None)) w1).
    split.
    + unfold Foursquare.search_term. rewrite Hany. cbn [negb].
      unfold bind at 1. cbn [emit]. unfold bind at 1. rewrite Hk. cbn [eval].
      unfold bind at 1. cbn [emit]. cbv zeta.
      replace (present (merge_coordinates "ll"
                          (Foursquare._update_term_credentials s term))
                 "foursquare_id") with false.
      2: { rewrite present_merge_coordinates_other by discriminate.
           unfold present, Foursquare._update_term_credentials. cbv zeta.
           rewrite !get_set_other by discriminate. exact (eq_sym Hid). }
      fold w0. unfold bind at 1. unfold Foursquare.venue_search_endpoint.
      fold (foursquare_search_request s term). rewrite E1.
      unfold bind at 1. rewrite (parse_venues_listed r d found w1 P1 J L).
      unfold bind at 1. cbn [emit ret]. unfold queued. rewrite map_map. reflexivity.
    + rewrite sent_log_print. cbn [script rows time readings log].
      rewrite T1, T0. repeat split; assumption.
Qed.

Lemma foursquare_plan_taken s p :
  Forall (fun v => foursquare_turn s (fst v) (snd v)) p ->
  forall q w todo,
    script w = plan_attempts p ++ todo ->
    exists w1,
      for_fold (map fst p) (Foursquare.search_term s) q w
      = (Returns
           (fold_left
              (fun q c =>
                 enqueue (fst c) (map (fun id => [("foursquare_id", id)]) (snd c)) q)
              (handed p) q), w1)
      /\ sent (trace w1)
         = sent (trace w) ++ plan_requests (foursquare_search_request s) p
      /\ script w1 = todo /\ rows w1 = rows w
      /\ time w1 = time w /\ readings w1 = readings w.
Proof.
  induction 1 as [|[term t] p Ht _ IH]; intros q w todo Hw.
  - exists w. cbn [map for_fold handed plan_requests flat_map fold_left ret].
    rewrite app_nil_r. repeat split. exact Hw.
  - cbn [fst snd] in Ht. unfold plan_attempts in Hw. cbn [flat_map snd] in Hw.
    fold (plan_attempts p) in Hw. rewrite <- app_assoc in Hw.
    destruct (foursquare_turn_taken s term t q w (plan_attempts p ++ todo) Ht Hw)
      as (w1 & E1 & T1 & C1 & R1 & K1 & N1).
    destruct (IH (fold_left
                    (fun q c =>
                       enqueue (fst c)
                         (map (fun id => [("foursquare_id", id)]) (snd c)) q)
                    (turn_ids t) q) w1 todo C1)
      as (w2 & E2 & T2 & C2 & R2 & K2 & N2).
    exists w2. split.
    + cbn [map for_fold fst]. unfold bind at 1. rewrite E1, E2.
      unfold handed. cbn [flat_map snd]. rewrite fold_left_app. reflexivity.
    + unfold plan_requests. cbn [flat_map fst snd].
      fold (plan_requests (foursquare_search_request s) p).
      rewrite T2, T1, <- app_assoc. repeat split; congruence.
Qed.

Lemma foursquare_detail_answered s k id d w todo :
  foursquare_detail s (time w) d ->
  script w = eventually (detail_failures d) (detail_answer d) ++ todo ->
  exists ROW w1,
    Foursquare.detail_term s k [("foursquare_id", id)] w = (Returns tt, w1)
    /\ sent (trace w1)
       = sent (trace w) ++ resent (foursquare_details_request s id) (detail_failures d)
    /\ script w1 = todo /\ rows w1 = rows w ++ [ROW]
    /\ foursquare_record (time w) (detail_entity d) k ROW
    /\ Dict.get "RUN_TIMESTAMP" ROW = Some (PStr (utc_stamp (time w) (readings w)))
    /\ time w1 = time w /\ readings w1 = S (readings w).
Proof.
  intros (Hf & top & inner & J & Hi & Hv & Hvenue) Hw.
  destruct (call_answered (Foursquare.engine s) (foursquare_details_request s id)
              (detail_failures d) (detail_answer d) todo w Hf Hw)
    as (w1 & E1 & T1 & C1 & R1 & P1 & K1 & N1).
  rewrite <- K1 in Hvenue.
  destruct (foursquare_flatten_record (time w1) (detail_entity d) top inner k
              (utc_stamp (time w1) (readings w1)) Hvenue Hi Hv) as (ROW & EF & Hrec).
  exists (Dict.set "RUN_TIMESTAMP" (PStr (utc_stamp (time w1) (readings w1))) ROW),
    (append_row (Dict.set "RUN_TIMESTAMP"
                   (PStr (utc_stamp (time w1) (readings w1))) ROW) (tick w1)).
  split.
  - unfold Foursquare.detail_term. cbv zeta. unfold bind at 1.
    unfold Foursquare.venue_details_endpoint.
    unfold bind at 1. cbn [Foursquare._update_term_credentials Dict.set String.eqb
                           Ascii.eqb Bool.eqb pop Dict.get Dict.remove eval fst snd].
    fold (foursquare_details_request s id). rewrite E1.
    unfold Foursquare.parse_venue_details_json_response.
    unfold bind, self_response_json, bind, self_response. rewrite P1. cbn [ret].
    rewrite J. cbn [the_clock]. rewrite EF. reflexivity.
  - cbn [trace script rows time readings append_row tick].
    rewrite get_set_same, R1. rewrite K1, N1 in *.
    split; [exact T1|]. split; [exact C1|]. split; [reflexivity|].
    split; [exact Hrec|]. repeat split.
Qed.

Lemma foursquare_jobs_done s :
  forall js details w todo,
    List.length details = List.length js ->
    Forall (foursquare_detail s (time w)) details ->
    script w = detail_attempts details ++ todo ->
    exists ROWS w1,
      for_each js (fun j => Foursquare.detail_term s (fst j) [("foursquare_id", snd j)]) w
      = (Returns tt, w1)
      /\ sent (trace w1)
         = sent (trace w)
           ++ detail_requests (foursquare_details_request s) js details
      /\ script w1 = todo /\ rows w1 = rows w ++ ROWS
      /\ detail_rows (foursquare_record (time w)) (time w) (readings w) js details ROWS.
Proof.
  induction js as [|[k id] js IH]; intros [|d details] w todo Hlen Hd Hw;
    try discriminate.
  - exists [], w. cbn [for_each ret detail_requests detail_rows].
    rewrite !app_nil_r. repeat split. exact Hw.
  - inversion Hd as [|? ? Hd1 Hd2]. subst.
    unfold detail_attempts in Hw. cbn [flat_map] in Hw.
    fold (detail_attempts details) in Hw. rewrite <- app_assoc in Hw.
    destruct (foursquare_detail_answered s k id d w (detail_attempts details ++ todo)
                Hd1 Hw)
      as (ROW & w1 & E1 & T1 & C1 & R1 & Hrec & Hst & K1 & N1).
    rewrite <- K1 in Hd2.
    destruct (IH details w1 todo ltac:(cbn in Hlen; lia) Hd2 C1)
      as (ROWS & w2 & E2 & T2 & C2 & R2 & Hrows).
    exists (ROW :: ROWS), w2. split.
    + cbn [for_each fst snd]. unfold bind at 1. rewrite E1. exact E2.
    + cbn [detail_requests detail_rows fst snd].
      rewrite T2, T1, R2, R1, <- !app_assoc. rewrite K1, N1 in Hrows.
      split; [reflexivity|]. split; [exact C2|]. split; [reflexivity|].
      split; [exact Hrec|]. split; [exact Hst | exact Hrows].
Qed.

(** *** Facebook *)

Lemma facebook_turn_taken s term t q w todo :
  facebook_turn s term t ->
  script w = turn_attempts t ++ todo ->
  exists w1,
    Facebook.search_term s term q w
    = (Returns
         (fold_left
            (fun q c =>
               enqueue (fst c) (map (fun id => [("facebook_id", id)]) (snd c)) q)
            (turn_ids t) q), w1)
    /\ sent (trace w1)
       = sent (trace w) ++ turn_requests (facebook_search_request s term) t
    /\ script w1 = todo /\ rows w1 = rows w
    /\ time w1 = time w /\ readings w1 = readings w.
Proof.
  intros Ht Hw. destruct t as [|k id|k fs r found];
    cbn [facebook_turn] in Ht; cbv zeta in Ht;
    cbn [turn_attempts turn_requests turn_ids fold_left fst snd map] in *.
  - exists w. unfold Facebook.search_term. rewrite Ht. cbn [negb ret].
    rewrite app_nil_r. repeat split. exact Hw.
  - destruct Ht as (Hany & Hk & Hid & Htrue).
    exists (log (Print QueuedLine) (log (Print (TermLine k)) (log Sleep w))). split.
    + unfold Facebook.search_term. rewrite Hany. cbn [negb].
      unfold bind at 1. cbn [emit]. unfold bind at 1. rewrite Hk. cbn [eval].
      unfold bind at 1. cbn [emit]. cbv zeta.
      assert (Hg : Dict.get "facebook_id"
                     (Dict.set "type" (PStr "place")
                        (Facebook._update_term_credentials s term)) = Some id).
      { unfold Facebook._update_term_credentials.
        rewrite !get_set_other by discriminate. exact Hid. }
      unfold present, FileTools.get_or. rewrite Hg, Htrue.
      unfold bind at 1. cbn [emit]. reflexivity.
    + rewrite !sent_log_print, sent_log_sleep, app_nil_r. repeat split. exact Hw.
  - destruct Ht as (Hany & Hk & Hid & Hf & d & J & L).
    set (w0 := log (Print (TermLine k)) (log Sleep w)).
    assert (T0 : sent (trace w0) = sent (trace w)).
    { unfold w0. now rewrite sent_log_print, sent_log_sleep. }
    destruct (call_answered (Facebook.engine s) (facebook_search_request s term)
                fs r todo w0 Hf Hw)
      as (w1 & E1 & T1 & C1 & R1 & P1 & K1 & N1).
    exists (log (Print (ExtractedLine
                          (Z.of_nat (List.length (queued "facebook_id" found)))
                          None)) w1).
    split.
    + unfold Facebook.search_term. rewrite Hany. cbn [negb].
      unfold bind at 1. cbn [emit]. unfold bind at 1. rewrite Hk. cbn [eval].
      unfold bind at 1. cbn [emit]. cbv zeta.
      replace (present (Dict.set "type" (PStr "place")
                          (Facebook._update_term_credentials s term))
                 "facebook_id") with false.
      2: { unfold present, Facebook._update_term_credentials.
           rewrite !get_set_other by discriminate. exact (eq_sym Hid). }
      fold w0. unfold bind at 1. unfold Facebook.places_search_endpoint.
      change {| via := PLACES_SEARCH; url := Facebook.PLACES_SEARCH_url;
                params := _; req_headers := None; timeout := None |}
        with (facebook_search_request s term).
      rewrite E1.
      unfold bind at 1. rewrite (parse_places_listed r d found w1 P1 J L).
      unfold bind at 1. cbn [emit ret]. unfold queued. rewrite map_map. reflexivity.
    + rewrite sent_log_print. cbn [script rows time readings log].
      rewrite T1, T0. repeat split; assumption.
Qed.

Lemma facebook_plan_taken s p :
  Forall (fun v => facebook_turn s (fst v) (snd v)) p ->
  forall q w todo,
    script w = plan_attempts p ++ todo ->
    exists w1,
      for_fold (map fst p) (Facebook.search_term s) q w
      = (Returns
           (fold_left
              (fun q c =>
                 enqueue (fst c) (map (fun id => [("facebook_id", id)]) (snd c)) q)
              (handed p) q), w1)
      /\ sent (trace w1)
         = sent (trace w) ++ plan_requests (facebook_search_request s) p
      /\ script w1 = todo /\ rows w1 = rows w
      /\ time w1 = time w /\ readings w1 = readings w.
Proof.
  induction 1 as [|[term t] p Ht _ IH]; intros q w todo Hw.
  - exists w. cbn [map for_fold handed plan_requests flat_map fold_left ret].
    rewrite app_nil_r. repeat split. exact Hw.
  - cbn [fst snd] in Ht. unfold plan_attempts in Hw. cbn [flat_map snd] in Hw.
    fold (plan_attempts p) in Hw. rewrite <- app_assoc in Hw.
    destruct (facebook_turn_taken s term t q w (plan_attempts p ++ todo) Ht Hw)
      as (w1 & E1 & T1 & C1 & R1 & K1 & N1).
    destruct (IH (fold_left
                    (fun q c =>
                       enqueue (fst c)
                         (map (fun id => [("facebook_id", id)]) (snd c)) q)
                    (turn_ids t) q) w1 todo C1)
      as (w2 & E2 & T2 & C2 & R2 & K2 & N2).
    exists w2. split.
    + cbn [map for_fold fst]. unfold bind at 1. rewrite E1, E2.
      unfold handed. cbn [flat_map snd]. rewrite fold_left_app. reflexivity.
    + unfold plan_requests. cbn [flat_map fst snd].
      fold (plan_requests (facebook_search_request s) p).
      rewrite T2, T1, <- app_assoc. repeat split; congruence.
Qed.

Lemma facebook_detail_answered s k id d w todo :
  facebook_detail s d ->
  script w = eventually (detail_failures d) (detail_answer d) ++ todo ->
  exists ROW w1,
    Facebook.detail_term s k [("facebook_id", id)] w = (Returns tt, w1)
    /\ sent (trace w1)
       = sent (trace w)
         ++ resent (facebook_information_request s id) (detail_failures d)
    /\ script w1 = todo /\ rows w1 = rows w ++ [ROW]
    /\ facebook_record (detail_entity d) k ROW
    /\ Dict.get "RUN_TIMESTAMP" ROW = Some (PStr (utc_stamp (time w) (readings w)))
    /\ time w1 = time w /\ readings w1 = S (readings w).
Proof.
  intros (Hf & J & Hp) Hw.
  destruct (call_answered (Facebook.engine s) (facebook_information_request s id)
              (detail_failures d) (detail_answer d) todo w Hf Hw)
    as (w1 & E1 & T1 & C1 & R1 & P1 & K1 & N1).
  destruct (facebook_flatten_record (detail_entity d) k
              (utc_stamp (time w1) (readings w1)) Hp) as (ROW & EF & Hrec).
  exists (Dict.set "RUN_TIMESTAMP" (PStr (utc_stamp (time w1) (readings w1))) ROW),
    (append_row (Dict.set "RUN_TIMESTAMP"
                   (PStr (utc_stamp (time w1) (readings w1))) ROW) (tick w1)).
  split.
  - unfold Facebook.detail_term. cbv zeta. unfold bind at 1.
    unfold Facebook.places_info_endpoint.
    unfold bind at 1. cbn [Facebook._update_term_credentials Dict.set String.eqb
                           Ascii.eqb Bool.eqb pop Dict.get Dict.remove eval fst snd].
    fold (facebook_information_request s id). rewrite E1.
    unfold Facebook.parse_places_info_json_response.
    unfold bind, self_response_json, bind, self_response. rewrite P1. cbn [ret].
    rewrite J, EF. reflexivity.
  - cbn [trace script rows time readings append_row tick].
    rewrite get_set_same, R1. rewrite K1, N1 in *.
    split; [exact T1|]. split; [exact C1|]. split; [reflexivity|].
    split; [exact Hrec|]. repeat split.
Qed.

Lemma facebook_jobs_done s :
  forall js details w todo,
    List.length details = List.length js ->
    Forall (facebook_detail s) details ->
    script w = detail_attempts details ++ todo ->
    exists ROWS w1,
      for_each js (fun j => Facebook.detail_term s (fst j) [("facebook_id", snd j)]) w
      = (Returns tt, w1)
      /\ sent (trace w1)
         = sent (trace w)
           ++ detail_requests (facebook_information_request s) js details
      /\ script w1 = todo /\ rows w1 = rows w ++ ROWS
      /\ detail_rows facebook_record (time w) (readings w) js details ROWS.
Proof.
  induction js as [|[k id] js IH]; intros [|d details] w todo Hlen Hd Hw;
    try discriminate.
  - exists [], w. cbn [for_each ret detail_requests detail_rows].
    rewrite !app_nil_r. repeat split. exact Hw.
  - inversion Hd as [|? ? Hd1 Hd2]. subst.
    unfold detail_attempts in Hw. cbn [flat_map] in Hw.
    fold (detail_attempts details) in Hw. rewrite <- app_assoc in Hw.
    destruct (facebook_detail_answered s k id d w (detail_attempts details ++ todo)
                Hd1 Hw)
      as (ROW & w1 & E1 & T1 & C1 & R1 & Hrec & Hst & K1 & N1).
    destruct (IH details w1 todo ltac:(cbn in Hlen; lia) Hd2 C1)
      as (ROWS & w2 & E2 & T2 & C2 & R2 & Hrows).
    exists (ROW :: ROWS), w2. split.
    + cbn [for_each fst snd]. unfold bind at 1. rewrite E1. exact E2.
    + cbn [detail_requests detail_rows fst snd].
      rewrite T2, T1, R2, R1, <- !app_assoc. rewrite K1, N1 in Hrows.
      split; [reflexivity|]. split; [exact C2|]. split; [reflexivity|].
      split; [exact Hrec|]. split; [exact Hst | exact Hrows].
Qed.

(** *** The two loops *)

(** C9. In a run of the Foursquare wrapper, and of the Facebook wrapper,
    the requests sent are those of the search endpoint followed by those of
    the detail endpoint; a detail request or a row exists only once the loop
    over all the terms has returned its queue; and every row carries, as
    [QUERY], the search string of a term of the input that was not
    skipped.  When the network answers every call, the queue the first loop
    returns holds, for each search string in the order in which the strings
    come up first, the ids the terms with that string handed over -- the id
    a term names, or the ids of the entities its search found -- in the
    order of the terms; the second loop then sends one detail request for
    each id of the queue, in the order of the queue, and writes one row for
    each, which describes the entity of the answer and carries the search
    string under which the id was queued. *)
Theorem C9_search_phase_before_detail_phase :
  (forall (s : Foursquare.self) (w : world),
      in_two_phases (Foursquare.searches s) VENUE_SEARCH VENUE_DETAILS
        (fun ROW =>
           exists k,
             search_string_of (Foursquare._terms s)
               ["q"; "near"; "latitude"; "longitude"; "foursquare_id"]
               ["client_id"; "client_secret"] k
             /\ carries k ROW)
        w (snd (Foursquare.run s w)))
  /\ (forall (s : Facebook.self) (w : world),
         in_two_phases (Facebook.searches s) PLACES_SEARCH PLACE_INFORMATION
           (fun ROW =>
              exists k,
                search_string_of (Facebook._terms s)
                  ["q"; "latitude"; "longitude"; "facebook_id"] ["access_token"] k
                /\ carries k ROW)
           w (snd (Facebook.run s w)))
  /\ (forall (s : Foursquare.self) (w : world) (p : plan) (details : list detail)
             (rest : list attempt),
         map fst p = map as_params (Foursquare._terms s) ->
         Forall (fun v => foursquare_turn s (fst v) (snd v)) p ->
         Forall (foursquare_detail s (time w)) details ->
         List.length details = List.length (jobs (handed p)) ->
         script w = plan_attempts p ++ detail_attempts details ++ rest ->
         two_loops (Foursquare.searches s) "foursquare_id"
           (foursquare_details_request s) (foursquare_record (time w))
           (handed p) (plan_requests (foursquare_search_request s) p)
           details rest w (Foursquare.run s w))
  /\ (forall (s : Facebook.self) (w : world) (p : plan) (details : list detail)
             (rest : list attempt),
         map fst p = map as_params (Facebook._terms s) ->
         Forall (fun v => facebook_turn s (fst v) (snd v)) p ->
         Forall (facebook_detail s) details ->
         List.length details = List.length (jobs (handed p)) ->
         script w = plan_attempts p ++ detail_attempts details ++ rest ->
         two_loops (Facebook.searches s) "facebook_id"
           (facebook_information_request s) facebook_record
           (handed p) (plan_requests (facebook_search_request s) p)
           details rest w (Facebook.run s w)).
Proof.
  split; [|split; [|split]].
  - intros s w. unfold Foursquare.run.
    apply (two_phases (Foursquare.searches s) (Foursquare.details s) _ _
             (fun q ROW => exists k, In k (Dict.keys q) /\ carries k ROW)).
    + unfold Foursquare.searches. apply effects_for_fold. intros term q.
      apply effects_foursquare_search_term.
    + apply effects_foursquare_details.
    + intros q w1 ROW Hq (k & Hk & Hc). exists k. split; [|exact Hc].
      now apply (foursquare_searches_keys s w q w1).
  - intros s w. unfold Facebook.run.
    apply (two_phases (Facebook.searches s) (Facebook.details s) _ _
             (fun q ROW => exists k, In k (Dict.keys q) /\ carries k ROW)).
    + unfold Facebook.searches. apply effects_for_fold. intros term q.
      apply effects_facebook_search_term.
    + apply effects_facebook_details.
    + intros q w1 ROW Hq (k & Hk & Hc). exists k. split; [|exact Hc].
      now apply (facebook_searches_keys s w q w1).
  - intros s w p details rest Hp Hturns Hdetails Hlen Hw.
    destruct (foursquare_plan_taken s p Hturns [] w (detail_attempts details ++ rest) Hw)
      as (w1 & E1 & T1 & C1 & R1 & K1 & N1).
    rewrite (QueueFacts.fold_enqueue "foursquare_id" (handed p)), Hp in E1.
    rewrite <- K1 in Hdetails.
    destruct (foursquare_jobs_done s (jobs (handed p)) details w1 rest Hlen Hdetails C1)
      as (ROWS & w2 & E2 & T2 & C2 & R2 & Hrows).
    assert (E : Foursquare.run s w = (Returns tt, w2)).
    { unfold Foursquare.run, bind. unfold Foursquare.searches at 1. rewrite E1.
      unfold Foursquare.details.
      rewrite (details_as_jobs (Foursquare.detail_term s) "foursquare_id"
                 (gathered (handed p)) w1).
      exact E2. }
    unfold two_loops. rewrite E. cbn [fst snd].
    split; [exists w1; split; [exact E1 | split; [exact T1 | exact R1]]|].
    split; [reflexivity|]. split; [rewrite T2, T1, <- app_assoc; reflexivity|].
    split; [exact C2|]. exists ROWS. split; [rewrite R2, R1; reflexivity|].
    rewrite K1, N1 in Hrows. exact Hrows.
  - intros s w p details rest Hp Hturns Hdetails Hlen Hw.
    destruct (facebook_plan_taken s p Hturns [] w (detail_attempts details ++ rest) Hw)
      as (w1 & E1 & T1 & C1 & R1 & K1 & N1).
    rewrite (QueueFacts.fold_enqueue "facebook_id" (handed p)), Hp in E1.
    destruct (facebook_jobs_done s (jobs (handed p)) details w1 rest Hlen Hdetails C1)
      as (ROWS & w2 & E2 & T2 & C2 & R2 & Hrows).
    assert (E : Facebook.run s w = (Returns tt, w2)).
    { unfold Facebook.run, bind. unfold Facebook.searches at 1. rewrite E1.
      unfold Facebook.details.
      rewrite (details_as_jobs (Facebook.detail_term s) "facebook_id"
                 (gathered (handed p)) w1).
      exact E2. }
    unfold two_loops. rewrite E. cbn [fst snd].
    split; [exists w1; split; [exact E1 | split; [exact T1 | exact R1]]|].
    split; [reflexivity|]. split; [rewrite T2, T1, <- app_assoc; reflexivity|].
    split; [exact C2|]. exists ROWS. split; [rewrite R2, R1; reflexivity|].
    rewrite K1, N1 in Hrows. exact Hrows.
Qed.

Lemma C9_search_phase_before_detail_phase_witness :
  let s := {| Foursquare._errors_limit := 3;
              Foursquare.keys := [("client_id", "i"); ("client_secret", "x")];
              Foursquare._client_id := "i";
              Foursquare._client_secret := "x";
              Foursquare._terms := [ [("near", "Berlin")];
                                     [("foursquare_id", "v9")];
                                     [("radius", "5")];
                                     [("near", "Berlin")] ];
              Foursquare._term_current_date := "20190301" |} in
  let listing ids :=
    sample_answer
      (PDict [("response",
               PDict [("venues", PList (map (fun id => PDict [("id", PStr id)]) ids))])]) in
  let venue id :=
    sample_answer (PDict [("response", PDict [("venue", PDict [("id", PStr id)])])]) in
  let w := sample_world [ Answers (listing ["v1"]); Answers (listing ["v3"]);
                          Answers (venue "v1"); Fails "Timeout" "late";
                          Answers (venue "v3"); Answers (venue "v9") ] in
  let out := Foursquare.run s w in
  let s' := {| Facebook._errors_limit := 3;
               Facebook.keys := [("access_token", "t")];
               Facebook._access_token := "t";
               Facebook._terms := [ [("q", "bar"); ("facebook_id", "77")];
                                    [("q", "cafe")] ] |} in
  let places := sample_answer
                  (PDict [("data", PList [PDict [("id", PStr "5")];
                                          PDict [("id", PStr "")]])]) in
  let place id := sample_answer (PDict [("id", PStr id)]) in
  let w' := sample_world [Answers places; Answers (place "77"); Answers (place "5")] in
  let out' := Facebook.run s' w' in
  (fst out = Returns tt
   /\ sent (trace (snd out))
      = [ foursquare_search_request s [("near", PStr "Berlin")];
          foursquare_search_request s [("near", PStr "Berlin")];
          foursquare_details_request s (PStr "v1");
          foursquare_details_request s (PStr "v3");
          foursquare_details_request s (PStr "v3");
          foursquare_details_request s (PStr "v9") ]
   /\ map (fun ROW => (Dict.get "QUERY" ROW, Dict.get "ID" ROW)) (rows (snd out))
      = [ (Some (PStr "Berlin"), Some (PStr "v1"));
          (Some (PStr "Berlin"), Some (PStr "v3"));
          (Some (PStr "v9"), Some (PStr "v9")) ])
  /\ (fst out' = Returns tt
      /\ sent (trace (snd out'))
         = [ facebook_search_request s' [("q", PStr "cafe")];
             facebook_information_request s' (PStr "77");
             facebook_information_request s' (PStr "5") ]
      /\ map (fun ROW => (Dict.get "QUERY" ROW, Dict.get "ID" ROW)) (rows (snd out'))
         = [ (Some (PStr "bar|77"), Some (PStr "'77"));
             (Some (PStr "cafe"), Some (PStr "'5")) ]).
Proof.
  intros s listing venue w out s' places place w' out'.
  assert (F : forall fs, (List.length fs < 3)%nat -> tolerated 3 fs).
  { intros fs H. right. lia. }
  split.
  - set (p := [ ([("near", PStr "Berlin")],
                 Searched "Berlin" [] (listing ["v1"]) [[("id", PStr "v1")]]);
                ([("foursquare_id", PStr "v9")], Named "v9" (PStr "v9"));
                ([("radius", PStr "5")], Skipped);
                ([("near", PStr "Berlin")],
                 Searched "Berlin" [] (listing ["v3"]) [[("id", PStr "v3")]]) ] : plan).
    set (details := [ {| detail_failures := []; detail_answer := venue "v1";
                         detail_entity := [("id", PStr "v1")] |};
                      {| detail_failures := [("Timeout", "late")];
                         detail_answer := venue "v3";
                         detail_entity := [("id", PStr "v3")] |};
                      {| detail_failures := []; detail_answer := venue "v9";
                         detail_entity := [("id", PStr "v9")] |} ]).
    destruct (proj1 (proj2 (proj2 C9_search_phase_before_detail_phase))
                s w p details [] eq_refl)
      as (_ & O & T & _ & ROWS & R & D).
    + repeat constructor; cbn [fst snd foursquare_turn]; cbv zeta;
        repeat split; try reflexivity; try (apply F; cbn; lia);
        eexists; split; reflexivity.
    + repeat constructor; try (apply F; cbn; lia);
        do 2 eexists; repeat split; reflexivity.
    + reflexivity.
    + reflexivity.
    + split; [exact O|]. split; [exact T|].
      change (rows (snd out)) with (rows (snd (Foursquare.run s w))).
      rewrite R. cbn [rows sample_world app w].
      change (jobs (handed p))
        with [("Berlin", PStr "v1"); ("Berlin", PStr "v3"); ("v9", PStr "v9")] in D.
      destruct ROWS as [|R1 [|R2 [|R3 [|R4 ROWS]]]]; cbn [detail_rows details] in D;
        try contradiction; try (destruct D as (_ & _ & []); fail);
        try (destruct D as (_ & _ & _ & _ & []); fail);
        try (destruct D as (_ & _ & _ & _ & _ & _ & []); fail).
      destruct D as ((Q1 & _ & P1 & _) & _ & (Q2 & _ & P2 & _) & _
                     & (Q3 & _ & P3 & _) & _ & _).
      cbn [map]. rewrite Q1, Q2, Q3.
      inversion P1 as [|? ? _ P1']. inversion P1' as [|? ? I1 _].
      inversion P2 as [|? ? _ P2']. inversion P2' as [|? ? I2 _].
      inversion P3 as [|? ? _ P3']. inversion P3' as [|? ? I3 _].
      cbn [fst snd] in I1, I2, I3. rewrite I1, I2, I3. reflexivity.
  - set (p := [ ([("q", PStr "bar"); ("facebook_id", PStr "77")],
                 Named "bar|77" (PStr "77"));
                ([("q", PStr "cafe")],
                 Searched "cafe" [] places [[("id", PStr "5")]; [("id", PStr "")]]) ]
               : plan).
    set (details := [ {| detail_failures := []; detail_answer := place "77";
                         detail_entity := [("id", PStr "77")] |};
                      {| detail_failures := []; detail_answer := place "5";
                         detail_entity := [("id", PStr "5")] |} ]).
    destruct (proj2 (proj2 (proj2 C9_search_phase_before_detail_phase))
                s' w' p details [] eq_refl)
      as (_ & O & T & _ & ROWS & R & D).
    + repeat constructor; cbn [fst snd facebook_turn]; cbv zeta;
        repeat split; try reflexivity; try (apply F; cbn; lia);
        eexists; split; reflexivity.
    + repeat constructor; try (apply F; cbn; lia); reflexivity.
    + reflexivity.
    + reflexivity.
    + split; [exact O|]. split; [exact T|].
      change (rows (snd out')) with (rows (snd (Facebook.run s' w'))).
      rewrite R. cbn [rows sample_world app w'].
      change (jobs (handed p)) with [("bar|77", PStr "77"); ("cafe", PStr "5")] in D.
      destruct ROWS as [|R1 [|R2 [|R3 ROWS]]]; cbn [detail_rows details] in D;
        try contradiction; try (destruct D as (_ & _ & []); fail);
        try (destruct D as (_ & _ & _ & _ & []); fail).
      destruct D as ((Q1 & _ & _ & I1 & _) & _ & (Q2 & _ & _ & I2 & _) & _ & _).
      cbn [map]. rewrite Q1, Q2, I1, I2. reflexivity.
Defined.

(** ** Yelp: a limit that is no number *)

Module IntFacts.



Lemma rstrip_digits s : digits_only s = true -> Str.rstrip_with Str.int_space s = s.
Proof.
  induction s as [|c s IH]; [reflexivity|]. cbn [digits_only]. intros H.
  apply andb_true_iff in H. destruct H as [Hc Hs]. cbn [Str.rstrip_with].
  rewrite (IH Hs). destruct s; [|reflexivity].
  replace (Str.int_space c) with false; [reflexivity|].
  revert Hc. unfold Str.int_space, Str.code.
  destruct c as [[] [] [] [] [] [] [] []]; cbn; congruence.
Qed.

Lemma lstrip_digits s : digits_only s = true -> Str.lstrip_with Str.int_space s = s.
Proof.
  destruct s as [|c s]; [reflexivity|]. cbn [digits_only]. intros H.
  apply andb_true_iff in H. destruct H as [Hc _]. cbn [Str.lstrip_with].
  replace (Str.int_space c) with false; [reflexivity|].
  revert Hc. unfold Str.int_space, Str.code.
  destruct c as [[] [] [] [] [] [] [] []]; cbn; congruence.
Qed.

Lemma int_digits_too_many s :
  digits_only s = true ->
  forall acc n b,
    (Str.max_str_digits < n + N.of_nat (String.length s))%N ->
    Str.int_digits acc n b s = None.
Proof.
  induction s as [|c s IH]; intros H acc n b Hn.
  - cbn [Str.int_digits String.length N.of_nat] in *.
    replace (n <=? Str.max_str_digits)%N with false; [now rewrite andb_false_r|].
    symmetry. apply N.leb_gt. lia.
  - cbn [digits_only] in H. apply andb_true_iff in H. destruct H as [Hc Hs].
    cbn [Str.int_digits]. unfold Str.digit_of. rewrite Hc.
    apply (IH Hs). cbn [String.length] in Hn. lia.
Qed.

Lemma to_Z_too_many s :
  digits_only s = true ->
  (N.to_nat Str.max_str_digits < String.length s)%nat ->
  Str.to_Z s = None.
Proof.
  intros H Hn. unfold Str.to_Z. rewrite (lstrip_digits s H), (rstrip_digits s H).
  assert (E : Str.int_digits 0 0 false s = None).
  { apply (int_digits_too_many s H). lia. }
  destruct s as [|c s]; [exact E|].
  cbn [digits_only] in H. apply andb_true_iff in H. destruct H as [Hc _].
  revert Hc E. unfold Str.code.
  destruct c as [[] [] [] [] [] [] [] []]; cbn [N_of_ascii]; intros Hc E;
    try exact E; cbn in Hc; discriminate.
Qed.

End IntFacts.

Lemma yelp_limit_unread s term cell w :
  any_present ["location"; "latitude"; "longitude"] term = true ->
  Dict.get "limit" term = Some (PStr cell) ->
  cell <> "" ->
  Str.to_Z cell = None ->
  Yelp.run_term s term w
  = (Raises ValueError, log (Print (TermLine (Yelp.search_term_str term))) w).
Proof.
  intros Hloc Hcell Hne Hz. unfold Yelp.run_term. rewrite Hloc. cbn [negb]. cbv zeta.
  unfold bind at 1. cbn [emit]. unfold bind at 1.
  unfold Yelp.term_limit_user, present, FileTools.get_or. rewrite Hcell.
  destruct cell as [|c cell]; [congruence|]. cbn [Py.truthy Py.int and_then].
  rewrite Hz. reflexivity.
Qed.



(** X29. [int] converts no more than 4300 digits, the default of the
    interpreter: a Yelp term with a locator whose limit is a longer string
    of digits raises [ValueError] once its search string is printed, before
    any request is sent. *)
Theorem yelp_limit_of_too_many_digits_raises_ValueError :
  forall (s : Yelp.self) (term : Dict.t pyval) (cell : string) (w : world),
    any_present ["location"; "latitude"; "longitude"] term = true ->
    Dict.get "limit" term = Some (PStr cell) ->
    digits_only cell = true ->
    (4300 < String.length cell)%nat ->
    Yelp.run_term s term w
    = (Raises ValueError, log (Print (TermLine (Yelp.search_term_str term))) w).
Proof.
  intros s term cell w Hloc Hcell Hd Hn.
  apply (yelp_limit_unread s term cell w Hloc Hcell).
  - intros ->. cbn in Hn. lia.
  - apply IntFacts.to_Z_too_many; [exact Hd|].
    replace (N.to_nat Str.max_str_digits) with 4300%nat; [exact Hn|].
    unfold Str.max_str_digits. lia.
Qed.

Lemma yelp_limit_of_too_many_digits_raises_ValueError_witness :
  let term := [("location", PStr "Berlin"); ("limit", PStr (nines 4301))] in
  let out := Yelp.run_term sample_yelp term
               (sample_world [Answers (sample_page ["a"])]) in
  Yelp.term_limit_user [("limit", PStr (nines 4300))] <> Raise ValueError
  /\ fst out = Raises ValueError
  /\ sent (trace (snd out)) = [].
Proof.
  intros term out. split.
  - vm_compute. discriminate.
  - unfold out.
    rewrite (yelp_limit_of_too_many_digits_raises_ValueError sample_yelp term
               (nines 4301) (sample_world [Answers (sample_page ["a"])])
               eq_refl eq_refl).
    + repeat split.
    + vm_compute. reflexivity.
    + apply Nat.ltb_lt. vm_compute. reflexivity.
Defined.
